(** * Therapy Simulator 1987: the session state machine

    A shallow embedding of [therpaysim.py]: the content catalog, the choice
    resolver ([on_choose]), effect processing ([continue_after_choice]),
    session completion, level-ups, stage advancement, the dice combat, the
    ending resolver, the item dialog and the two report panels, followed by
    the properties of the design document that are checked against them and
    by further properties read off the code.

    Conventions of the embedding.
    - Python [int] is [Z]; Python [bool] is the integer it is ([True] is 1,
      [False] is 0), so that a dict holding both kinds of value is a
      [gmap string Z] and truthiness is "different from 0".
    - A dict with an open set of keys (flags, inventory, effects, bonuses) is
      a [gmap string Z]; the stat block, whose four keys are fixed, is a
      record.
    - A handler that would raise (a missing key, a missing attribute, an
      index out of range) returns [None].
    - Client instances are Python dicts shared between [self.clients] and
      [self.current_client]; they live in an object store ([heap]) and are
      named by their address.
    - Random draws ([random.randint], [random.random], [random.choice]) are
      arguments of the handler that makes them.
    - Widgets, the session log, the typewriter and the texts shown to the
      player are left out; only the control flow they carry is kept (whether
      a reply is present, which callbacks are scheduled with [after]). *)

From Stdlib Require Import ZArith QArith Ascii String.
From stdpp Require Import gmap strings list fin_maps.

Local Open Scope string_scope.
Local Open Scope Z_scope.

(** ** Python helpers *)

(** [str.lower] on the ASCII range (the catalog's labels are ASCII). *)
Definition lower_ascii (c : ascii) : ascii :=
  let n := Ascii.N_of_ascii c in
  if ((65 <=? n) && (n <=? 90))%N then Ascii.ascii_of_N (n + 32) else c.

Fixpoint lower (s : string) : string :=
  match s with
  | EmptyString => EmptyString
  | String c r => String (lower_ascii c) (lower r)
  end.

(** [w in s] on strings: [w] occurs in [s] as a contiguous substring. *)
Fixpoint contains (w s : string) : bool :=
  String.prefix w s ||
  match s with
  | EmptyString => false
  | String _ r => contains w r
  end.

(** [any(word in s for word in words)] *)
Definition any_in (words : list string) (s : string) : bool :=
  existsb (fun word => contains word s) words.

(** A dict literal. *)
Definition dict (kvs : list (string * Z)) : gmap string Z := list_to_map kvs.

(** [d.get(k, 0)] *)
Definition get0 (d : gmap string Z) (k : string) : Z := default 0 (d !! k).

(** Truthiness of [d.get(k)]: the key is present and its value is not 0. *)
Definition truthy (d : gmap string Z) (k : string) : bool :=
  match d !! k with
  | Some v => negb (v =? 0)
  | None => false
  end.

(** [k in d] *)
Definition has_key (d : gmap string Z) (k : string) : bool :=
  bool_decide (is_Some (d !! k)).

(** ** Data model *)

Record Stats := mkStats {
  Patience : Z;
  Empathy : Z;
  Insight : Z;
  Composure : Z
}.

Definition set_Patience (v : Z) (s : Stats) : Stats :=
  mkStats v (Empathy s) (Insight s) (Composure s).
Definition set_Empathy (v : Z) (s : Stats) : Stats :=
  mkStats (Patience s) v (Insight s) (Composure s).
Definition set_Insight (v : Z) (s : Stats) : Stats :=
  mkStats (Patience s) (Empathy s) v (Composure s).
Definition set_Composure (v : Z) (s : Stats) : Stats :=
  mkStats (Patience s) (Empathy s) (Insight s) v.

(** The keys of the stat dict, as [ITEMS] names them. *)
Inductive StatKey := KPatience | KEmpathy | KInsight | KComposure.

Definition get_stat (k : StatKey) (s : Stats) : Z :=
  match k with
  | KPatience => Patience s
  | KEmpathy => Empathy s
  | KInsight => Insight s
  | KComposure => Composure s
  end.

Definition set_stat (k : StatKey) (v : Z) (s : Stats) : Stats :=
  match k with
  | KPatience => set_Patience v s
  | KEmpathy => set_Empathy v s
  | KInsight => set_Insight v s
  | KComposure => set_Composure v s
  end.

Inductive Class := Empath | Counselor | Burnout.

Record ClassTemplate := mkClassTemplate {
  class_desc : string;
  base : Stats;
  ability : string
}.

Definition CLASS_TEMPLATES (cls : Class) : ClassTemplate :=
  match cls with
  | Empath =>
      mkClassTemplate
        "Insight-focused. Understands why people are broken but can't fix them either."
        (mkStats 4 4 8 5) "Sad Realization"
  | Counselor =>
      mkClassTemplate
        "Empathy-focused. Pretends to care about people's problems for money."
        (mkStats 5 8 3 6) "Fake Sympathy"
  | Burnout =>
      mkClassTemplate
        "Patience-focused. Gave up caring years ago but somehow that helps."
        (mkStats 8 4 3 4) "Dead Inside Stare"
  end.

Record Item := mkItem {
  item_desc : string;
  uses : Z;
  stat : StatKey
}.

(** [ITEMS], in the order of the dict literal. *)
Definition ITEMS_list : list (string * Item) :=
  [ ("Coffee", mkItem "Restores Patience (+2)" 2 KPatience);
    ("Notepad", mkItem "Restores Empathy (+2)" 1 KEmpathy);
    ("Meditation Guide", mkItem "Restores Insight (+2)" 1 KInsight);
    ("Energy Drink", mkItem "Restores Composure (+2)" 1 KComposure) ].

Definition ITEMS : gmap string Item := list_to_map ITEMS_list.

Module Stage.
Record LocationEffects := mkLocationEffects {
  bonuses : gmap string Z;        (* the numeric keys of the dict *)
  special_items : list string;
  description : string
}.

Record t := mk {
  name : string;
  desc : string;
  clients : list string;
  clients_needed : Z;
  stage_bonus : gmap string Z;
  location_effects : LocationEffects
}.
End Stage.

Definition THERAPY_STAGES : list Stage.t :=
  [ Stage.mk "Community Center"
      "A run-down community center where therapy happens between bingo nights"
      ["toaster"; "mime"] 2
      (dict [("reputation", 1)])
      (Stage.mkLocationEffects
         (dict [("empathy_bonus", 1); ("difficulty_modifier", 0)])
         ["Coffee"]
         "The community setting makes clients more receptive to empathy");
    Stage.mk "Corporate Wellness Program"
      "Sterile office building where companies dump their broken employees"
      ["business"; "choir"] 2
      (dict [("xp", 2); ("reputation", 1)])
      (Stage.mkLocationEffects
         (dict [("insight_bonus", 1); ("difficulty_modifier", 1)])
         ["Energy Drink"; "Notepad"]
         "Corporate environment rewards analytical thinking but clients are more guarded");
    Stage.mk "Crisis Intervention Center"
      "Where the really messed up cases end up after everything else failed"
      ["cult"; "influencer"] 2
      (dict [("all_stats", 1); ("xp", 1)])
      (Stage.mkLocationEffects
         (dict [("patience_bonus", 2); ("difficulty_modifier", 2)])
         ["Meditation Guide"; "Coffee"]
         "Crisis situations demand extreme patience but clients' problems are severe");
    Stage.mk "Private Practice"
      "Your own office where you can charge premium rates for the same failure"
      ["conspiracy"; "artist"] 2
      (dict [("reputation", 3); ("xp", 3); ("all_stats", 1)])
      (Stage.mkLocationEffects
         (dict [("all_bonus", 1); ("difficulty_modifier", 0)])
         ["Coffee"; "Notepad"; "Energy Drink"]
         "Your own practice allows maximum flexibility and effectiveness");
    Stage.mk "State Mental Hospital"
      "Rock bottom of the therapy world where hope goes to die"
      ["parent"] 1
      (dict [("all_stats", 2); ("xp", 5)])
      (Stage.mkLocationEffects
         (dict [("composure_bonus", 2); ("difficulty_modifier", 3)])
         ["Meditation Guide"; "Energy Drink"]
         "The worst cases require emotional detachment to survive") ].

(** A choice of a dialogue node.  [reply] keeps only whether the reply text
    is present (truthy); [effects] is [None] for Python's [None]. *)
Record Choice := mkChoice {
  text : string;
  next : option string;
  effects : option (gmap string Z);
  reply : bool
}.

(** A dialogue node: its choices (the node's text is display only). *)
Record Node := mkNode {
  choices : list Choice
}.

(** An entry of [build_clients_data()]. *)
Record ClientDef := mkClientDef {
  def_id : string;
  def_name : string;
  def_nodes : gmap string Node;
  def_absurdity : Z;
  def_resistance : Z
}.
Definition toaster_nodes : gmap string Node :=
  list_to_map [
    ("start", mkNode [
        mkChoice "Cool story" (Some "explain") (None) true;
        mkChoice "What does it burn exactly" (Some "paranoid") (None) true;
        mkChoice "Maybe buy a new toaster" (Some "defensive") (Some (dict [("absurdity", 1)])) true;
        mkChoice "How does that make you feel" (Some "hopeful") (Some (dict [("absurdity", (-1))])) true]);
    ("explain", mkNode [
        mkChoice "Mm-hmm" (Some "paranoid") (Some (dict [("absurdity", (-1))])) true;
        mkChoice "And how did that feel" (Some "deeper") (None) true;
        mkChoice "What else does it say" (Some "escalate") (Some (dict [("absurdity", 1)])) true]);
    ("paranoid", mkNode [
        mkChoice "Sure" (Some "deeper") (None) true;
        mkChoice "That sounds hard" (Some "hopeful") (Some (dict [("absurdity", (-1))])) true;
        mkChoice "Toasters don't think" (Some "escalate") (Some (dict [("absurdity", 1)])) true]);
    ("defensive", mkNode [
        mkChoice "Right" (Some "hopeful") (Some (dict [("absurdity", (-1))])) true;
        mkChoice "What do they say" (Some "deeper") (None) true]);
    ("deeper", mkNode [
        mkChoice "Interesting" (None) (Some (dict [("absurdity", (-1)); ("breakthrough", 1)])) true;
        mkChoice "How do you feel about that" (None) (None) true]);
    ("hopeful", mkNode [
        mkChoice "Not really" (None) (Some (dict [("absurdity", (-1)); ("breakthrough", 1)])) true;
        mkChoice "Maybe try human contact" (None) (None) true]);
    ("escalate", mkNode [
        mkChoice "Okay" (Some "paranoid") (Some (dict [("absurdity", (-1))])) true;
        mkChoice "That's concerning" (None) (Some (dict [("start_debate", 1); ("heated_argument", 1)])) false])].

Definition mime_nodes : gmap string Node :=
  list_to_map [
    ("start", mkNode [
        mkChoice "Sure" (Some "comfortable") (Some (dict [("absurdity", (-1))])) true;
        mkChoice "Are you actually mute" (Some "nervous") (None) true;
        mkChoice "This is stupid" (Some "defensive") (Some (dict [("absurdity", 1)])) true;
        mkChoice "Cool let me try" (Some "breakthrough") (Some (dict [("absurdity", (-2))])) true]);
    ("comfortable", mkNode [
        mkChoice "Mm-hmm" (Some "opening") (None) true;
        mkChoice "How do you feel" (Some "anxious") (Some (dict [("absurdity", 1)])) true;
        mkChoice "What happened" (Some "opening") (None) true]);
    ("breakthrough", mkNode [
        mkChoice "Right" (None) (Some (dict [("absurdity", (-2)); ("breakthrough", 1)])) true;
        mkChoice "Try talking" (None) (Some (dict [("absurdity", (-1))])) true]);
    ("nervous", mkNode [
        mkChoice "That's rough" (Some "opening") (Some (dict [("absurdity", (-1))])) true;
        mkChoice "What triggers it" (Some "anxious") (None) true]);
    ("defensive", mkNode [
        mkChoice "Whatever" (Some "comfortable") (Some (dict [("absurdity", (-1))])) true;
        mkChoice "Take your time" (Some "comfortable") (None) true]);
    ("opening", mkNode [
        mkChoice "That's poetic" (None) (Some (dict [("absurdity", (-1)); ("breakthrough", 1)])) true;
        mkChoice "Who gets you" (None) (None) true]);
    ("anxious", mkNode [
        mkChoice "Try breathing exercises" (None) (Some (dict [("absurdity", (-1))])) true;
        mkChoice "Yeah people suck" (None) (None) true])].

Definition business_nodes : gmap string Node :=
  list_to_map [
    ("start", mkNode [
        mkChoice "How does that make you feel" (Some "nostalgia") (Some (dict [("absurdity", (-1))])) true;
        mkChoice "Do you feel guilty" (Some "defensive") (None) true;
        mkChoice "What about their families" (Some "laugh") (Some (dict [("absurdity", (-1))])) true]);
    ("nostalgia", mkNode [
        mkChoice "Uh huh" (None) (Some (dict [("absurdity", (-1))])) true;
        mkChoice "That's dark" (None) (None) true]);
    ("defensive", mkNode [
        mkChoice "What about happiness" (Some "confused") (None) true;
        mkChoice "Maybe try meditation" (None) (Some (dict [("absurdity", (-1))])) true]);
    ("laugh", mkNode [
        mkChoice "That's insane" (None) (None) true;
        mkChoice "How's your son" (None) (Some (dict [("absurdity", (-1))])) true]);
    ("confused", mkNode [
        mkChoice "That feeling has a name" (None) (Some (dict [("absurdity", (-1)); ("breakthrough", 1)])) true;
        mkChoice "Whatever" (None) (None) true])].

Definition cult_nodes : gmap string Node :=
  list_to_map [
    ("start", mkNode [
        mkChoice "That's concerning" (Some "haunted") (None) true;
        mkChoice "What's your life like now" (Some "cats") (Some (dict [("absurdity", (-1))])) true;
        mkChoice "Maybe try therapy" (Some "grounded") (Some (dict [("absurdity", (-1))])) true]);
    ("haunted", mkNode [
        mkChoice "How much do you owe" (None) (Some (dict [("absurdity", (-1))])) true;
        mkChoice "That's dark" (None) (None) true]);
    ("cats", mkNode [
        mkChoice "What do they conclude" (None) (Some (dict [("absurdity", (-1)); ("breakthrough", 1)])) true;
        mkChoice "Maybe get a dog" (None) (None) true]);
    ("grounded", mkNode [
        mkChoice "That's one way to see it" (None) (Some (dict [("absurdity", (-1))])) true;
        mkChoice "You seem tired" (None) (None) true])].

Definition choir_nodes : gmap string Node :=
  list_to_map [
    ("start", mkNode [
        mkChoice "Cool" (Some "harmony") (Some (dict [("absurdity", (-1))])) true;
        mkChoice "What do they sing about" (Some "tiles") (None) true;
        mkChoice "Do you get paid extra" (Some "stapler") (None) true]);
    ("harmony", mkNode [
        mkChoice "That sounds accurate" (None) (Some (dict [("absurdity", (-1))])) true;
        mkChoice "What's your favorite song" (None) (None) true]);
    ("tiles", mkNode [
        mkChoice "What do they say" (None) (None) true;
        mkChoice "Tiles don't write lyrics" (None) (Some (dict [("absurdity", (-1)); ("breakthrough", 1)])) true]);
    ("stapler", mkNode [
        mkChoice "That's oddly touching" (None) (Some (dict [("absurdity", (-1))])) true;
        mkChoice "Do you have panic attacks often" (None) (None) true])].

Definition influencer_nodes : gmap string Node :=
  list_to_map [
    ("start", mkNode [
        mkChoice "That's ambitious" (Some "delusion") (None) true;
        mkChoice "How's that working out" (Some "reality") (Some (dict [("absurdity", (-1))])) true;
        mkChoice "Maybe focus on therapy first" (Some "defensive") (Some (dict [("absurdity", (-1))])) true]);
    ("delusion", mkNode [
        mkChoice "Interesting concept" (None) (None) true;
        mkChoice "Would they agree to that" (None) (Some (dict [("absurdity", (-1))])) true]);
    ("reality", mkNode [
        mkChoice "Quality over quantity" (None) (Some (dict [("absurdity", (-1)); ("breakthrough", 1)])) true;
        mkChoice "Maybe try a different approach" (None) (None) true]);
    ("defensive", mkNode [
        mkChoice "I'm not judging" (None) (Some (dict [("absurdity", (-1))])) true;
        mkChoice "Social media isn't real connection" (None) (None) true])].

Definition conspiracy_nodes : gmap string Node :=
  list_to_map [
    ("start", mkNode [
        mkChoice "That's... one theory" (Some "deeper") (None) true;
        mkChoice "What makes you think that" (Some "evidence") (Some (dict [("absurdity", (-1))])) true;
        mkChoice "Maybe you're just stressed" (Some "defensive") (Some (dict [("absurdity", (-1))])) true]);
    ("deeper", mkNode [
        mkChoice "What did you research" (None) (None) true;
        mkChoice "How did that make you feel" (None) (Some (dict [("absurdity", (-1))])) true]);
    ("evidence", mkNode [
        mkChoice "Show me the data" (None) (Some (dict [("absurdity", (-1)); ("breakthrough", 1)])) true;
        mkChoice "Correlation isn't causation" (None) (None) true]);
    ("defensive", mkNode [
        mkChoice "You're not crazy" (None) (Some (dict [("absurdity", (-1))])) true;
        mkChoice "That sounds exhausting" (None) (None) true])].

Definition artist_nodes : gmap string Node :=
  list_to_map [
    ("start", mkNode [
        mkChoice "Have you considered other careers" (Some "defensive") (Some (dict [("absurdity", (-1))])) true]);
    ("defensive", mkNode [
        mkChoice "That's rough" (None) (Some (dict [("absurdity", (-1))])) true;
        mkChoice "Maybe redefine success" (None) (None) true])].

Definition parent_nodes : gmap string Node :=
  list_to_map [
    ("start", mkNode [
        mkChoice "Parenting is hard" (Some "worry") (Some (dict [("absurdity", (-1))])) true;
        mkChoice "What's your biggest fear" (Some "future") (None) true;
        mkChoice "Google isn't always helpful" (Some "research") (Some (dict [("absurdity", (-1))])) true]);
    ("worry", mkNode [
        mkChoice "Most kids turn out fine" (None) (Some (dict [("absurdity", (-1))])) true;
        mkChoice "Trust your instincts" (None) (None) true]);
    ("future", mkNode [
        mkChoice "Everyone needs therapy" (None) (Some (dict [("absurdity", (-1)); ("breakthrough", 1)])) true;
        mkChoice "You care and that matters" (None) (None) true]);
    ("research", mkNode [
        mkChoice "That's impossible" (None) (Some (dict [("absurdity", (-1))])) true;
        mkChoice "Just do your best" (None) (None) true])].

Definition build_clients_data : list ClientDef :=
  [ mkClientDef "toaster" "Toaster Guy" toaster_nodes 6 4;
    mkClientDef "mime" "Mime Lady" mime_nodes 5 5;
    mkClientDef "business" "Business Guy" business_nodes 6 6;
    mkClientDef "cult" "Weird Cult Person" cult_nodes 7 5;
    mkClientDef "choir" "Office Supply Choir" choir_nodes 8 6;
    mkClientDef "influencer" "Wannabe Influencer" influencer_nodes 7 5;
    mkClientDef "conspiracy" "Conspiracy Guy" conspiracy_nodes 6 7;
    mkClientDef "artist" "Failed Artist" artist_nodes 6 5;
    mkClientDef "parent" "Anxious Parent" parent_nodes 5 4 ].

(** All choices of the shipped catalog. *)
Definition catalog_choices : list Choice :=
  c ← build_clients_data; n ← (map_to_list (def_nodes c)).*2; choices n.

Module Player.
Record t := mk {
  name : string;
  class : Class;
  ability : string;
  stats : Stats;
  inventory : gmap string Z;
  xp : Z;
  reputation : Z;
  current_stage_index : nat;
  clients_completed : Z;
  flags : gmap string Z
}.

Definition set_stats (v : Stats) (p : t) : t :=
  mk (name p) (class p) (ability p) v (inventory p) (xp p) (reputation p)
     (current_stage_index p) (clients_completed p) (flags p).
Definition set_inventory (v : gmap string Z) (p : t) : t :=
  mk (name p) (class p) (ability p) (stats p) v (xp p) (reputation p)
     (current_stage_index p) (clients_completed p) (flags p).
Definition set_xp (v : Z) (p : t) : t :=
  mk (name p) (class p) (ability p) (stats p) (inventory p) v (reputation p)
     (current_stage_index p) (clients_completed p) (flags p).
Definition set_reputation (v : Z) (p : t) : t :=
  mk (name p) (class p) (ability p) (stats p) (inventory p) (xp p) v
     (current_stage_index p) (clients_completed p) (flags p).
Definition set_current_stage_index (v : nat) (p : t) : t :=
  mk (name p) (class p) (ability p) (stats p) (inventory p) (xp p)
     (reputation p) v (clients_completed p) (flags p).
Definition set_clients_completed (v : Z) (p : t) : t :=
  mk (name p) (class p) (ability p) (stats p) (inventory p) (xp p)
     (reputation p) (current_stage_index p) v (flags p).
Definition set_flags (v : gmap string Z) (p : t) : t :=
  mk (name p) (class p) (ability p) (stats p) (inventory p) (xp p)
     (reputation p) (current_stage_index p) (clients_completed p) v.
End Player.

(** A client instance.  The key ["effects"] is only ever read with
    [.get("effects", {})], so a dict without it is one whose [effects] is
    empty. *)
Module Client.
Record t := mk {
  id : string;
  name : string;
  nodes : gmap string Node;
  absurdity : Z;
  resistance : Z;
  node : string;
  effects : gmap string Z
}.

Definition set_absurdity (v : Z) (c : t) : t :=
  mk (id c) (name c) (nodes c) v (resistance c) (node c) (effects c).
Definition set_resistance (v : Z) (c : t) : t :=
  mk (id c) (name c) (nodes c) (absurdity c) v (node c) (effects c).
Definition set_node (v : string) (c : t) : t :=
  mk (id c) (name c) (nodes c) (absurdity c) (resistance c) v (effects c).
Definition set_effects (v : gmap string Z) (c : t) : t :=
  mk (id c) (name c) (nodes c) (absurdity c) (resistance c) (node c) v.
End Client.

(** The local variables of an open combat window ([open_debate_modal]). *)
Record Combat := mkCombat {
  player_hp : Z;
  client_hp : Z;
  turn_count : Z
}.

(** The callbacks the handlers schedule with [after] that change the game
    state (those that only redraw are left out). *)
Inductive Callback := AdvanceClientSafe | AfterVictory | AfterDefeat.

(** [(ending, msg, flavor)] *)
Definition Ending : Type := string * string * string.

(** The application object.  [heap] is the store of client instance dicts;
    [clients] and [current_client] hold addresses into it.  [debate] is the
    open combat window, [timers] the pending [after] callbacks, [day_end]
    the ending last shown by [end_day]. *)
Record App := mkApp {
  player : Player.t;
  heap : list Client.t;
  clients : list nat;
  current_client_index : nat;
  current_client : option nat;
  choice_in_progress : bool;
  debate : option Combat;
  timers : list Callback;
  day_end : option Ending
}.

Definition set_player (v : Player.t) (s : App) : App :=
  mkApp v (heap s) (clients s) (current_client_index s) (current_client s)
        (choice_in_progress s) (debate s) (timers s) (day_end s).
Definition set_heap (v : list Client.t) (s : App) : App :=
  mkApp (player s) v (clients s) (current_client_index s) (current_client s)
        (choice_in_progress s) (debate s) (timers s) (day_end s).
Definition set_clients (v : list nat) (s : App) : App :=
  mkApp (player s) (heap s) v (current_client_index s) (current_client s)
        (choice_in_progress s) (debate s) (timers s) (day_end s).
Definition set_current_client_index (v : nat) (s : App) : App :=
  mkApp (player s) (heap s) (clients s) v (current_client s)
        (choice_in_progress s) (debate s) (timers s) (day_end s).
Definition set_current_client (v : option nat) (s : App) : App :=
  mkApp (player s) (heap s) (clients s) (current_client_index s) v
        (choice_in_progress s) (debate s) (timers s) (day_end s).
Definition set_choice_in_progress (v : bool) (s : App) : App :=
  mkApp (player s) (heap s) (clients s) (current_client_index s)
        (current_client s) v (debate s) (timers s) (day_end s).
Definition set_debate (v : option Combat) (s : App) : App :=
  mkApp (player s) (heap s) (clients s) (current_client_index s)
        (current_client s) (choice_in_progress s) v (timers s) (day_end s).
Definition set_timers (v : list Callback) (s : App) : App :=
  mkApp (player s) (heap s) (clients s) (current_client_index s)
        (current_client s) (choice_in_progress s) (debate s) v (day_end s).
Definition set_day_end (v : option Ending) (s : App) : App :=
  mkApp (player s) (heap s) (clients s) (current_client_index s)
        (current_client s) (choice_in_progress s) (debate s) (timers s) v.

(** [self.player["stats"]] *)
Definition stats_of (s : App) : Stats := Player.stats (player s).

Definition set_stats (v : Stats) (s : App) : App :=
  set_player (Player.set_stats v (player s)) s.

(** [self.current_client]: the dict at the current address. *)
Definition cur (s : App) : option Client.t :=
  a ← current_client s; heap s !! a.

(** An in-place update of the [self.current_client] dict. *)
Definition upd_cur (f : Client.t → Client.t) (s : App) : option App :=
  a ← current_client s;
  c ← heap s !! a;
  Some (set_heap (<[a := f c]> (heap s)) s).

(** [after(ms, cb)] *)
Definition after (cb : Callback) (s : App) : App :=
  set_timers (timers s ++ [cb]) s.

(** ** Ending resolver *)

Definition determine_ending (p : Player.t) : Ending :=
  if truthy (Player.flags p) "melted_down" || (Composure (Player.stats p) <=? 0) then
    ("Mental Breakdown",
     "You completely lose it during a session and have to be escorted out by security.",
     "The last thing you remember is screaming about how the clients were right all along. You're banned from practicing therapy and take up professional yodeling instead.")
  else if 3 <=? get0 (Player.flags p) "heated_arguments" then
    ("The Provocateur",
     "Your aggressive therapeutic methods make you famous... for all the wrong reasons.",
     "You start a controversial practice called 'Combat Therapy' where you literally debate clients into submission. It's surprisingly effective, but the ethics board is not amused.")
  else if 2 <=? get0 (Player.flags p) "joined_delusions" then
    ("The Convert",
     "You've embraced your clients' alternative realities so completely that you forget which world is real.",
     "Last seen having philosophical discussions with kitchen appliances while leading a support group for people who believe furniture has feelings. You're very happy, but also completely insane.")
  else if 2 <=? get0 (Player.flags p) "life_changing_breakthroughs" then
    ("The Life Changer",
     "Your sessions don't just help clients - they fundamentally transform lives.",
     "Three clients send you thank-you cards every month. One names their firstborn after you. Another writes a bestselling book about their breakthrough. You frame the good reviews and hide the death threats.")
  else if (4 <=? get0 (Player.flags p) "big_breakthroughs")
          && (5 <=? Composure (Player.stats p)) then
    ("The Zen Master",
     "You've achieved perfect therapeutic balance - wise, calm, and impossibly effective.",
     "Other therapists study your techniques. You mostly just nod a lot and ask really good questions. Somehow this makes you internationally famous. You write a book called 'Therapeutic Nodding: An Art Form.'")
  else if 16 <=? Player.reputation p then
    ("The Celebrity Therapist",
     "Your reputation precedes you. Everyone wants a session with the legendary Dr. " +:+ Player.name p +:+ ".",
     "You get your own TV show called 'Therapy Time' where you help celebrities work through their issues with kitchen appliances. It's surprisingly popular.")
  else if 25 <=? Player.xp p then
    ("The Experienced Professional",
     "Years of dealing with impossible situations have made you unflappable and wise.",
     "You open a training school for new therapists. Your first lesson: 'When a client says their toaster is sentient, just roll with it.' Student evaluations are excellent.")
  else if 15 <=? Patience (Player.stats p) then
    ("The Unbreakable",
     "Nothing phases you anymore. You could mediate a fight between hurricanes.",
     "You become the go-to therapist for the most difficult cases. Your waiting room has a sign: 'If they're too weird for everyone else, they're perfect for Dr. " +:+ Player.name p +:+ ".' Business is booming.")
  else if 15 <=? Empathy (Player.stats p) then
    ("The Heart Whisperer",
     "Your ability to understand and connect with anyone is genuinely supernatural.",
     "You can make emotional breakthroughs with people through simple conversation. Even the office plants seem happier after talking to you. This concerns the janitor.")
  else if 15 <=? Insight (Player.stats p) then
    ("The Mind Reader",
     "Your ability to see through problems and find solutions borders on telepathic.",
     "You solve clients' issues so quickly they sometimes leave confused about why they came. Your sessions are booked solid, mostly by people curious about your mysterious powers.")
  else if 12 <=? Player.reputation p then
    ("The Reliable Professional",
     "You're not famous, but you're good at what you do and people trust you.",
     "You build a steady practice helping normal people with normal problems. It's surprisingly fulfilling, even if no one asks you to communicate with their appliances.")
  else if 8 <=? Composure (Player.stats p) then
    ("The Steady Hand",
     "Whatever chaos your clients bring, you remain calm and focused.",
     "You develop a reputation as the therapist who never loses their cool. This attracts the weirdest cases, but somehow you handle them all with grace and only mild day-drinking.")
  else if 8 <=? Player.reputation p then
    ("The Decent Therapist",
     "You help some people, confuse others, but generally do more good than harm.",
     "You continue working as a therapist, occasionally wondering if that client's toaster really was trying to communicate. Some questions are better left unanswered.")
  else if Player.reputation p <=? 5 then
    ("The Questionable Professional",
     "Your methods are... unconventional. The licensing board keeps a file on you.",
     "You keep your license, barely. Your clients are an interesting mix of people who appreciate your unique approach and those who come to see what all the fuss is about.")
  else
    ("The Quiet Exit",
     "You complete your sessions and go home, wondering what it all means.",
     "You lock your office and walk into the sunset, pondering the nature of sanity and whether you've been helping people or just enabling their delusions. Either way, it's been a day.").

(** The ending's name, the first component of the triple. *)
Definition ending_name (e : Ending) : string := e.1.1.

(** [end_day]: the ending is computed from the player and shown.  What
    follows (a new [start_game], or quitting) is the player's next move. *)
Definition end_day (s : App) : App :=
  set_day_end (Some (determine_ending (player s))) s.

(** ** Loading clients *)

(** The client instance built from a catalog entry for a stage (the body of
    the loops of [start_game] and [advance_client]). *)
Definition instantiate (stage : Stage.t) (c : ClientDef) : Client.t :=
  let location_effects := Stage.bonuses (Stage.location_effects stage) in
  let modified_absurdity := def_absurdity c + get0 location_effects "difficulty_modifier" in
  let modified_resistance := def_resistance c + get0 location_effects "difficulty_modifier" in
  Client.mk (def_id c) (def_name c) (def_nodes c)
            (Z.max 1 modified_absurdity) (Z.max 1 modified_resistance)
            "start" ∅.

(** [for c in self.clients_data: if c["id"] in available_client_ids: ...] *)
Definition roster (stage : Stage.t) : list Client.t :=
  instantiate stage <$>
    filter (λ c, def_id c ∈ Stage.clients stage) build_clients_data.

(** [self.clients = []] followed by the appends: the new instances are
    fresh objects, the old ones stay where they are. *)
Definition load_roster (stage : Stage.t) (s : App) : App :=
  let new := roster stage in
  set_clients (seq (length (heap s)) (length new))
              (set_heap (heap s ++ new) s).

Definition display_client_node (node_key : string) (s : App) : option App :=
  c ← cur s;
  if bool_decide (is_Some (Client.nodes c !! node_key)) then Some s
  else Some (end_day s).

Definition load_current_client (s : App) : option App :=
  if bool_decide (clients s = []) || (length (clients s) <=? current_client_index s)%nat
  then Some (end_day s)
  else
    a ← clients s !! current_client_index s;
    let s := set_current_client (Some a) s in
    c ← cur s;
    display_client_node (Client.node c) s.

(** ** Starting a day *)

Definition new_player (name : string) (cls : Class) : Player.t :=
  let base := base (CLASS_TEMPLATES cls) in
  let inventory : gmap string Z := uses <$> ITEMS in
  let inventory := <["Coffee" := 2]> inventory in
  let inventory := <["Notepad" := 1]> inventory in
  let inventory := <["Meditation Guide" := 1]> inventory in
  let inventory := <["Energy Drink" := 1]> inventory in
  Player.mk name cls (ability (CLASS_TEMPLATES cls))
    (mkStats (Patience base) (Empathy base) (Insight base) (Composure base))
    inventory 0 10 0%nat 0
    (dict [("big_breakthroughs", 0); ("melted_down", 0); ("joined_delusion", 0)]).

Definition start_game (name : string) (cls : Class) (s : App) : option App :=
  let s := set_player (new_player name cls) s in
  current_stage_data ← THERAPY_STAGES !! Player.current_stage_index (player s);
  let s := load_roster current_stage_data s in
  let s := set_current_client_index 0%nat s in
  load_current_client s.

(** The application as [__init__] leaves it, with the player of the first
    [start_game] already in place of [None] (that call overwrites it). *)
Definition boot (name : string) (cls : Class) : App :=
  mkApp (new_player name cls) [] [] 0%nat None false None [] None.

(** The state after the character-creation dialog of a fresh application is
    confirmed. *)
Definition first_day (name : string) (cls : Class) : option App :=
  start_game name cls (boot name cls).

(** ** Session completion *)

Definition level_up (p : Player.t) : Player.t :=
  let st := Player.stats p in
  let st :=
    match Player.class p with
    | Empath => set_Insight (Z.min 15 (Insight st + 1)) st
    | Counselor => set_Empathy (Z.min 15 (Empathy st + 1)) st
    | Burnout => set_Patience (Z.min 15 (Patience st + 1)) st
    end in
  let st := set_Composure (Z.min 15 (Composure st + 1)) st in
  Player.set_stats st p.

(** [flags[k] = flags.get(k, 0) + 1] *)
Definition bump (k : string) (d : gmap string Z) : gmap string Z :=
  <[k := get0 d k + 1]> d.

(** [item_chance], in hundredths made exact. *)
Definition item_chance (c : Client.t) : Q :=
  ((15 # 100) + (if Client.absurdity c <=? 3 then 5 # 100 else 0))%Q.

(** [complete_session], on the player.  [roll] is the value of
    [random.random()], [found] that of [random.choice(list(ITEMS.keys()))]. *)
Definition complete_session_player (roll : Q) (found : string)
    (c : Client.t) (p : Player.t) : Player.t :=
  let base_xp := 3 in
  let effects := Client.effects c in
  let '(bonus_xp, p) :=
    if truthy effects "breakthrough" then
      (3,
       Player.set_flags (bump "life_changing_breakthroughs" (Player.flags p))
         (Player.set_reputation (Player.reputation p + 2) p))
    else if Client.absurdity c <=? 2 then
      (2,
       Player.set_flags (bump "big_breakthroughs" (Player.flags p))
         (Player.set_reputation (Player.reputation p + 1) p))
    else if Client.absurdity c <=? 4 then (1, p)
    else (0, p) in
  let p :=
    if truthy effects "heated_argument" then
      Player.set_reputation (Player.reputation p - 1)
        (Player.set_flags (bump "heated_arguments" (Player.flags p)) p)
    else p in
  let p :=
    if truthy effects "joined_delusion" then
      Player.set_flags (bump "joined_delusions" (Player.flags p)) p
    else p in
  let p :=
    if Client.absurdity c <=? 3 then
      let composure_heal := 1 in
      Player.set_stats
        (set_Composure (Z.min 15 (Composure (Player.stats p) + composure_heal))
                       (Player.stats p)) p
    else p in
  let total_xp := base_xp + bonus_xp in
  let p := Player.set_xp (Player.xp p + total_xp) p in
  let p :=
    if negb (Qle_bool (item_chance c) roll) then
      Player.set_inventory (bump found (Player.inventory p)) p
    else p in
  if (5 <=? Player.xp p) && (Player.xp p mod 5 =? 0) then level_up p else p.

Definition complete_session (roll : Q) (found : string) (s : App) : option App :=
  c ← cur s;
  Some (set_player (complete_session_player roll found c (player s)) s).

(** ** Combat window *)

Definition open_debate_modal (s : App) : option App :=
  c ← cur s;
  let player_hp := Composure (stats_of s) + 5 in
  let client_hp := Client.absurdity c + Client.resistance c in
  let turn_count := 0 in
  Some (set_debate (Some (mkCombat player_hp client_hp turn_count)) s).

(** ** Choice resolution *)

Definition reduce_absurdity (amount : Z) (c : Client.t) : Client.t :=
  Client.set_absurdity (Z.max 0 (Client.absurdity c - amount)) c.

(** [if location_effects.get(key, 0) > 0: absurdity = max(0, absurdity - location_effects[key])] *)
Definition location_bonus (location_effects : gmap string Z) (key : string)
    (c : Client.t) : Client.t :=
  if 0 <? get0 location_effects key
  then reduce_absurdity (get0 location_effects key) c
  else c.

Definition empathetic_words : list string :=
  ["listen"; "validate"; "understand"; "care"; "feel"; "sorry"; "support"].
Definition analytical_words : list string :=
  ["ask"; "explore"; "why"; "what"; "how"; "analyze"; "think"; "explain"].
Definition confrontational_words : list string :=
  ["challenge"; "wrong"; "stupid"; "ridiculous"; "stop"; "enough"; "reality"].
Definition patient_words : list string :=
  ["wait"; "time"; "patient"; "slow"; "breathe"; "calm"; "okay"; "mm-hmm"].
Definition dismissive_words : list string :=
  ["whatever"; "sure"; "right"; "cool story"; "interesting"].
Definition impatient_words : list string :=
  ["ask"; "explore"; "challenge"; "what"; "why"].

(** The [if]/[elif] chain of [on_choose] over the lowered label. *)
Definition category_rule (location_effects : gmap string Z)
    (choice_text : string) (st : Stats) (c : Client.t) : Stats * Client.t :=
  if any_in empathetic_words choice_text then
    let st := set_Empathy (Z.min 15 (Empathy st + 1)) st in
    let empathy_effectiveness := Z.max 1 (Empathy st - 3) in
    let base_reduction := 1 in
    let total_reduction := base_reduction + empathy_effectiveness / 2 in
    let c := reduce_absurdity total_reduction c in
    let c := location_bonus location_effects "empathy_bonus" c in
    let st :=
      if contains "overwhelming" choice_text || (6 <? Client.absurdity c)
      then set_Composure (Z.max 1 (Composure st - 1)) st
      else st in
    (st, c)
  else if any_in analytical_words choice_text then
    let st := set_Insight (Z.min 15 (Insight st + 1)) st in
    let insight_effectiveness := Z.max 1 (Insight st - 3) in
    let base_reduction := 1 in
    let total_reduction := base_reduction + insight_effectiveness / 2 in
    let c := reduce_absurdity total_reduction c in
    let c := location_bonus location_effects "insight_bonus" c in
    let st :=
      if 5 <? Client.resistance c
      then set_Composure (Z.max 1 (Composure st - 1)) st
      else st in
    (st, c)
  else if any_in confrontational_words choice_text then
    let st := set_Patience (Z.max 1 (Patience st - 2)) st in
    let st := set_Composure (Z.max 1 (Composure st - 1)) st in
    (st, c)
  else if any_in patient_words choice_text then
    let st := set_Patience (Z.min 15 (Patience st + 1)) st in
    let patience_effectiveness := Z.max 1 (Patience st - 3) in
    let base_reduction := 1 in
    let total_reduction := base_reduction + patience_effectiveness / 2 in
    let c := reduce_absurdity total_reduction c in
    let c := location_bonus location_effects "patience_bonus" c in
    let st :=
      if 8 <=? Patience st
      then set_Composure (Z.min 15 (Composure st + 1)) st
      else st in
    (st, c)
  else if any_in dismissive_words choice_text then
    let st := set_Composure (Z.min 15 (Composure st + 1)) st in
    let composure_effectiveness := Z.max 1 (Composure st - 4) in
    let base_reduction := 1 in
    let total_reduction := base_reduction + composure_effectiveness / 3 in
    let c := reduce_absurdity total_reduction c in
    let c := location_bonus location_effects "composure_bonus" c in
    let st := set_Empathy (Z.max 1 (Empathy st - 1)) st in
    (st, c)
  else (st, c).

(** The two stat-based complications that follow the chain. *)
Definition complications (choice_text : string) (st : Stats) (c : Client.t)
    : Stats * Client.t :=
  let '(st, c) :=
    if Composure st <=? 2 then
      (set_Composure (Z.max 1 (Composure st - 1)) st,
       Client.set_absurdity (Z.min 12 (Client.absurdity c + 1)) c)
    else (st, c) in
  let c :=
    if Patience st <=? 2 then
      if any_in impatient_words choice_text
      then Client.set_resistance (Z.min 10 (Client.resistance c + 1)) c
      else c
    else c in
  (st, c).

(** The stat and client changes of [on_choose]: the chain, then the
    complications. *)
Definition resolve (location_effects : gmap string Z) (choice_text : string)
    (st : Stats) (c : Client.t) : Stats * Client.t :=
  let '(st, c) := category_rule location_effects choice_text st c in
  complications choice_text st c.

(** [hasattr(self.current_client, "effects")]: the client is a dict, and a
    dict's keys are not attributes; no dict has an attribute of that name. *)
Definition hasattr_effects (c : Client.t) : bool := false.

(** [for key, value in effects.items(): if key not in [...]: stored[key] = value] *)
Definition store_effects (effects stored : gmap string Z) : gmap string Z :=
  filter (λ kv, kv.1 ∉ ["absurdity"; "start_debate"]) effects ∪ stored.

Definition display_client_node_safe (node_key : string) (s : App) : option App :=
  display_client_node node_key (set_choice_in_progress false s).

(** [continue_after_choice].  A choice is a non-empty dict, so the guard
    [if not choice] never returns. *)
Definition continue_after_choice (choice : Choice) (roll : Q) (found : string)
    (s : App) : option App :=
  let proceed (s : App) : option App :=
    match next choice with
    | None =>
        s ← complete_session roll found s;
        Some (after AdvanceClientSafe s)
    | Some next_node =>
        s ← upd_cur (Client.set_node next_node) s;
        display_client_node_safe next_node s
    end in
  match effects choice with
  | Some effects =>
      if bool_decide (effects = ∅) then proceed s
      else
        s ← (if has_key effects "absurdity"
             then upd_cur (λ c, Client.set_absurdity
                                  (Z.max 0 (Client.absurdity c + get0 effects "absurdity")) c) s
             else Some s);
        if truthy effects "start_debate" then open_debate_modal s
        else
          s ← upd_cur (λ c, if hasattr_effects c then c
                            else Client.set_effects ∅ c) s;
          s ← upd_cur (λ c, Client.set_effects
                              (store_effects effects (Client.effects c)) c) s;
          proceed s
  | None => proceed s
  end.

Definition on_choose (choice : Choice) (roll : Q) (found : string) (s : App)
    : option App :=
  current_stage ← THERAPY_STAGES !! Player.current_stage_index (player s);
  let location_effects := Stage.bonuses (Stage.location_effects current_stage) in
  let choice_text := lower (text choice) in
  a ← current_client s;
  c ← heap s !! a;
  let '(st, c) := resolve location_effects choice_text (stats_of s) c in
  let s := set_stats st (set_heap (<[a := c]> (heap s)) s) in
  if reply choice then Some s
  else continue_after_choice choice roll found s.

Definition on_choose_safe (choice : Choice) (roll : Q) (found : string) (s : App)
    : option App :=
  if choice_in_progress s then Some s
  else on_choose choice roll found (set_choice_in_progress true s).

(** ** Progression *)

(** [for stat in self.player["stats"]: stats[stat] = min(15, stats[stat] + d)] *)
Definition all_stats_bonus (d : Z) (st : Stats) : Stats :=
  mkStats (Z.min 15 (Patience st + d)) (Z.min 15 (Empathy st + d))
          (Z.min 15 (Insight st + d)) (Z.min 15 (Composure st + d)).

(** The three optional entries of a [stage_bonus]. *)
Definition apply_stage_bonus (bonus : gmap string Z) (p : Player.t) : Player.t :=
  let p :=
    match bonus !! "all_stats" with
    | Some d => Player.set_stats (all_stats_bonus d (Player.stats p)) p
    | None => p
    end in
  let p :=
    match bonus !! "reputation" with
    | Some d => Player.set_reputation (Player.reputation p + d) p
    | None => p
    end in
  match bonus !! "xp" with
  | Some d => Player.set_xp (Player.xp p + d) p
  | None => p
  end.

(** [for item in special_items: if item in ITEMS: inventory[item] = inventory.get(item, 0) + 1] *)
Definition grant_special_items (special_items : list string)
    (inventory : gmap string Z) : gmap string Z :=
  foldl (λ inv item, if bool_decide (is_Some (ITEMS !! item))
                     then bump item inv else inv)
        inventory special_items.

Definition advance_client (s : App) : option App :=
  let s := set_current_client_index (S (current_client_index s)) s in
  let s := set_player (Player.set_clients_completed
                         (Player.clients_completed (player s) + 1) (player s)) s in
  let finish (s : App) : option App :=
    if (length (clients s) <=? current_client_index s)%nat
    then Some (end_day s)
    else load_current_client s in
  current_stage_data ← THERAPY_STAGES !! Player.current_stage_index (player s);
  if Stage.clients_needed current_stage_data <=? Player.clients_completed (player s) then
    if (Player.current_stage_index (player s) <? length THERAPY_STAGES - 1)%nat then
      let p := player s in
      let p := Player.set_current_stage_index (S (Player.current_stage_index p)) p in
      let p := Player.set_clients_completed 0 p in
      new_stage_data ← THERAPY_STAGES !! Player.current_stage_index p;
      let bonus := Stage.stage_bonus new_stage_data in
      let p := apply_stage_bonus bonus p in
      let location_effects := Stage.location_effects new_stage_data in
      let special_items := Stage.special_items location_effects in
      let p := Player.set_inventory
                 (grant_special_items special_items (Player.inventory p)) p in
      let s := set_player p s in
      let s := load_roster new_stage_data s in
      let s := set_current_client_index 0%nat s in
      load_current_client s
    else finish s
  else finish s.

Definition advance_client_safe (s : App) : option App :=
  advance_client (set_choice_in_progress false s).

(** ** Items *)

Definition apply_item (item_name : string) (s : App) : option App :=
  match cur s with
  | None => Some s
  | Some _ =>
      if get0 (Player.inventory (player s)) item_name <=? 0 then Some s
      else
        count ← Player.inventory (player s) !! item_name;
        let p := Player.set_inventory
                   (<[item_name := count - 1]> (Player.inventory (player s)))
                   (player s) in
        item_info ← ITEMS !! item_name;
        let stat_to_restore := stat item_info in
        let st := Player.stats p in
        let st := set_stat stat_to_restore
                    (Z.min 15 (get_stat stat_to_restore st + 2)) st in
        Some (set_player (Player.set_stats st p) s)
  end.

(** ** Combat turns *)

Inductive Action := empathy | insight | patience | item.

(** [[k for k, v in inventory.items() if v > 0]] *)
Definition available_items (inventory : gmap string Z) : list string :=
  (map_to_list (filter (λ kv, 0 < kv.2) inventory)).*1.

(** [player_action(action_type)].  [dice_roll] and [client_dice] are the two
    [random.randint] draws, [chosen] the [random.choice(available_items)]. *)
Definition player_action (action_type : Action)
    (dice_roll client_dice : Z) (chosen : string) (s : App) : option App :=
  cb ← debate s;
  let turn_count := turn_count cb + 1 in
  let player_hp := player_hp cb in
  let client_hp := client_hp cb in
  c ← cur s;
  r ← match action_type with
      | empathy =>
          let damage := dice_roll + Empathy (stats_of s) / 2 in
          Some (player_hp, client_hp - damage, s)
      | insight =>
          let damage := dice_roll + Insight (stats_of s) / 2 in
          Some (player_hp, client_hp - damage, s)
      | patience =>
          let heal := dice_roll + Patience (stats_of s) / 3 in
          let p := Player.set_flags (<["defended" := 1]> (Player.flags (player s)))
                                    (player s) in
          Some (Z.min 20 (player_hp + heal), client_hp, set_player p s)
      | item =>
          let inventory := Player.inventory (player s) in
          if bool_decide (available_items inventory = []) then
            Some (player_hp, client_hp, s)
          else
            count ← inventory !! chosen;
            let p := Player.set_inventory (<[chosen := count - 1]> inventory)
                                          (player s) in
            let player_hp :=
              if String.eqb chosen "Coffee" then Z.min 20 (player_hp + 3)
              else if String.eqb chosen "Energy Drink" then Z.min 20 (player_hp + 2)
              else player_hp in
            Some (player_hp, client_hp, set_player p s)
      end;
  let '(player_hp, client_hp, s) := r in
  if client_hp <=? 0 then
    let s := set_stats (set_Empathy (Z.min 15 (Empathy (stats_of s) + 1)) (stats_of s)) s in
    s ← upd_cur (Client.set_absurdity 0) s;
    let s := set_debate (Some (mkCombat player_hp client_hp turn_count)) s in
    Some (after AfterVictory s)
  else
    let client_damage := client_dice + Client.absurdity c / 3 in
    let '(client_damage, s) :=
      if truthy (Player.flags (player s)) "defended" then
        (Z.max 1 (client_damage - 2),
         set_player (Player.set_flags (<["defended" := 0]> (Player.flags (player s)))
                                      (player s)) s)
      else (client_damage, s) in
    let player_hp := Z.max 0 (player_hp - client_damage) in
    let s := set_debate (Some (mkCombat player_hp client_hp turn_count)) s in
    if player_hp <=? 0 then
      let s := set_stats (set_Composure (Z.max 1 (Composure (stats_of s) - 1))
                                        (stats_of s)) s in
      Some (after AfterDefeat s)
    else Some s.

(** The body of [after_victory]. *)
Definition after_victory (roll : Q) (found : string) (s : App) : option App :=
  let s := set_debate None s in
  s ← complete_session roll found s;
  advance_client s.

(** The body of [after_defeat]. *)
Definition after_defeat (s : App) : option App :=
  let s := set_debate None s in
  s ← upd_cur (Client.set_node "start") s;
  s ← upd_cur (λ c, Client.set_absurdity (Z.max 1 (Client.absurdity c + 1)) c) s;
  load_current_client s.

(** Running a scheduled callback. *)
Definition run (cb : Callback) (roll : Q) (found : string) (s : App) : option App :=
  match cb with
  | AdvanceClientSafe => advance_client_safe s
  | AfterVictory => after_victory roll found s
  | AfterDefeat => after_defeat s
  end.

(** ** The event loop

    One step is one handler run to completion: a button of the main window,
    a button of the combat window, or a pending [after] callback (a message
    box shown by a handler is taken to return at once).  The order of the
    events is left free: which buttons are on screen, modal grabs and the
    delays of the timers are not tracked, so the relation allows every order
    of handlers the interface allows, and more. *)

(** The choice buttons are built from the nodes of a client instance. *)
Definition offered (s : App) (choice : Choice) : Prop :=
  ∃ (c : Client.t) (k : string) (n : Node),
    c ∈ heap s ∧ Client.nodes c !! k = Some n ∧ choice ∈ choices n.

Definition items_keys : list string := ITEMS_list.*1.

(** The die of the player's action: [randint(1, 4)] for patience,
    [randint(1, 6)] otherwise. *)
Definition dice_sides (action_type : Action) : Z :=
  match action_type with
  | patience => 4
  | _ => 6
  end.

Inductive step (s : App) : App → Prop :=
  | step_start_game name cls s' :
      start_game name cls s = Some s' → step s s'
  | step_choose choice roll found s' :
      offered s choice → found ∈ items_keys →
      on_choose_safe choice roll found s = Some s' → step s s'
  | step_continue choice roll found s' :
      offered s choice → found ∈ items_keys →
      continue_after_choice choice roll found s = Some s' → step s s'
  | step_use_item item_name s' :
      apply_item item_name s = Some s' → step s s'
  | step_debate s' :
      open_debate_modal s = Some s' → step s s'
  | step_action action_type dice_roll client_dice chosen s' :
      1 ≤ dice_roll ≤ dice_sides action_type → 1 ≤ client_dice ≤ 6 →
      (available_items (Player.inventory (player s)) = [] ∨
       chosen ∈ available_items (Player.inventory (player s))) →
      player_action action_type dice_roll client_dice chosen s = Some s' →
      step s s'
  | step_timer i cb roll found s' :
      timers s !! i = Some cb → found ∈ items_keys →
      run cb roll found (set_timers (delete i (timers s)) s) = Some s' →
      step s s'
  | step_end_day :
      step s (end_day s).

Inductive reachable : App → Prop :=
  | reachable_first name cls s :
      first_day name cls = Some s → reachable s
  | reachable_step s s' :
      reachable s → step s s' → reachable s'.

(** ** Choice buttons *)

(** [render_choices]: the choices of the node for which a button is
    created; none while a choice is in progress. *)
Definition render_choices (node : Node) (s : App) : list Choice :=
  if choice_in_progress s then [] else choices node.

(** [on_use_item]: the items whose button in the dialog is enabled; the
    dialog does not open when no item is left. *)
Definition on_use_item (s : App) : list string :=
  if bool_decide (available_items (Player.inventory (player s)) = []) then []
  else filter (λ it_name, 0 < get0 (Player.inventory (player s)) it_name)
              items_keys.

(** ** Stats panel *)

(** [render_stats], without the text lines: the stage whose name is shown,
    the absurdity of the current client if there is one, and a button for
    every item in stock, labelled with its count and its description from
    [ITEMS].  [None] when one of the two subscripts fails. *)
Definition render_stats (s : App)
    : option (Stage.t * option Z * list (string * Z * Item)) :=
  current_stage ← THERAPY_STAGES !! Player.current_stage_index (player s);
  let client_line := Client.absurdity <$> cur s in
  buttons ← mapM (λ kv : string * Z, it_info ← ITEMS !! kv.1;
                                     Some (kv.1, kv.2, it_info))
                 (map_to_list (filter (λ kv, 0 < kv.2)
                                 (Player.inventory (player s))));
  Some (current_stage, client_line, buttons).

(** ** Progress report *)

(** A line of the report of [on_check_progress]: its text is fixed by the
    kind of line, the number is the one written in it. *)
Inductive ProgressLine :=
  | Title | Blank | HighStatTitle
  | LifeChangingLine (n : Z) | BigBreakthroughsLine (n : Z)
  | ReputationLine (n : Z) | ExperienceLine (n : Z)
  | HeatedArgumentsLine (n : Z) | JoinedDelusionsLine (n : Z)
  | PatienceLine (n : Z) | EmpathyLine (n : Z) | InsightLine (n : Z)
  | KeepPlaying.

(** [if cond: progress.append(line)] *)
Definition append_if (cond : bool) (line : ProgressLine)
    (progress : list ProgressLine) : list ProgressLine :=
  if cond then (progress ++ [line])%list else progress.

Definition on_check_progress (p : Player.t) : list ProgressLine :=
  let flags := Player.flags p in
  let st := Player.stats p in
  let progress := [Title; Blank] in
  let progress :=
    append_if (1 <=? get0 flags "life_changing_breakthroughs")
      (LifeChangingLine (get0 flags "life_changing_breakthroughs")) progress in
  let progress :=
    append_if (2 <=? get0 flags "big_breakthroughs")
      (BigBreakthroughsLine (get0 flags "big_breakthroughs")) progress in
  let progress :=
    append_if (10 <=? Player.reputation p)
      (ReputationLine (Player.reputation p)) progress in
  let progress :=
    append_if (15 <=? Player.xp p) (ExperienceLine (Player.xp p)) progress in
  let progress :=
    append_if (1 <=? get0 flags "heated_arguments")
      (HeatedArgumentsLine (get0 flags "heated_arguments")) progress in
  let progress :=
    append_if (1 <=? get0 flags "joined_delusions")
      (JoinedDelusionsLine (get0 flags "joined_delusions")) progress in
  let progress := (progress ++ [Blank])%list in
  let progress := (progress ++ [HighStatTitle])%list in
  let progress :=
    append_if (10 <=? Patience st) (PatienceLine (Patience st)) progress in
  let progress :=
    append_if (10 <=? Empathy st) (EmpathyLine (Empathy st)) progress in
  let progress :=
    append_if (10 <=? Insight st) (InsightLine (Insight st)) progress in
  append_if (length progress <=? 4)%nat KeepPlaying progress.

(** ** Classification of a label

    The branch of the [if]/[elif] chain of [on_choose] that a lowered label
    takes. *)

Inductive Category :=
  | Empathetic | Analytical | Confrontational | Waiting | Dismissive
  | Unclassified.

Definition classify (choice_text : string) : Category :=
  if any_in empathetic_words choice_text then Empathetic
  else if any_in analytical_words choice_text then Analytical
  else if any_in confrontational_words choice_text then Confrontational
  else if any_in patient_words choice_text then Waiting
  else if any_in dismissive_words choice_text then Dismissive
  else Unclassified.

(** * Vocabulary of the properties *)

(** ** Ranges and the invariant of the event loop *)

Definition in_range (v : Z) : Prop := 1 ≤ v ≤ 15.

Definition stats_ok (st : Stats) : Prop :=
  in_range (Patience st) ∧ in_range (Empathy st) ∧
  in_range (Insight st) ∧ in_range (Composure st).

(** A choice that names [heated_argument] among its effects also starts a
    debate. *)
Definition choice_safe (choice : Choice) : Prop :=
  match effects choice with
  | Some eff => is_Some (eff !! "heated_argument") → truthy eff "start_debate" = true
  | None => True
  end.

Global Instance choice_safe_dec choice : Decision (choice_safe choice).
Proof. unfold choice_safe. destruct (effects choice); apply _. Defined.

Definition nodes_ok (nodes : gmap string Node) : Prop :=
  is_Some (nodes !! "start") ∧
  map_Forall (λ _ n, Forall choice_safe (choices n)) nodes.

Definition client_ok (c : Client.t) : Prop :=
  Client.effects c !! "heated_argument" = None ∧
  0 ≤ Client.absurdity c ∧
  nodes_ok (Client.nodes c).

Definition player_ok (p : Player.t) : Prop :=
  stats_ok (Player.stats p) ∧
  Player.flags p !! "melted_down" = Some 0 ∧
  Player.flags p !! "heated_arguments" = None ∧
  10 ≤ Player.reputation p.

Definition day_ok (e : option Ending) : Prop :=
  ∀ x, e = Some x → ending_name x ≠ "Mental Breakdown".

Definition Inv (s : App) : Prop :=
  player_ok (player s) ∧ Forall client_ok (heap s) ∧ day_ok (day_end s).

(** A state on which the handlers can run: the current client and the
    roster name live objects, and the stage index is within the list. *)
Definition wf (s : App) : Prop :=
  is_Some (cur s) ∧
  Forall (λ a, is_Some (heap s !! a)) (clients s) ∧
  (Player.current_stage_index (player s) < length THERAPY_STAGES)%nat.

(** ** Sample states *)

(** The first day of Dr. Finch, for each class. *)
Definition sample_day (cls : Class) : App :=
  default (boot "Dr. Finch" cls) (first_day "Dr. Finch" cls).

(** A combat on the first day: the window is opened on Toaster Guy, and the
    first turn spends the Notepad while the client rolls a 6. *)
Definition sample_debate : App :=
  default (sample_day Empath) (open_debate_modal (sample_day Empath)).



(** ** Statements that the code refutes, and what replaces them *)

(** C4 as the design document words it: whatever the category, a choice
    made at Composure 2 ends at Composure 1 with the client's absurdity one
    above (capped at 12) what the category rule alone gives. *)
Definition low_composure_always_complicates : Prop :=
  ∀ location_effects choice_text st c,
    Composure st = 2 →
    Composure (resolve location_effects choice_text st c).1 = 1 ∧
    Client.absurdity (resolve location_effects choice_text st c).2 =
      Z.min 12 (Client.absurdity (category_rule location_effects choice_text st c).2 + 1).

(** Whether the category rule of a label raises Composure: a Dismissive
    label always does, a Patient one when Patience reaches 8 with its +1. *)
Definition raises_composure (choice_text : string) (st : Stats) : bool :=
  match classify choice_text with
  | Dismissive => true
  | Waiting => 7 <=? Patience st
  | _ => false
  end.

(** C5 as the design document words it: resistance goes up by 1 (capped at
    10) exactly when Patience is at most 2 and the label is classified
    Analytical or Confrontational. *)
Definition impatience_follows_category : Prop :=
  ∀ location_effects choice_text st c,
    Client.resistance (resolve location_effects choice_text st c).2 =
      if (Patience st <=? 2) &&
         match classify choice_text with
         | Analytical | Confrontational => true
         | _ => false
         end
      then Z.min 10 (Client.resistance c + 1)
      else Client.resistance c.

(** ** A second invariant: stock, bounds of the clients, roster and pool *)

(** The inventory holds the four items of [ITEMS], none with a negative
    count. *)
Definition inventory_ok (inventory : gmap string Z) : Prop :=
  dom inventory = dom ITEMS ∧ map_Forall (λ _ v, 0 ≤ v) inventory.

Definition player_sound (p : Player.t) : Prop :=
  0 ≤ Player.xp p ∧
  inventory_ok (Player.inventory p) ∧
  Player.flags p !! "joined_delusions" = None.

(** A choice without a [joined_delusion] effect, whose [next], if any, is a
    node of the graph. *)
Definition choice_wired (nodes : gmap string Node) (choice : Choice) : Prop :=
  match effects choice with
  | Some eff => eff !! "joined_delusion" = None
  | None => True
  end ∧
  match next choice with
  | Some k => is_Some (nodes !! k)
  | None => True
  end.

Global Instance choice_wired_dec nodes choice : Decision (choice_wired nodes choice).
Proof.
  unfold choice_wired. destruct (effects choice), (next choice); apply _.
Defined.

Definition graph_ok (nodes : gmap string Node) : Prop :=
  map_Forall (λ _ n, Forall (choice_wired nodes) (choices n)) nodes.

Definition client_sound (c : Client.t) : Prop :=
  1 ≤ Client.resistance c ≤ 10 ∧
  Client.effects c !! "joined_delusion" = None ∧
  graph_ok (Client.nodes c).

(** The count of completed clients is the index into the roster, and the
    roster has as many clients as its stage needs. *)
Definition roster_sync (s : App) : Prop :=
  Player.clients_completed (player s) = Z.of_nat (current_client_index s) ∧
  ∀ stage, THERAPY_STAGES !! Player.current_stage_index (player s) = Some stage →
           Z.of_nat (length (clients s)) = Stage.clients_needed stage.

(** The sanity pool of an open combat. *)
Definition pool_ok (s : App) : Prop :=
  ∀ cb, debate s = Some cb → 0 ≤ player_hp cb ≤ 20.

Definition Sound (s : App) : Prop :=
  player_sound (player s) ∧ Forall client_sound (heap s) ∧
  roster_sync s ∧ pool_ok s.

(** What a handler may do to the progress of the day: experience and
    reputation do not go down, and the stage is not an earlier one. *)
Definition grows (s s' : App) : Prop :=
  Player.xp (player s) ≤ Player.xp (player s') ∧
  Player.reputation (player s) ≤ Player.reputation (player s') ∧
  (Player.current_stage_index (player s) ≤
     Player.current_stage_index (player s'))%nat.

(** Four endings that no day shows. *)
Definition dead_endings : list string :=
  ["The Provocateur"; "The Convert"; "The Questionable Professional";
   "The Quiet Exit"].

(** What [load_current_client] and [display_client_node] leave alone:
    everything but the current client and the ending. *)
Definition same_session (s s' : App) : Prop :=
  player s' = player s ∧ heap s' = heap s ∧ clients s' = clients s ∧
  current_client_index s' = current_client_index s ∧
  choice_in_progress s' = choice_in_progress s ∧
  debate s' = debate s ∧ timers s' = timers s.

(** The ending on show is the one the handler found, or one it has just
    computed from the player it leaves. *)
Definition day_kept (s s' : App) : Prop :=
  day_end s' = day_end s ∨ day_end s' = Some (determine_ending (player s')).

(** ** More sample states *)

(** The first day once the first client has been dealt with. *)
Definition sample_next : App :=
  default (sample_day Empath) (advance_client (sample_day Empath)).

(** The first day with a choice in progress: "Cool story" has been clicked
    and its Continue button is on show. *)
Definition sample_locked : App :=
  default (sample_day Empath)
    (on_choose_safe (mkChoice "Cool story" (Some "explain") None true)
       0 "Coffee" (sample_day Empath)).

(** A new day started from there. *)
Definition sample_restart : App :=
  default sample_locked (start_game "Dr. Finch" Burnout sample_locked).

(** A combat won at its first turn: Insight 8 and a roll of 6 take the ten
    points of Toaster Guy. *)
Definition sample_victory : App :=
  default sample_debate (player_action insight 6 1 "Coffee" sample_debate).

(** The first day after the choice that starts a heated debate. *)
Definition sample_heated : App :=
  default (sample_day Empath)
    (on_choose_safe
       (mkChoice "That's concerning" None
          (Some (dict [("start_debate", 1); ("heated_argument", 1)])) false)
       0 "Coffee" (sample_day Empath)).

(** * Properties *)

(** ** Ranges *)

Lemma base_stats_ok cls : stats_ok (base (CLASS_TEMPLATES cls)).
Proof. destruct cls; repeat split; simpl; lia. Qed.

Ltac stats_simpl :=
  cbn [fst snd Patience Empathy Insight Composure
       set_Patience set_Empathy set_Insight set_Composure
       get_stat set_stat Player.stats Player.set_stats
       Player.set_flags Player.set_inventory Player.set_reputation
       Player.set_xp Player.set_clients_completed
       Player.set_current_stage_index
       player set_player set_stats set_heap set_clients set_debate set_timers
       set_current_client set_current_client_index set_choice_in_progress
       set_day_end] in *.

Ltac stats_tac :=
  unfold stats_ok, in_range, stats_of in *;
  repeat (stats_simpl; case_match; simplify_eq); stats_simpl; lia.

Lemma category_rule_stats le txt st c :
  stats_ok st → stats_ok (category_rule le txt st c).1.
Proof. intros H. unfold category_rule. stats_tac. Qed.

Lemma complications_stats txt st c :
  stats_ok st → stats_ok (complications txt st c).1.
Proof. intros H. unfold complications. stats_tac. Qed.

Lemma resolve_stats le txt st c :
  stats_ok st → stats_ok (resolve le txt st c).1.
Proof.
  intros H. unfold resolve.
  destruct (category_rule le txt st c) as [st1 c1] eqn:E.
  apply complications_stats.
  change st1 with (st1, c1).1. rewrite <- E. by apply category_rule_stats.
Qed.

Lemma level_up_stats p :
  stats_ok (Player.stats p) → stats_ok (Player.stats (level_up p)).
Proof. intros H. unfold level_up. destruct (Player.class p); stats_tac. Qed.

Lemma all_stats_bonus_ok d st :
  0 ≤ d → stats_ok st → stats_ok (all_stats_bonus d st).
Proof. intros Hd H. unfold all_stats_bonus. stats_tac. Qed.

Lemma set_stat_ok k st :
  stats_ok st → stats_ok (set_stat k (Z.min 15 (get_stat k st + 2)) st).
Proof. intros H. destruct k; stats_tac. Qed.

(** ** The invariant of the event loop *)

(** *** The catalog *)

Lemma catalog_nodes_ok : Forall (λ d, nodes_ok (def_nodes d)) build_clients_data.
Proof. apply (bool_decide_unpack _). by vm_compute. Qed.

Lemma stage_bonus_nonneg :
  Forall (λ st, 0 ≤ get0 (Stage.stage_bonus st) "all_stats" ∧
                0 ≤ get0 (Stage.stage_bonus st) "reputation")
         THERAPY_STAGES.
Proof. apply (bool_decide_unpack _). by vm_compute. Qed.

Lemma roster_ok stage : Forall client_ok (roster stage).
Proof.
  unfold roster. apply Forall_fmap, Forall_forall. intros d Hd.
  apply list_elem_of_filter in Hd as [_ Hd].
  pose proof (proj1 (Forall_forall _ _) catalog_nodes_ok d Hd) as Hn.
  unfold instantiate, client_ok; simpl. split_and!; [done | lia | done].
Qed.

(** *** Setters that do not touch the invariant *)

Lemma Inv_set_timers v s : Inv s → Inv (set_timers v s).
Proof. done. Qed.
Lemma Inv_set_debate v s : Inv s → Inv (set_debate v s).
Proof. done. Qed.
Lemma Inv_set_choice_in_progress v s : Inv s → Inv (set_choice_in_progress v s).
Proof. done. Qed.
Lemma Inv_set_current_client v s : Inv s → Inv (set_current_client v s).
Proof. done. Qed.
Lemma Inv_set_current_client_index v s : Inv s → Inv (set_current_client_index v s).
Proof. done. Qed.
Lemma Inv_set_clients v s : Inv s → Inv (set_clients v s).
Proof. done. Qed.
Lemma Inv_after cb s : Inv s → Inv (after cb s).
Proof. done. Qed.

Lemma Inv_set_player p s : player_ok p → Inv s → Inv (set_player p s).
Proof. intros Hp (_ & Hh & Hd). by split_and!. Qed.

Lemma Inv_set_stats st s : stats_ok st → Inv s → Inv (set_stats st s).
Proof.
  intros Hst Hs. apply Inv_set_player; [|done].
  destruct Hs as ((_ & ? & ? & ?) & _). by split_and!.
Qed.

Lemma Inv_cur s c : Inv s → cur s = Some c → client_ok c.
Proof.
  intros (_ & Hh & _) Hc. unfold cur in Hc.
  destruct (current_client s) as [a|]; simplify_eq/=.
  eapply Forall_lookup_1; eauto.
Qed.

Lemma Inv_upd_cur f s s' :
  (∀ c, client_ok c → client_ok (f c)) →
  Inv s → upd_cur f s = Some s' → Inv s'.
Proof.
  intros Hf (Hp & Hh & Hd) Hu. unfold upd_cur in Hu.
  destruct (current_client s) as [a|]; simplify_eq/=.
  destruct (heap s !! a) as [c|] eqn:Ha; simplify_eq/=.
  split_and!; [done | | done]. simpl.
  apply Forall_insert; [done|]. apply Hf. eapply Forall_lookup_1; eauto.
Qed.

(** *** The ending of a sound player *)

Lemma determine_ending_not_breakdown p :
  player_ok p → ending_name (determine_ending p) ≠ "Mental Breakdown".
Proof.
  intros ((_ & _ & _ & Hc) & Hm & _ & _). unfold in_range in Hc.
  unfold determine_ending, truthy. rewrite Hm.
  replace (Composure (Player.stats p) <=? 0) with false by lia.
  cbn [negb Z.eqb orb].
  repeat case_match; by cbv.
Qed.

Lemma Inv_end_day s : Inv s → Inv (end_day s).
Proof.
  intros (Hp & Hh & Hd). split_and!; [done..|].
  intros x [= <-]. by apply determine_ending_not_breakdown.
Qed.

Lemma Inv_display_client_node k s s' :
  Inv s → display_client_node k s = Some s' → Inv s'.
Proof.
  intros Hs H. unfold display_client_node in H.
  destruct (cur s); simplify_eq/=.
  case_match; simplify_eq; [done | by apply Inv_end_day].
Qed.

Lemma Inv_load_current_client s s' :
  Inv s → load_current_client s = Some s' → Inv s'.
Proof.
  intros Hs H. unfold load_current_client in H.
  case_match; simplify_eq; [by apply Inv_end_day|].
  destruct (clients s !! current_client_index s) as [a|]; simplify_eq/=.
  destruct (cur (set_current_client (Some a) s)); simplify_eq/=.
  eapply Inv_display_client_node; [|done]. by apply Inv_set_current_client.
Qed.

Lemma Inv_load_roster stage s : Inv s → Inv (load_roster stage s).
Proof.
  intros (Hp & Hh & Hd). split_and!; [done | | done]. simpl.
  apply Forall_app. split; [done | apply roster_ok].
Qed.

(** *** Handlers *)

Lemma new_player_ok name cls : player_ok (new_player name cls).
Proof.
  unfold player_ok, new_player. cbn [Player.stats Player.flags Player.reputation].
  split_and!; [| done | done | lia].
  pose proof (base_stats_ok cls) as H. by destruct (base (CLASS_TEMPLATES cls)).
Qed.

Lemma Inv_start_game name cls s s' :
  Inv s → start_game name cls s = Some s' → Inv s'.
Proof.
  intros Hs H. unfold start_game in H.
  destruct (THERAPY_STAGES !! _) as [st|]; simplify_eq/=.
  eapply Inv_load_current_client; [|done].
  apply Inv_set_current_client_index, Inv_load_roster, Inv_set_player; [|done].
  apply new_player_ok.
Qed.

Lemma first_day_Inv name cls s : first_day name cls = Some s → Inv s.
Proof.
  intros H. apply (Inv_start_game name cls (boot name cls)); [|exact H].
  split_and!; [apply new_player_ok | constructor | done].
Qed.

Lemma level_up_ok p : player_ok p → player_ok (level_up p).
Proof.
  intros (Hst & ? & ? & ?). split_and!; [by apply level_up_stats | done..].
Qed.

Lemma truthy_None (d : gmap string Z) k : d !! k = None → truthy d k = false.
Proof. unfold truthy. by intros ->. Qed.

Ltac player_simpl :=
  cbn [fst snd Player.stats Player.flags Player.reputation Player.xp
       Player.inventory Player.clients_completed Player.current_stage_index
       Player.set_flags Player.set_reputation Player.set_xp
       Player.set_inventory Player.set_stats Player.set_clients_completed
       Player.set_current_stage_index] in *.

Ltac player_tac :=
  unfold player_ok, bump in *; player_simpl; destruct_and?; split_and?;
  try done; try lia; try (by simplify_map_eq).

Lemma complete_session_player_ok roll found c p :
  client_ok c → player_ok p →
  player_ok (complete_session_player roll found c p).
Proof.
  intros (Hh & _ & _) (Hst & Hm & Ha & Hr).
  unfold complete_session_player.
  rewrite (truthy_None _ _ Hh).
  set (r := if truthy (Client.effects c) "breakthrough" then _ else _).
  assert (player_ok r.2) as Hr2.
  { subst r. repeat case_match; player_tac. }
  destruct r as [bonus_xp p1]. simpl in Hr2.
  set (p2 := if truthy (Client.effects c) "joined_delusion" then _ else p1).
  assert (player_ok p2) as Hp2.
  { subst p2. case_match; player_tac. }
  set (p3 := if Client.absurdity c <=? 3 then _ else p2).
  assert (player_ok p3) as Hp3.
  { subst p3. case_match; [|done]. player_tac. stats_tac. }
  set (p4 := Player.set_xp _ p3).
  assert (player_ok p4) as Hp4 by done.
  set (p5 := if negb _ then _ else p4).
  assert (player_ok p5) as Hp5.
  { subst p5. case_match; done. }
  case_match; [by apply level_up_ok | done].
Qed.

Lemma Inv_complete_session roll found s s' :
  Inv s → complete_session roll found s = Some s' → Inv s'.
Proof.
  intros Hs H. unfold complete_session in H.
  destruct (cur s) as [c|] eqn:Hc; simplify_eq/=.
  apply Inv_set_player; [|done].
  apply complete_session_player_ok; [by eapply Inv_cur | by destruct Hs].
Qed.

Lemma Inv_open_debate_modal s s' :
  Inv s → open_debate_modal s = Some s' → Inv s'.
Proof.
  intros Hs H. unfold open_debate_modal in H.
  destruct (cur s); simplify_eq/=. by apply Inv_set_debate.
Qed.

Lemma store_effects_heated (eff : gmap string Z) :
  eff !! "heated_argument" = None →
  store_effects eff ∅ !! "heated_argument" = None.
Proof.
  intros H. unfold store_effects. rewrite lookup_union_None. split; [|done].
  apply map_lookup_filter_None. left. done.
Qed.

Lemma Inv_continue_after_choice choice roll found s s' :
  Inv s → choice_safe choice →
  continue_after_choice choice roll found s = Some s' → Inv s'.
Proof.
  intros Hs Hsafe H. unfold continue_after_choice in H.
  assert (∀ s0 s1, Inv s0 →
    match next choice with
    | Some next_node =>
        upd_cur (Client.set_node next_node) s0 ≫= display_client_node_safe next_node
    | None =>
        complete_session roll found s0 ≫= λ s2, Some (after AdvanceClientSafe s2)
    end = Some s1 → Inv s1) as Hproceed.
  { intros s0 s1 H0 H1. destruct (next choice) as [n|].
    - destruct (upd_cur _ s0) as [s2|] eqn:E; simplify_eq/=.
      eapply Inv_display_client_node; [|done].
      apply Inv_set_choice_in_progress.
      eapply Inv_upd_cur; [|done..]. intros c Hc. exact Hc.
    - destruct (complete_session roll found s0) as [s2|] eqn:E; simplify_eq/=.
      apply Inv_after. by eapply Inv_complete_session. }
  unfold choice_safe in Hsafe.
  destruct (effects choice) as [eff|]; [|by eapply Hproceed].
  case_bool_decide; [by eapply Hproceed|].
  destruct (if has_key eff "absurdity" then _ else _) as [s1|] eqn:E1;
    simplify_eq/=.
  assert (Inv s1) as Hs1.
  { destruct (has_key eff "absurdity"); simplify_eq; [|done].
    eapply Inv_upd_cur; [|done..].
    intros c (? & ? & ?). split_and!; [done | simpl; lia | done]. }
  destruct (truthy eff "start_debate") eqn:Hd;
    [by eapply Inv_open_debate_modal|].
  destruct (upd_cur _ s1) as [s2|] eqn:E2; simplify_eq/=.
  destruct (upd_cur _ s2) as [s3|] eqn:E3; simplify_eq/=.
  eapply Hproceed; [|done].
  assert (eff !! "heated_argument" = None) as Hnone.
  { destruct (eff !! "heated_argument") eqn:Hh; [|done].
    discriminate Hsafe. by eexists. }
  unfold upd_cur in E2, E3.
  destruct (current_client s1) as [a|] eqn:Ea; simplify_eq/=.
  destruct (heap s1 !! a) as [c|] eqn:Hc; simplify_eq/=.
  rewrite Ea in E3. simpl in E3.
  rewrite list_lookup_insert_eq in E3 by (by eapply lookup_lt_Some).
  simplify_eq/=.
  destruct Hs1 as (Hp & Hh & Hday).
  split_and!; [done | | done]. simpl.
  pose proof (Forall_lookup_1 _ _ _ _ Hh Hc) as (? & ? & ?).
  apply Forall_insert; [apply Forall_insert; [done|] |].
  - by split_and!.
  - split_and!; [| done..]. simpl. by apply store_effects_heated.
Qed.

Ltac client_simpl :=
  cbn [fst snd Client.effects Client.absurdity Client.nodes Client.resistance
       Client.node Client.set_absurdity Client.set_resistance Client.set_node
       Client.set_effects] in *.

Ltac client_tac :=
  unfold client_ok in *;
  repeat (client_simpl; case_match; simplify_eq); client_simpl;
  destruct_and?; split_and?; try done; try lia.

Lemma category_rule_client le txt st c :
  client_ok c → client_ok (category_rule le txt st c).2.
Proof.
  intros H. unfold category_rule, location_bonus, reduce_absurdity. client_tac.
Qed.

Lemma complications_client txt st c :
  client_ok c → client_ok (complications txt st c).2.
Proof. intros H. unfold complications. client_tac. Qed.

Lemma resolve_client le txt st c :
  client_ok c → client_ok (resolve le txt st c).2.
Proof.
  intros H. unfold resolve.
  destruct (category_rule le txt st c) as [st1 c1] eqn:E.
  apply complications_client.
  change c1 with (st1, c1).2. rewrite <- E. by apply category_rule_client.
Qed.

Lemma Inv_on_choose choice roll found s s' :
  Inv s → choice_safe choice →
  on_choose choice roll found s = Some s' → Inv s'.
Proof.
  intros Hs Hsafe H. unfold on_choose in H.
  destruct (THERAPY_STAGES !! _) as [stage|]; simplify_eq/=.
  destruct (current_client s) as [a|] eqn:Ea; simplify_eq/=.
  destruct (heap s !! a) as [c|] eqn:Hc; simplify_eq/=.
  pose proof (resolve_stats (Stage.bonuses (Stage.location_effects stage))
                (lower (text choice)) (stats_of s) c) as Hst.
  pose proof (resolve_client (Stage.bonuses (Stage.location_effects stage))
                (lower (text choice)) (stats_of s) c) as Hcl.
  destruct (resolve _ _ _ _) as [st1 c1]. simpl in Hst, Hcl.
  destruct Hs as (Hp & Hh & Hd).
  assert (Inv (set_stats st1 (set_heap (<[a:=c1]> (heap s)) s))) as Hs1.
  { apply Inv_set_stats; [apply Hst, Hp|].
    split_and!; [done | | done]. simpl.
    apply Forall_insert; [done|]. apply Hcl. by eapply Forall_lookup_1. }
  destruct (reply choice); simplify_eq; [done|].
  by eapply Inv_continue_after_choice.
Qed.

Lemma Inv_on_choose_safe choice roll found s s' :
  Inv s → choice_safe choice →
  on_choose_safe choice roll found s = Some s' → Inv s'.
Proof.
  intros Hs Hsafe H. unfold on_choose_safe in H.
  destruct (choice_in_progress s); simplify_eq; [done|].
  eapply Inv_on_choose; [| done..]. by apply Inv_set_choice_in_progress.
Qed.

Lemma bump_other k k' (d : gmap string Z) : k ≠ k' → bump k d !! k' = d !! k'.
Proof. intros. unfold bump. by rewrite lookup_insert_ne. Qed.

Lemma grant_special_items_other items (inv : gmap string Z) k :
  k ∉ items → grant_special_items items inv !! k = inv !! k.
Proof.
  unfold grant_special_items. revert inv.
  induction items as [|i items IH]; intros inv Hk; [done|].
  apply not_elem_of_cons in Hk as [Hne Hk]. simpl. rewrite IH by done.
  case_bool_decide; [|done]. by apply bump_other.
Qed.

Lemma apply_stage_bonus_ok stage p :
  stage ∈ THERAPY_STAGES → player_ok p →
  player_ok (apply_stage_bonus (Stage.stage_bonus stage) p).
Proof.
  intros Hin Hp.
  pose proof (proj1 (Forall_forall _ _) stage_bonus_nonneg stage Hin) as [Ha Hr].
  unfold apply_stage_bonus, get0 in *.
  destruct (Stage.stage_bonus stage !! "all_stats") as [d|];
    destruct (Stage.stage_bonus stage !! "reputation") as [r|];
    destruct (Stage.stage_bonus stage !! "xp") as [x|];
    simpl in Ha, Hr; player_tac; by apply all_stats_bonus_ok.
Qed.

Lemma Inv_advance_client s s' :
  Inv s → advance_client s = Some s' → Inv s'.
Proof.
  intros Hs H. unfold advance_client in H.
  set (s0 := set_player _ (set_current_client_index _ s)) in H.
  assert (Inv s0) as Hs0.
  { apply Inv_set_player; [by destruct Hs as [? _]|].
    by apply Inv_set_current_client_index. }
  clearbody s0.
  assert (∀ s1, (if (length (clients s0) <=? current_client_index s0)%nat
                 then Some (end_day s0) else load_current_client s0) = Some s1 →
                Inv s1) as Hfin.
  { intros s1 H1. case_match; simplify_eq; [by apply Inv_end_day|].
    by eapply Inv_load_current_client. }
  destruct (THERAPY_STAGES !! Player.current_stage_index (player s0))
    as [stage|]; cbn [mbind option_bind] in H; [|done].
  destruct (Stage.clients_needed stage <=? _); [|by apply Hfin].
  destruct (_ <? _)%nat; [|by apply Hfin].
  cbn [Player.current_stage_index Player.set_clients_completed
       Player.set_current_stage_index] in H.
  destruct (THERAPY_STAGES !! S _) as [new|] eqn:Hnew;
    cbn [mbind option_bind] in H; [|done].
  eapply Inv_load_current_client; [|done].
  apply Inv_set_current_client_index, Inv_load_roster, Inv_set_player; [|done].
  assert (player_ok (apply_stage_bonus (Stage.stage_bonus new)
            (Player.set_clients_completed 0
               (Player.set_current_stage_index
                  (S (Player.current_stage_index (player s0))) (player s0)))))
    as Hb.
  { apply apply_stage_bonus_ok; [by eapply list_elem_of_lookup_2|].
    by destruct Hs0 as [? _]. }
  by destruct Hb as (? & ? & ? & ?).
Qed.

Lemma Inv_apply_item item_name s s' :
  Inv s → apply_item item_name s = Some s' → Inv s'.
Proof.
  intros Hs H. unfold apply_item in H.
  destruct (cur s); simplify_eq; [|done].
  case_match; simplify_eq; [done|].
  destruct (Player.inventory (player s) !! item_name); simplify_eq/=.
  destruct (ITEMS !! item_name) as [info|]; simplify_eq/=.
  apply Inv_set_player; [|done].
  destruct Hs as ((? & ? & ? & ?) & _). split_and!; try done.
  by apply set_stat_ok.
Qed.

Lemma Inv_player_action action_type dice_roll client_dice chosen s s' :
  Inv s → player_action action_type dice_roll client_dice chosen s = Some s' →
  Inv s'.
Proof.
  intros Hs H. unfold player_action in H.
  destruct (debate s) as [cb|]; cbn [mbind option_bind] in H; [|done].
  destruct (cur s) as [c|]; cbn [mbind option_bind] in H; [|done].
  destruct (match action_type with empathy => _ | _ => _ end)
    as [[[hp chp] s1]|] eqn:Hr; cbn [mbind option_bind] in H; [|done].
  assert (Inv s1) as Hs1.
  { destruct action_type; simplify_eq; try done.
    - apply Inv_set_player; [|done]. destruct Hs as [Hp _]. player_tac.
    - case_bool_decide; simplify_eq; [done|].
      destruct (Player.inventory (player s) !! chosen);
        cbn [mbind option_bind] in Hr; simplify_eq.
      apply Inv_set_player; [|done]. by destruct Hs as [Hp _]. }
  clear Hr. destruct (chp <=? 0).
  - destruct (upd_cur _ _) as [s2|] eqn:Hu; cbn [mbind option_bind] in H;
      simplify_eq.
    apply Inv_after, Inv_set_debate. eapply Inv_upd_cur; [| |done].
    + intros c0 (? & ? & ?). by split_and!.
    + apply Inv_set_stats; [|done]. destruct Hs1 as ((? & _) & _). stats_tac.
  - destruct (truthy _ "defended").
    + case_match; simplify_eq.
      * apply Inv_after, Inv_set_stats.
        { destruct Hs1 as ((? & _) & _). stats_tac. }
        apply Inv_set_debate, Inv_set_player; [|done].
        destruct Hs1 as [Hp _]. player_tac.
      * apply Inv_set_debate, Inv_set_player; [|done].
        destruct Hs1 as [Hp _]. player_tac.
    + case_match; simplify_eq.
      * apply Inv_after, Inv_set_stats; [|by apply Inv_set_debate].
        destruct Hs1 as ((? & _) & _). stats_tac.
      * by apply Inv_set_debate.
Qed.

Lemma Inv_after_victory roll found s s' :
  Inv s → after_victory roll found s = Some s' → Inv s'.
Proof.
  intros Hs H. unfold after_victory in H.
  destruct (complete_session _ _ _) as [s1|] eqn:Hc;
    cbn [mbind option_bind] in H; [|done].
  eapply Inv_advance_client; [|done].
  eapply Inv_complete_session; [|done]. by apply Inv_set_debate.
Qed.

Lemma Inv_after_defeat s s' :
  Inv s → after_defeat s = Some s' → Inv s'.
Proof.
  intros Hs H. unfold after_defeat in H.
  destruct (upd_cur _ _) as [s1|] eqn:H1; cbn [mbind option_bind] in H; [|done].
  destruct (upd_cur _ s1) as [s2|] eqn:H2; cbn [mbind option_bind] in H; [|done].
  eapply Inv_load_current_client; [|done].
  eapply Inv_upd_cur; [| |done].
  { intros c Hc. client_tac. }
  eapply Inv_upd_cur; [| |done].
  { intros c Hc. exact Hc. }
  by apply Inv_set_debate.
Qed.

Lemma Inv_run cb roll found s s' :
  Inv s → run cb roll found s = Some s' → Inv s'.
Proof.
  intros Hs H. destruct cb; simpl in H.
  - eapply Inv_advance_client; [|done]. by apply Inv_set_choice_in_progress.
  - by eapply Inv_after_victory.
  - by eapply Inv_after_defeat.
Qed.

Lemma offered_safe s choice : Inv s → offered s choice → choice_safe choice.
Proof.
  intros (_ & Hh & _) (c & k & n & Hc & Hk & Hn).
  destruct (proj1 (Forall_forall _ _) Hh c Hc) as (_ & _ & _ & Hall).
  pose proof (Hall k n Hk) as Hchoices. simpl in Hchoices.
  by eapply Forall_forall.
Qed.

Lemma Inv_step s s' : Inv s → step s s' → Inv s'.
Proof.
  intros Hs [name cls s1 H | choice roll found s1 Ho _ H
             | choice roll found s1 Ho _ H | item_name s1 H | s1 H
             | action_type dice_roll client_dice chosen s1 _ _ _ H
             | i cb roll found s1 _ _ H | ].
  - exact (Inv_start_game _ _ _ _ Hs H).
  - exact (Inv_on_choose_safe _ _ _ _ _ Hs (offered_safe _ _ Hs Ho) H).
  - exact (Inv_continue_after_choice _ _ _ _ _ Hs (offered_safe _ _ Hs Ho) H).
  - exact (Inv_apply_item _ _ _ Hs H).
  - exact (Inv_open_debate_modal _ _ Hs H).
  - exact (Inv_player_action _ _ _ _ _ _ Hs H).
  - exact (Inv_run _ _ _ _ _ (Inv_set_timers _ _ Hs) H).
  - exact (Inv_end_day _ Hs).
Qed.

Lemma reachable_Inv s : reachable s → Inv s.
Proof.
  induction 1 as [name cls s H | s s' _ IH Hstep].
  - by eapply first_day_Inv.
  - by eapply Inv_step.
Qed.

(** ** Handlers are defined on reachable states *)

Lemma wf_upd_cur f s :
  wf s → ∃ s', upd_cur f s = Some s' ∧ wf s' ∧ player s' = player s.
Proof.
  intros (Hc & Hcl & Hi). unfold upd_cur, cur in *.
  destruct (current_client s) as [a|] eqn:Ea; [|by destruct Hc].
  cbn [mbind option_bind] in *. destruct Hc as [c Hc]. rewrite Hc.
  cbn [mbind option_bind]. eexists. split; [done|].
  pose proof (lookup_lt_Some _ _ _ Hc) as Hlt.
  split; [|done]. split_and!; [| | done].
  - unfold cur. cbn [current_client heap set_heap]. rewrite Ea.
    cbn [mbind option_bind]. rewrite list_lookup_insert_eq by done. by eexists.
  - cbn [clients heap set_heap]. eapply Forall_impl; [exact Hcl|].
    intros a' Ha'. apply lookup_lt_is_Some. rewrite length_insert.
    by apply lookup_lt_is_Some.
Qed.

Lemma wf_end_day s : wf s → wf (end_day s).
Proof. done. Qed.

Lemma wf_display_client_node k s :
  wf s → ∃ s', display_client_node k s = Some s' ∧ wf s' ∧ player s' = player s.
Proof.
  intros Hw. unfold display_client_node.
  destruct Hw as ([c Hc] & Hw). rewrite Hc. cbn [mbind option_bind].
  case_bool_decide; eexists; (split; [done|]); split; try done.
  all: by split; [eexists|].
Qed.

Lemma wf_load_current_client s :
  Forall (λ a, is_Some (heap s !! a)) (clients s) →
  (Player.current_stage_index (player s) < length THERAPY_STAGES)%nat →
  is_Some (cur s) ∨ (current_client_index s < length (clients s))%nat →
  ∃ s', load_current_client s = Some s' ∧ wf s' ∧ player s' = player s.
Proof.
  intros Hcl Hi Hor. unfold load_current_client.
  destruct (bool_decide (clients s = []) ||
            (length (clients s) <=? current_client_index s)%nat) eqn:Hb.
  - eexists. split; [done|]. split; [|done].
    destruct Hor as [Hc|Hlt]; [by split_and!|].
    apply orb_true_iff in Hb as [Hb|Hb].
    + apply bool_decide_eq_true_1 in Hb. rewrite Hb in Hlt. simpl in Hlt. lia.
    + apply Nat.leb_le in Hb. lia.
  - apply orb_false_iff in Hb as [_ Hb]. apply Nat.leb_gt in Hb.
    destruct (lookup_lt_is_Some_2 _ _ Hb) as [a Ha]. rewrite Ha.
    cbn [mbind option_bind].
    pose proof (proj1 (Forall_forall _ _) Hcl a) as Hin.
    destruct Hin as [c Hc]; [by eapply list_elem_of_lookup_2|].
    assert (wf (set_current_client (Some a) s)) as Hw.
    { split_and!; [|done..]. unfold cur. cbn. rewrite Hc. by eexists. }
    assert (cur (set_current_client (Some a) s) = Some c) as -> .
    { unfold cur. cbn. by rewrite Hc. }
    cbn [mbind option_bind].
    destruct (wf_display_client_node (Client.node c) _ Hw) as (s' & H1 & H2 & H3).
    by exists s'.
Qed.

Lemma wf_set_player p s :
  Player.current_stage_index p = Player.current_stage_index (player s) →
  wf s → wf (set_player p s).
Proof. intros Hp (? & ? & ?). split_and!; [done..|]. cbn [player set_player]. by rewrite Hp. Qed.

Lemma load_roster_clients stage s :
  Forall (λ a, is_Some (heap (load_roster stage s) !! a))
         (clients (load_roster stage s)).
Proof.
  unfold load_roster. cbn [heap clients set_clients set_heap].
  apply Forall_forall. intros a Ha. apply elem_of_seq in Ha.
  apply lookup_lt_is_Some. rewrite length_app. lia.
Qed.

Lemma wf_start_game name cls s :
  ∃ s', start_game name cls s = Some s' ∧ wf s'.
Proof.
  unfold start_game. cbn [player set_player new_player Player.current_stage_index].
  cbn [lookup list_lookup THERAPY_STAGES mbind option_bind].
  set (stage := Stage.mk "Community Center" _ _ _ _ _).
  destruct (wf_load_current_client
              (set_current_client_index 0
                 (load_roster stage (set_player (new_player name cls) s))))
    as (s' & H1 & H2 & _).
  - apply (load_roster_clients stage (set_player (new_player name cls) s)).
  - cbn. lia.
  - right. unfold load_roster.
    cbn [current_client_index clients set_current_client_index set_clients].
    rewrite length_seq.
    assert (roster stage ≠ []) as Hne by (by vm_compute).
    destruct (roster stage); [done|]. simpl. lia.
  - by exists s'.
Qed.

Lemma first_day_defined name cls : ∃ s, first_day name cls = Some s ∧ wf s.
Proof. exact (wf_start_game name cls (boot name cls)). Qed.

Lemma complete_session_player_stage roll found c p :
  Player.current_stage_index (complete_session_player roll found c p) =
  Player.current_stage_index p.
Proof.
  unfold complete_session_player.
  set (kept := λ q : Player.t,
         Player.current_stage_index q = Player.current_stage_index p).
  set (r := if truthy (Client.effects c) "breakthrough" then _ else _).
  assert (kept r.2) as Hr by (subst r kept; by repeat case_match).
  destruct r as [bonus_xp p1]. simpl in Hr.
  set (p2 := if truthy (Client.effects c) "heated_argument" then _ else p1).
  assert (kept p2) as Hp2 by (subst p2; by case_match).
  set (p3 := if truthy (Client.effects c) "joined_delusion" then _ else p2).
  assert (kept p3) as Hp3 by (subst p3; by case_match).
  set (p4 := if Client.absurdity c <=? 3 then _ else p3).
  assert (kept p4) as Hp4 by (subst p4; by case_match).
  set (p5 := Player.set_xp _ p4).
  assert (kept p5) as Hp5 by done.
  set (p6 := if negb _ then _ else p5).
  assert (kept p6) as Hp6 by (subst p6; by case_match).
  by case_match.
Qed.

Lemma wf_complete_session roll found s :
  wf s → ∃ s', complete_session roll found s = Some s' ∧ wf s'.
Proof.
  intros Hw. unfold complete_session. destruct Hw as ([c Hc] & Hw).
  rewrite Hc. cbn [mbind option_bind]. eexists. split; [done|].
  apply wf_set_player; [apply complete_session_player_stage|].
  by split; [eexists|].
Qed.

Lemma wf_open_debate_modal s :
  wf s → ∃ s', open_debate_modal s = Some s' ∧ wf s'.
Proof.
  intros Hw. unfold open_debate_modal. destruct Hw as ([c Hc] & Hw).
  rewrite Hc. cbn [mbind option_bind]. eexists. split; [done|].
  by split; [eexists|].
Qed.

Lemma wf_continue_after_choice choice roll found s :
  wf s → ∃ s', continue_after_choice choice roll found s = Some s' ∧ wf s'.
Proof.
  intros Hw. unfold continue_after_choice.
  assert (∀ s0, wf s0 → ∃ s1,
    match next choice with
    | Some next_node =>
        upd_cur (Client.set_node next_node) s0 ≫= display_client_node_safe next_node
    | None =>
        complete_session roll found s0 ≫= λ s2, Some (after AdvanceClientSafe s2)
    end = Some s1 ∧ wf s1) as Hproceed.
  { intros s0 H0. destruct (next choice) as [n|].
    - destruct (wf_upd_cur (Client.set_node n) s0 H0) as (s1 & -> & H1 & _).
      cbn [mbind option_bind]. unfold display_client_node_safe.
      destruct (wf_display_client_node n (set_choice_in_progress false s1))
        as (s2 & H2 & H3 & _); [done|]. by exists s2.
    - destruct (wf_complete_session roll found s0 H0) as (s1 & -> & H1).
      cbn [mbind option_bind]. by eexists. }
  destruct (effects choice) as [eff|]; [|by apply Hproceed].
  case_bool_decide; [by apply Hproceed|].
  assert (∃ s1, (if has_key eff "absurdity"
                 then upd_cur (λ c, Client.set_absurdity
                        (Z.max 0 (Client.absurdity c + get0 eff "absurdity")) c) s
                 else Some s) = Some s1 ∧ wf s1) as (s1 & -> & H1).
  { destruct (has_key eff "absurdity"); [|by exists s].
    destruct (wf_upd_cur (λ c, Client.set_absurdity
                (Z.max 0 (Client.absurdity c + get0 eff "absurdity")) c) s Hw)
      as (s1 & ? & ? & _). by exists s1. }
  cbn [mbind option_bind].
  destruct (truthy eff "start_debate"); [by apply wf_open_debate_modal|].
  destruct (wf_upd_cur (λ c, if hasattr_effects c then c
                             else Client.set_effects ∅ c) s1 H1)
    as (s2 & -> & H2 & _).
  cbn [mbind option_bind].
  destruct (wf_upd_cur (λ c, Client.set_effects
                               (store_effects eff (Client.effects c)) c) s2 H2)
    as (s3 & -> & H3 & _).
  cbn [mbind option_bind]. by apply Hproceed.
Qed.

Lemma wf_on_choose_safe choice roll found s :
  wf s → ∃ s', on_choose_safe choice roll found s = Some s' ∧ wf s'.
Proof.
  intros Hw. unfold on_choose_safe.
  destruct (choice_in_progress s); [by exists s|].
  unfold on_choose. destruct Hw as (Hc & Hcl & Hi).
  cbn [player set_choice_in_progress heap current_client].
  destruct (lookup_lt_is_Some_2 _ _ Hi) as [stage ->].
  cbn [mbind option_bind]. unfold cur in Hc.
  destruct (current_client s) as [a|] eqn:Ea; [|by destruct Hc].
  cbn [mbind option_bind] in *. destruct Hc as [c Hc]. rewrite Hc.
  cbn [mbind option_bind].
  destruct (resolve _ _ _ c) as [st1 c1].
  pose proof (lookup_lt_Some _ _ _ Hc) as Hlt.
  assert (wf (set_stats st1 (set_heap (<[a:=c1]> (heap s))
                                      (set_choice_in_progress true s)))) as Hw1.
  { split_and!; [| | done].
    - unfold cur. cbn. rewrite Ea. cbn.
      rewrite list_lookup_insert_eq by done. by eexists.
    - cbn. eapply Forall_impl; [exact Hcl|]. intros a' Ha'.
      apply lookup_lt_is_Some. rewrite length_insert. by apply lookup_lt_is_Some. }
  destruct (reply choice); [by eexists|].
  by apply wf_continue_after_choice.
Qed.

Lemma apply_stage_bonus_stage bonus p :
  Player.current_stage_index (apply_stage_bonus bonus p) =
  Player.current_stage_index p.
Proof.
  unfold apply_stage_bonus.
  destruct (bonus !! "all_stats"), (bonus !! "reputation"), (bonus !! "xp");
    reflexivity.
Qed.

Lemma wf_load_roster stage s : wf s → wf (load_roster stage s).
Proof.
  intros (Hc & _ & Hi). split_and!; [| apply load_roster_clients | done].
  unfold cur, load_roster in *. cbn [current_client heap set_clients set_heap].
  destruct (current_client s) as [a|]; [|by destruct Hc].
  cbn [mbind option_bind] in *. destruct Hc as [c Hc].
  exists c. by apply lookup_app_l_Some.
Qed.

Lemma wf_advance_client s :
  wf s → ∃ s', advance_client s = Some s' ∧ wf s'.
Proof.
  intros Hw. unfold advance_client.
  set (s0 := set_player _ (set_current_client_index _ s)).
  assert (wf s0) as Hw0 by (by destruct Hw as (? & ? & ?)).
  clearbody s0. clear Hw s.
  assert (∃ s1, (if (length (clients s0) <=? current_client_index s0)%nat
                 then Some (end_day s0) else load_current_client s0) = Some s1 ∧
                wf s1) as Hfin.
  { case_match; [by eexists|].
    destruct Hw0 as (Hc & Hcl & Hi).
    destruct (wf_load_current_client s0 Hcl Hi (or_introl Hc)) as (s1 & ? & ? & _).
    by exists s1. }
  pose proof Hw0 as (Hc & Hcl & Hi).
  destruct (lookup_lt_is_Some_2 _ _ Hi) as [stage ->].
  cbn [mbind option_bind].
  destruct (Stage.clients_needed stage <=? _); [|exact Hfin].
  destruct (_ <? _)%nat eqn:Hlt; [|exact Hfin].
  apply Nat.ltb_lt in Hlt.
  cbn [Player.current_stage_index Player.set_clients_completed
       Player.set_current_stage_index].
  assert (S (Player.current_stage_index (player s0)) < length THERAPY_STAGES)%nat
    as Hi' by lia.
  destruct (lookup_lt_is_Some_2 _ _ Hi') as [new ->].
  cbn [mbind option_bind].
  set (p' := Player.set_inventory _ _).
  assert (Player.current_stage_index p' = S (Player.current_stage_index (player s0)))
    as Hp' by (subst p'; cbn [Player.current_stage_index Player.set_inventory];
               by rewrite apply_stage_bonus_stage).
  clearbody p'.
  assert (wf (load_roster new (set_player p' s0))) as (Hc1 & Hcl1 & Hi1).
  { apply wf_load_roster. destruct Hw0 as (? & ? & ?).
    split_and!; [done | done |]. cbn [player set_player]. by rewrite Hp'. }
  destruct (wf_load_current_client
              (set_current_client_index 0 (load_roster new (set_player p' s0))))
    as (s' & H1 & H2 & _); [done | done | by left |].
  by exists s'.
Qed.

Lemma wf_apply_item item_name s :
  wf s → is_Some (ITEMS !! item_name) →
  ∃ s', apply_item item_name s = Some s' ∧ wf s'.
Proof.
  intros Hw [info Hinfo]. unfold apply_item.
  destruct (cur s); [|by exists s].
  unfold get0.
  destruct (Player.inventory (player s) !! item_name) as [count|] eqn:Hcount;
    cbn [default from_option id]; [|by exists s].
  case_match; [by exists s|].
  cbn [mbind option_bind]. rewrite Hinfo. cbn [mbind option_bind].
  eexists. split; [done|]. by apply wf_set_player.
Qed.

Lemma wf_player_action action_type dice_roll client_dice chosen s :
  wf s → is_Some (debate s) →
  available_items (Player.inventory (player s)) = [] ∨
    chosen ∈ available_items (Player.inventory (player s)) →
  ∃ s', player_action action_type dice_roll client_dice chosen s = Some s' ∧ wf s'.
Proof.
  intros Hw [cb Hcb] Hav. unfold player_action. rewrite Hcb.
  cbn [mbind option_bind]. pose proof Hw as ([c Hc] & _). rewrite Hc.
  cbn [mbind option_bind].
  assert (∃ hp chp s0,
    match action_type with
    | empathy =>
        Some (player_hp cb, client_hp cb - (dice_roll + Empathy (stats_of s) / 2), s)
    | insight =>
        Some (player_hp cb, client_hp cb - (dice_roll + Insight (stats_of s) / 2), s)
    | patience =>
        Some (Z.min 20 (player_hp cb + (dice_roll + Patience (stats_of s) / 3)),
              client_hp cb,
              set_player (Player.set_flags (<["defended" := 1]> (Player.flags (player s)))
                                           (player s)) s)
    | item =>
        if bool_decide (available_items (Player.inventory (player s)) = [])
        then Some (player_hp cb, client_hp cb, s)
        else
          Player.inventory (player s) !! chosen ≫= λ count,
            Some (if String.eqb chosen "Coffee" then Z.min 20 (player_hp cb + 3)
                  else if String.eqb chosen "Energy Drink"
                       then Z.min 20 (player_hp cb + 2) else player_hp cb,
                  client_hp cb,
                  set_player (Player.set_inventory
                                (<[chosen := count - 1]> (Player.inventory (player s)))
                                (player s)) s)
    end = Some (hp, chp, s0) ∧ wf s0) as (hp & chp & s0 & -> & Hw0).
  { destruct action_type.
    - do 3 eexists. split; [reflexivity | exact Hw].
    - do 3 eexists. split; [reflexivity | exact Hw].
    - do 3 eexists. split; [reflexivity|]. by apply wf_set_player.
    - case_bool_decide as Hempty.
      { do 3 eexists. split; [reflexivity | exact Hw]. }
      destruct Hav as [?|Hin]; [done|].
      unfold available_items in Hin.
      apply list_elem_of_fmap in Hin as ([k v] & -> & Hkv).
      apply elem_of_map_to_list, map_lookup_filter_Some in Hkv as [Hkv _].
      cbn [fst]. rewrite Hkv. cbn [mbind option_bind].
      do 3 eexists. split; [reflexivity|]. by apply wf_set_player. }
  cbn [mbind option_bind].
  destruct (chp <=? 0).
  - destruct (wf_upd_cur (Client.set_absurdity 0)
                (set_stats (set_Empathy (Z.min 15 (Empathy (stats_of s0) + 1))
                                        (stats_of s0)) s0))
      as (s1 & -> & H1 & _).
    { by apply wf_set_player. }
    cbn [mbind option_bind]. by eexists.
  - destruct (truthy _ "defended"); case_match; eexists; (split; [done|]);
      repeat first [ exact Hw0 | apply wf_set_player; [reflexivity|] ].
Qed.

Lemma wf_after_victory roll found s :
  wf s → ∃ s', after_victory roll found s = Some s' ∧ wf s'.
Proof.
  intros Hw. unfold after_victory.
  destruct (wf_complete_session roll found (set_debate None s)) as (s1 & -> & H1);
    [done|].
  cbn [mbind option_bind]. by apply wf_advance_client.
Qed.

Lemma wf_after_defeat s :
  wf s → ∃ s', after_defeat s = Some s' ∧ wf s'.
Proof.
  intros Hw. unfold after_defeat.
  destruct (wf_upd_cur (Client.set_node "start") (set_debate None s))
    as (s1 & -> & H1 & _); [done|].
  cbn [mbind option_bind].
  destruct (wf_upd_cur (λ c, Client.set_absurdity
                               (Z.max 1 (Client.absurdity c + 1)) c) s1 H1)
    as (s2 & -> & (Hc & Hcl & Hi) & _).
  cbn [mbind option_bind].
  destruct (wf_load_current_client s2 Hcl Hi (or_introl Hc)) as (s3 & ? & ? & _).
  by exists s3.
Qed.

Lemma wf_run cb roll found s :
  wf s → ∃ s', run cb roll found s = Some s' ∧ wf s'.
Proof.
  intros Hw. destruct cb; cbn [run].
  - unfold advance_client_safe. by apply wf_advance_client.
  - by apply wf_after_victory.
  - by apply wf_after_defeat.
Qed.

Lemma wf_unique_result (r : option App) s' :
  (∃ s1, r = Some s1 ∧ wf s1) → r = Some s' → wf s'.
Proof. intros (s1 & -> & H) [= <-]. done. Qed.

Lemma wf_step s s' : wf s → step s s' → wf s'.
Proof.
  intros Hw [name cls s1 H | choice roll found s1 _ _ H
             | choice roll found s1 _ _ H | item_name s1 H | s1 H
             | action_type dice_roll client_dice chosen s1 _ _ Hav H
             | i cb roll found s1 _ _ H | ].
  - exact (wf_unique_result _ _ (wf_start_game name cls s) H).
  - exact (wf_unique_result _ _ (wf_on_choose_safe choice roll found s Hw) H).
  - exact (wf_unique_result _ _ (wf_continue_after_choice choice roll found s Hw) H).
  - unfold apply_item in H. destruct (cur s); [|by simplify_eq].
    case_match; [by simplify_eq|].
    destruct (Player.inventory (player s) !! item_name);
      cbn [mbind option_bind] in H; [|done].
    destruct (ITEMS !! item_name); cbn [mbind option_bind] in H; simplify_eq.
    by apply wf_set_player.
  - exact (wf_unique_result _ _ (wf_open_debate_modal s Hw) H).
  - assert (is_Some (debate s)) as Hd.
    { unfold player_action in H. destruct (debate s); [by eexists|done]. }
    exact (wf_unique_result _ _
             (wf_player_action action_type dice_roll client_dice chosen s Hw Hd Hav) H).
  - exact (wf_unique_result _ _
             (wf_run cb roll found (set_timers (delete i (timers s)) s) Hw) H).
  - exact Hw.
Qed.

Lemma reachable_wf s : reachable s → wf s.
Proof.
  induction 1 as [name cls s H | s s' _ IH Hstep].
  - exact (wf_unique_result _ _ (wf_start_game name cls (boot name cls)) H).
  - by eapply wf_step.
Qed.

(** On a reachable state every handler returns: a day can be started, a
    choice resolved and continued, the combat window opened, a pending
    callback run, an item of the catalog used and, with the combat window
    open, a turn played. *)
Theorem handlers_defined s :
  reachable s →
  (∀ name cls, is_Some (start_game name cls s)) ∧
  (∀ choice roll found, is_Some (on_choose_safe choice roll found s)) ∧
  (∀ choice roll found, is_Some (continue_after_choice choice roll found s)) ∧
  (∀ item_name, is_Some (ITEMS !! item_name) → is_Some (apply_item item_name s)) ∧
  is_Some (open_debate_modal s) ∧
  (∀ cb roll found, is_Some (run cb roll found s)) ∧
  (∀ action_type dice_roll client_dice chosen,
     is_Some (debate s) →
     available_items (Player.inventory (player s)) = [] ∨
       chosen ∈ available_items (Player.inventory (player s)) →
     is_Some (player_action action_type dice_roll client_dice chosen s)).
Proof.
  intros Hr. pose proof (reachable_wf s Hr) as Hw. split_and!.
  - intros name cls. destruct (wf_start_game name cls s) as (s' & -> & _). by eexists.
  - intros choice roll found.
    destruct (wf_on_choose_safe choice roll found s Hw) as (s' & -> & _). by eexists.
  - intros choice roll found.
    destruct (wf_continue_after_choice choice roll found s Hw) as (s' & -> & _).
    by eexists.
  - intros item_name Hi.
    destruct (wf_apply_item item_name s Hw Hi) as (s' & -> & _). by eexists.
  - destruct (wf_open_debate_modal s Hw) as (s' & -> & _). by eexists.
  - intros cb roll found.
    destruct (wf_run cb roll found s Hw) as (s' & -> & _). by eexists.
  - intros action_type dice_roll client_dice chosen Hd Hav.
    destruct (wf_player_action action_type dice_roll client_dice chosen s Hw Hd Hav)
      as (s' & -> & _). by eexists.
Qed.

(** ** Stat range *)

(** C1: in every state the application can reach (after any sequence of
    choice resolutions, complications, item uses, level-ups, stage bonuses
    and combat outcomes) each of Patience, Empathy, Insight and Composure
    lies between 1 and 15. *)
Theorem stats_always_in_range s :
  reachable s →
  1 ≤ Patience (stats_of s) ≤ 15 ∧ 1 ≤ Empathy (stats_of s) ≤ 15 ∧
  1 ≤ Insight (stats_of s) ≤ 15 ∧ 1 ≤ Composure (stats_of s) ≤ 15.
Proof.
  intros Hr. destruct (reachable_Inv s Hr) as ((Hst & _) & _). exact Hst.
Qed.

Lemma stats_always_in_range_witness :
  first_day "Dr. Finch" Burnout = Some (sample_day Burnout) ∧
  1 ≤ Patience (stats_of (sample_day Burnout)) ≤ 15 ∧
  1 ≤ Empathy (stats_of (sample_day Burnout)) ≤ 15 ∧
  1 ≤ Insight (stats_of (sample_day Burnout)) ≤ 15 ∧
  1 ≤ Composure (stats_of (sample_day Burnout)) ≤ 15.
Proof.
  split; [vm_compute; reflexivity|].
  apply stats_always_in_range.
  apply (reachable_first "Dr. Finch" Burnout). vm_compute. reflexivity.
Defined.

(** ** Ending resolver *)




(** C9: in every reachable state Composure is at least 1 and the
    [melted_down] flag still holds [False]; the test of the first ending rule
    is false, the ending computed from the state is not "Mental Breakdown",
    and no day has ended with it. *)
Theorem mental_breakdown_unreachable s :
  reachable s →
  1 ≤ Composure (stats_of s) ∧
  Player.flags (player s) !! "melted_down" = Some 0 ∧
  truthy (Player.flags (player s)) "melted_down"
    || (Composure (stats_of s) <=? 0) = false ∧
  ending_name (determine_ending (player s)) ≠ "Mental Breakdown" ∧
  (∀ e, day_end s = Some e → ending_name e ≠ "Mental Breakdown").
Proof.
  intros Hr. destruct (reachable_Inv s Hr) as (Hp & _ & Hd).
  pose proof (determine_ending_not_breakdown _ Hp) as He.
  destruct Hp as ((_ & _ & _ & Hc) & Hm & _). unfold in_range in Hc.
  split_and!; [unfold stats_of; lia | done | | done | done].
  unfold truthy, stats_of. rewrite Hm. simpl. lia.
Qed.

Lemma mental_breakdown_unreachable_witness :
  first_day "Dr. Finch" Counselor = Some (sample_day Counselor) ∧
  ending_name (determine_ending (player (end_day (sample_day Counselor))))
    ≠ "Mental Breakdown".
Proof.
  split; [vm_compute; reflexivity|].
  refine (proj1 (proj2 (proj2 (proj2
            (mental_breakdown_unreachable (end_day (sample_day Counselor)) _))))).
  eapply reachable_step; [|apply step_end_day].
  apply (reachable_first "Dr. Finch" Counselor). vm_compute. reflexivity.
Defined.

(** ** Heated arguments *)

Lemma upd_cur_frame f s s' :
  upd_cur f s = Some s' →
  player s' = player s ∧ timers s' = timers s ∧ debate s' = debate s ∧
  clients s' = clients s ∧ current_client s' = current_client s ∧
  current_client_index s' = current_client_index s ∧ day_end s' = day_end s ∧
  choice_in_progress s' = choice_in_progress s ∧
  ∃ a c, current_client s = Some a ∧ heap s !! a = Some c ∧
         heap s' = <[a := f c]> (heap s).
Proof.
  unfold upd_cur. intros H.
  destruct (current_client s) as [a|] eqn:Ea; cbn [mbind option_bind] in H; [|done].
  destruct (heap s !! a) as [c|] eqn:Hc; cbn [mbind option_bind] in H; [|done].
  simplify_eq. split_and!; try done. by exists a, c.
Qed.

Lemma effects_insert_same (f : Client.t → Client.t) (h : list Client.t) a c :
  h !! a = Some c → Client.effects (f c) = Client.effects c →
  Client.effects <$> <[a := f c]> h = Client.effects <$> h.
Proof.
  intros Hc Hf. rewrite list_fmap_insert, Hf.
  apply list_insert_id. by rewrite list_lookup_fmap, Hc.
Qed.

(** With a truthy [start_debate], [continue_after_choice] opens the combat
    window and returns: nothing is stored in any client's effects, the
    session is not completed and no callback is scheduled. *)
Lemma start_debate_returns_early choice eff roll found s s' :
  effects choice = Some eff → truthy eff "start_debate" = true →
  continue_after_choice choice roll found s = Some s' →
  is_Some (debate s') ∧ player s' = player s ∧ timers s' = timers s ∧
  Client.effects <$> heap s' = Client.effects <$> heap s.
Proof.
  intros He Hd H. unfold continue_after_choice in H. rewrite He in H.
  case_bool_decide as Hempty; [by subst eff|].
  rewrite Hd in H.
  destruct (has_key eff "absurdity").
  - destruct (upd_cur _ s) as [s1|] eqn:Hu; cbn [mbind option_bind] in H; [|done].
    apply upd_cur_frame in Hu as (Hp & Ht & _ & _ & _ & _ & _ & _ & a & c & _ & Hc & Hh).
    unfold open_debate_modal in H.
    destruct (cur s1); cbn [mbind option_bind] in H; simplify_eq.
    split_and!; [by eexists | done | done |]. simpl. rewrite Hh.
    by apply effects_insert_same.
  - cbn [mbind option_bind] in H. unfold open_debate_modal in H.
    destruct (cur s); cbn [mbind option_bind] in H; simplify_eq.
    split_and!; [by eexists | done..].
Qed.

(** Without a truthy [heated_argument] among the client's effects,
    [complete_session] neither counts a heated argument nor lowers the
    reputation. *)
Lemma complete_session_player_no_penalty roll found c p :
  truthy (Client.effects c) "heated_argument" = false →
  Player.flags p !! "heated_arguments" = None →
  Player.flags (complete_session_player roll found c p) !! "heated_arguments" = None ∧
  Player.reputation p ≤ Player.reputation (complete_session_player roll found c p).
Proof.
  intros Hh Hf. unfold complete_session_player. rewrite Hh.
  set (kept := λ q : Player.t,
         Player.flags q !! "heated_arguments" = None ∧
         Player.reputation p ≤ Player.reputation q).
  set (r := if truthy (Client.effects c) "breakthrough" then _ else _).
  assert (kept r.2) as Hr.
  { subst r kept. unfold bump.
    repeat case_match; player_simpl; (split; [by simplify_map_eq | lia]). }
  destruct r as [bonus_xp p1]. simpl in Hr.
  set (p2 := if truthy (Client.effects c) "joined_delusion" then _ else p1).
  assert (kept p2) as Hp2.
  { subst p2 kept. destruct Hr. unfold bump.
    case_match; player_simpl; (split; [by simplify_map_eq | lia]). }
  set (p3 := if Client.absurdity c <=? 3 then _ else p2).
  assert (kept p3) as Hp3 by (subst p3; by case_match).
  set (p4 := Player.set_xp _ p3).
  assert (kept p4) as Hp4 by done.
  set (p5 := if negb _ then _ else p4).
  assert (kept p5) as Hp5 by (subst p5; by case_match).
  by case_match.
Qed.

Lemma catalog_choices_safe : Forall choice_safe catalog_choices.
Proof. apply (bool_decide_unpack _). by vm_compute. Qed.

(** C10: a choice whose effects start a debate enters combat and returns
    before its other effect flags are stored; every catalog choice carrying
    [heated_argument] also starts a debate; hence no client ever holds a
    truthy [heated_argument], [complete_session] never counts one nor takes
    reputation away, and reputation never drops below its initial 10. *)
Theorem heated_arguments_never_counted s :
  reachable s →
  (∀ choice eff roll found s',
      effects choice = Some eff → truthy eff "start_debate" = true →
      continue_after_choice choice roll found s = Some s' →
      is_Some (debate s') ∧ player s' = player s ∧ timers s' = timers s ∧
      Client.effects <$> heap s' = Client.effects <$> heap s) ∧
  (∀ choice eff,
      choice ∈ catalog_choices → effects choice = Some eff →
      is_Some (eff !! "heated_argument") → truthy eff "start_debate" = true) ∧
  (∀ c, c ∈ heap s → truthy (Client.effects c) "heated_argument" = false) ∧
  (∀ roll found s',
      complete_session roll found s = Some s' →
      Player.flags (player s') !! "heated_arguments" = None ∧
      Player.reputation (player s) ≤ Player.reputation (player s')) ∧
  Player.flags (player s) !! "heated_arguments" = None ∧
  10 ≤ Player.reputation (player s).
Proof.
  intros Hr. pose proof (reachable_Inv s Hr) as Hs.
  destruct Hs as ((_ & _ & Hf & Hrep) & Hh & _).
  split_and!; [| | | | done | done].
  - intros choice eff roll found s'. apply start_debate_returns_early.
  - intros choice eff Hin He Hk.
    pose proof (proj1 (Forall_forall _ _) catalog_choices_safe choice Hin) as Hc.
    unfold choice_safe in Hc. rewrite He in Hc. by apply Hc.
  - intros c Hc. apply truthy_None.
    by destruct (proj1 (Forall_forall _ _) Hh c Hc) as (? & _).
  - intros roll found s' H. unfold complete_session in H.
    destruct (cur s) as [c|] eqn:Hc; cbn [mbind option_bind] in H; simplify_eq.
    apply complete_session_player_no_penalty; [|done].
    apply truthy_None. by destruct (Inv_cur s c (reachable_Inv s Hr) Hc) as (? & _).
Qed.

Lemma heated_arguments_never_counted_witness :
  first_day "Dr. Finch" Empath = Some (sample_day Empath) ∧
  Player.flags (player (sample_day Empath)) !! "heated_arguments" = None ∧
  10 ≤ Player.reputation (player (sample_day Empath)).
Proof.
  split; [vm_compute; reflexivity|].
  refine (proj2 (proj2 (proj2 (proj2
            (heated_arguments_never_counted (sample_day Empath) _))))).
  apply (reachable_first "Dr. Finch" Empath). vm_compute. reflexivity.
Defined.

(** ** Choice resolution *)

(** Case analysis on the branch of the chain a label takes. *)
Ltac by_category txt :=
  unfold resolve, category_rule, classify in *;
  destruct (any_in empathetic_words txt);
  [| destruct (any_in analytical_words txt);
     [| destruct (any_in confrontational_words txt);
        [| destruct (any_in patient_words txt);
           [| destruct (any_in dismissive_words txt)]]]].

Ltac resolve_simpl :=
  unfold complications, location_bonus, reduce_absurdity in *;
  repeat (stats_simpl; client_simpl; case_match; simplify_eq);
  stats_simpl; client_simpl.

(** C6: for a new Empath (Patience 4, Empathy 4, Insight 8, Composure 5),
    resolving a label classified Analytical raises Insight to 9; the
    stat-based reduction is 1 + floor(max(1, 9 - 3) / 2) = 4, taken from the
    client's absurdity (floored at 0) before the location's insight bonus,
    if any, is subtracted. *)
Theorem new_empath_analytical_choice location_effects choice_text c :
  classify choice_text = Analytical →
  let st := base (CLASS_TEMPLATES Empath) in
  let r := resolve location_effects choice_text st c in
  st = mkStats 4 4 8 5 ∧
  Insight r.1 = 9 ∧
  1 + Z.max 1 (Insight r.1 - 3) / 2 = 4 ∧
  Client.absurdity r.2 =
    (let reduced := Z.max 0 (Client.absurdity c - 4) in
     if 0 <? get0 location_effects "insight_bonus"
     then Z.max 0 (reduced - get0 location_effects "insight_bonus")
     else reduced) ∧
  (4 ≤ Client.absurdity c → get0 location_effects "insight_bonus" ≤ 0 →
   Client.absurdity r.2 = Client.absurdity c - 4).
Proof.
  intros Hc st r. subst st r. cbn [base CLASS_TEMPLATES].
  by_category choice_text; try discriminate Hc.
  resolve_simpl; change (Z.max 1 (Z.min 15 (8 + 1) - 3) / 2) with 3 in *;
    split_and!; try done; try lia.
Qed.

Lemma new_empath_analytical_choice_witness :
  let le := dict [("empathy_bonus", 1); ("difficulty_modifier", 0)] in
  let c := Client.mk "toaster" "Toaster Guy" toaster_nodes 6 4 "start" ∅ in
  let r := resolve le (lower "What does it burn exactly")
                   (base (CLASS_TEMPLATES Empath)) c in
  Insight r.1 = 9 ∧ Client.absurdity r.2 = 6 - 4.
Proof.
  intros le c r.
  pose proof (new_empath_analytical_choice le
                (lower "What does it burn exactly") c eq_refl)
    as (_ & Hi & _ & _ & Ha).
  split; [exact Hi|]. apply Ha; vm_compute; discriminate.
Defined.

(** The scenario on the first day: the first client is Toaster Guy
    (absurdity 6) at the Community Center, which has no insight bonus. *)
Example first_day_ask_choice :
  let choice := mkChoice "What does it burn exactly" (Some "paranoid") None true in
  (s ← on_choose_safe choice 0%Q "Coffee" (sample_day Empath);
   c ← cur s; Some (stats_of s, Client.absurdity c))
  = Some (mkStats 4 4 9 5, 2).
Proof. vm_compute. reflexivity. Qed.

(** A Dismissive label ("Sure") raises Composure from 2 to 3 first, and the
    complication, which looks at the raised value, does not fire. *)
Lemma low_composure_dismissive_counterexample :
  ¬ low_composure_always_complicates.
Proof.
  intros H.
  destruct (H (dict [("empathy_bonus", 1); ("difficulty_modifier", 0)])
              (lower "Sure") (mkStats 4 4 8 2)
              (Client.mk "toaster" "Toaster Guy" toaster_nodes 6 4 "start" ∅)
              eq_refl) as [Hc _].
  vm_compute in Hc. discriminate Hc.
Qed.

(** C4, amended: the low-Composure complication tests Composure after the
    category rule.  For a choice resolved at Composure 2 whose category rule
    does not raise Composure, Composure ends at 1 and the client's absurdity
    one above (capped at 12) the category rule's value; when the rule raises
    Composure (to 3), the complication does not fire. *)
Theorem low_composure_complication location_effects choice_text st c :
  Composure st = 2 →
  let r := resolve location_effects choice_text st c in
  let by_rule := category_rule location_effects choice_text st c in
  if raises_composure choice_text st then
    Composure r.1 = 3 ∧ Client.absurdity r.2 = Client.absurdity by_rule.2
  else
    Composure r.1 = 1 ∧
    Client.absurdity r.2 = Z.min 12 (Client.absurdity by_rule.2 + 1).
Proof.
  intros Hc r by_rule. subst r by_rule. unfold raises_composure.
  by_category choice_text; resolve_simpl; try lia; split; lia.
Qed.

Lemma low_composure_complication_witness :
  let le := dict [("empathy_bonus", 1); ("difficulty_modifier", 0)] in
  let c := Client.mk "toaster" "Toaster Guy" toaster_nodes 6 4 "start" ∅ in
  let st := mkStats 4 4 8 2 in
  let r := resolve le (lower "What does it burn exactly") st c in
  Composure r.1 = 1 ∧
  Client.absurdity r.2 =
    Z.min 12 (Client.absurdity
                (category_rule le (lower "What does it burn exactly") st c).2 + 1).
Proof.
  intros le c st r.
  exact (low_composure_complication le (lower "What does it burn exactly")
           st c eq_refl).
Defined.

(** "How's your son" is Analytical (through "how") but holds none of the
    words the impatience test looks for: at Patience 2 the resistance stays
    where it was. *)
Lemma impatience_how_counterexample : ¬ impatience_follows_category.
Proof.
  intros H.
  pose proof (H (dict [("insight_bonus", 1); ("difficulty_modifier", 1)])
                (lower "How's your son") (mkStats 2 4 8 5)
                (Client.mk "business" "Business Guy" business_nodes 7 7 "laugh" ∅))
    as Hr.
  vm_compute in Hr. discriminate Hr.
Qed.

(** The other direction fails as well: an Empathetic label that holds
    "what" raises the resistance at Patience 2. *)
Example impatience_empathetic_label :
  let r := resolve (dict [("empathy_bonus", 1); ("difficulty_modifier", 0)])
                   (lower "What do you feel") (mkStats 2 4 8 5)
                   (Client.mk "toaster" "Toaster Guy" toaster_nodes 6 4 "start" ∅) in
  classify (lower "What do you feel") = Empathetic ∧ Client.resistance r.2 = 5.
Proof. vm_compute. by split. Qed.

(** C5, amended: during choice resolution the client's resistance goes up
    by 1 (capped at 10) exactly when Patience, as the category rule leaves
    it, is at most 2 and the lowered label holds one of "ask", "explore",
    "challenge", "what", "why"; the label's category plays no part. *)
Theorem impatience_follows_keywords location_effects choice_text st c :
  let r := resolve location_effects choice_text st c in
  let by_rule := category_rule location_effects choice_text st c in
  Patience r.1 = Patience by_rule.1 ∧
  Client.resistance r.2 =
    if (Patience by_rule.1 <=? 2) && any_in impatient_words choice_text
    then Z.min 10 (Client.resistance c + 1)
    else Client.resistance c.
Proof.
  intros r by_rule. subst r by_rule. unfold resolve, complications.
  destruct (any_in impatient_words choice_text);
    by_category choice_text; resolve_simpl;
    rewrite ?andb_true_r, ?andb_false_r;
    repeat case_match; split; try done; lia.
Qed.

(** ** Stage advancement *)

Lemma stages_items_ok :
  Forall (λ st,
            NoDup (Stage.special_items (Stage.location_effects st)) ∧
            Forall (λ i, is_Some (ITEMS !! i))
                   (Stage.special_items (Stage.location_effects st)) ∧
            roster st ≠ [])
         THERAPY_STAGES.
Proof. apply (bool_decide_unpack _). by vm_compute. Qed.

Lemma grant_special_items_granted items (inv : gmap string Z) k :
  NoDup items → Forall (λ i, is_Some (ITEMS !! i)) items → k ∈ items →
  grant_special_items items inv !! k = Some (get0 inv k + 1).
Proof.
  unfold grant_special_items. revert inv.
  induction items as [|i items IH]; intros inv Hnd Hall Hk.
  { by apply elem_of_nil in Hk. }
  apply NoDup_cons in Hnd as [Hi Hnd]. apply Forall_cons in Hall as [Hit Hall].
  simpl. rewrite bool_decide_eq_true_2 by done.
  destruct (decide (k = i)) as [->|Hne].
  - fold (grant_special_items items (bump i inv)).
    rewrite grant_special_items_other by done.
    unfold bump. by rewrite lookup_insert_eq.
  - apply elem_of_cons in Hk as [?|Hk]; [done|].
    rewrite IH by done. unfold get0. by rewrite bump_other.
Qed.

(** Reading the addresses of a block of freshly appended objects. *)
Lemma lookup_fresh_block {A} (h l : list A) :
  (λ a, (h ++ l)%list !! a) <$> seq (length h) (length l) = Some <$> l.
Proof.
  apply list_eq. intros i. rewrite !list_lookup_fmap.
  destruct (decide (i < length l)%nat) as [Hi|Hi].
  - rewrite lookup_seq_lt by done. simpl.
    rewrite lookup_app_r by lia.
    replace (length h + i - length h)%nat with i by lia.
    destruct (lookup_lt_is_Some_2 l i Hi) as [x Hx]. by rewrite Hx.
  - rewrite lookup_seq_ge by lia. simpl.
    by rewrite lookup_ge_None_2 by lia.
Qed.

Lemma load_current_client_first s a c :
  clients s !! current_client_index s = Some a →
  heap s !! a = Some c →
  is_Some (Client.nodes c !! Client.node c) →
  load_current_client s = Some (set_current_client (Some a) s).
Proof.
  intros Ha Hc Hn. unfold load_current_client.
  pose proof (lookup_lt_Some _ _ _ Ha) as Hlt.
  rewrite bool_decide_eq_false_2 by (intros E; rewrite E in Hlt; simpl in Hlt; lia).
  replace (length (clients s) <=? current_client_index s)%nat with false
    by (symmetry; apply Nat.leb_gt; lia).
  cbn [orb]. rewrite Ha. cbn [mbind option_bind].
  unfold cur, display_client_node, cur.
  cbn [current_client heap set_current_client mbind option_bind].
  rewrite Hc. cbn [mbind option_bind].
  by rewrite bool_decide_eq_true_2.
Qed.

(** C7: when [advance_client] brings [clients_completed] up to the current
    stage's [clients_needed] and a further stage exists, the player moves to
    that stage with the counter back at 0; the new stage's [all_stats] bonus
    is added to each of the four stats, each capped at 15, and its
    reputation and xp bonuses are added; every special item of the new
    location gains one in the inventory; the roster is rebuilt from the
    catalog with the new stage's difficulty modifier, each client at node
    "start", and the first of them becomes the current client. *)
Theorem advance_client_stage_transition s stage new :
  THERAPY_STAGES !! Player.current_stage_index (player s) = Some stage →
  THERAPY_STAGES !! S (Player.current_stage_index (player s)) = Some new →
  Stage.clients_needed stage ≤ Player.clients_completed (player s) + 1 →
  ∃ s',
    advance_client s = Some s' ∧
    Player.current_stage_index (player s') = S (Player.current_stage_index (player s)) ∧
    Player.clients_completed (player s') = 0 ∧
    (∀ k, get_stat k (stats_of s') =
          match Stage.stage_bonus new !! "all_stats" with
          | Some d => Z.min 15 (get_stat k (stats_of s) + d)
          | None => get_stat k (stats_of s)
          end) ∧
    Player.reputation (player s') =
      Player.reputation (player s) + get0 (Stage.stage_bonus new) "reputation" ∧
    Player.xp (player s') =
      Player.xp (player s) + get0 (Stage.stage_bonus new) "xp" ∧
    (∀ i, Player.inventory (player s') !! i =
          if bool_decide (i ∈ Stage.special_items (Stage.location_effects new))
          then Some (get0 (Player.inventory (player s)) i + 1)
          else Player.inventory (player s) !! i) ∧
    ((λ a, heap s' !! a) <$> clients s') =
      (λ d, Some (Client.mk (def_id d) (def_name d) (def_nodes d)
                    (Z.max 1 (def_absurdity d +
                              get0 (Stage.bonuses (Stage.location_effects new))
                                   "difficulty_modifier"))
                    (Z.max 1 (def_resistance d +
                              get0 (Stage.bonuses (Stage.location_effects new))
                                   "difficulty_modifier"))
                    "start" ∅))
        <$> filter (λ d, def_id d ∈ Stage.clients new) build_clients_data ∧
    current_client_index s' = 0%nat ∧
    current_client s' = clients s' !! 0%nat ∧
    is_Some (current_client s') ∧
    day_end s' = day_end s.
Proof.
  intros Hstage Hnew Hneed.
  pose proof (list_elem_of_lookup_2 _ _ _ Hnew) as Hin.
  destruct (proj1 (Forall_forall _ _) stages_items_ok new Hin) as (Hnd & Hit & Hne).
  pose proof (lookup_lt_Some _ _ _ Hnew) as Hlt. cbn [length THERAPY_STAGES] in Hlt.
  unfold advance_client.
  cbn [player set_player set_current_client_index
       Player.current_stage_index Player.set_clients_completed
       Player.clients_completed Player.set_current_stage_index].
  rewrite Hstage. cbn [mbind option_bind].
  replace (Stage.clients_needed stage <=? _) with true by lia.
  replace (_ <? _)%nat with true
    by (symmetry; apply Nat.ltb_lt; cbn [length THERAPY_STAGES]; lia).
  rewrite Hnew. cbn [mbind option_bind].
  set (p' := Player.set_inventory _ _).
  set (s1 := set_current_client_index 0 _).
  destruct (roster new) as [|c0 rest] eqn:Hros; [done|].
  assert (client_ok c0) as (_ & _ & Hstart & _).
  { pose proof (roster_ok new) as Hok. rewrite Hros in Hok.
    by apply Forall_cons in Hok as [? _]. }
  assert (Client.node c0 = "start") as Hnode.
  { unfold roster in Hros. destruct (filter _ _); simplify_eq/=. done. }
  assert (heap s1 = (heap s ++ c0 :: rest)%list) as Hheap.
  { subst s1. unfold load_roster. cbn [heap set_current_client_index set_clients set_heap set_player].
    by rewrite Hros. }
  assert (clients s1 = seq (length (heap s)) (length (c0 :: rest))) as Hcl.
  { subst s1. unfold load_roster. cbn [clients heap set_current_client_index set_clients set_heap set_player].
    by rewrite Hros. }
  rewrite (load_current_client_first s1 (length (heap s)) c0).
  2:{ rewrite Hcl. done. }
  2:{ rewrite Hheap. by rewrite list_lookup_middle. }
  2:{ by rewrite Hnode. }
  set (s' := set_current_client _ s1).
  assert (player s' = p') as Hp' by reflexivity.
  assert (heap s' = (heap s ++ c0 :: rest)%list) as Hheap' by exact Hheap.
  assert (clients s' = seq (length (heap s)) (length (c0 :: rest))) as Hcl'
    by exact Hcl.
  assert (current_client s' = Some (length (heap s))) as Hcur' by reflexivity.
  assert (current_client_index s' = 0%nat) as Hidx' by reflexivity.
  assert (day_end s' = day_end s) as Hday' by reflexivity.
  clearbody s'. clear Hheap Hcl. clearbody s1.
  exists s'. split; [done|].
  unfold stats_of. rewrite Hp', Hheap', Hcl', Hcur', Hidx', Hday'.
  subst p'. unfold apply_stage_bonus, get0.
  split_and!.
  - by repeat case_match.
  - by repeat case_match.
  - intros k. destruct (Stage.stage_bonus new !! "all_stats");
      repeat case_match; by destruct k.
  - repeat case_match; player_simpl; cbn [default from_option id]; lia.
  - repeat case_match; player_simpl; cbn [default from_option id]; lia.
  - intros i. cbn [Player.inventory Player.set_inventory].
    assert (∀ q, Player.inventory
              (match Stage.stage_bonus new !! "xp" with
               | Some d => Player.set_xp (Player.xp q + d) q
               | None => q end) = Player.inventory q) as E1
      by (intros q; by destruct (Stage.stage_bonus new !! "xp")).
    rewrite E1.
    assert (∀ q, Player.inventory
              (match Stage.stage_bonus new !! "reputation" with
               | Some d => Player.set_reputation (Player.reputation q + d) q
               | None => q end) = Player.inventory q) as E2
      by (intros q; by destruct (Stage.stage_bonus new !! "reputation")).
    rewrite E2.
    assert (∀ q, Player.inventory
              (match Stage.stage_bonus new !! "all_stats" with
               | Some d => Player.set_stats (all_stats_bonus d (Player.stats q)) q
               | None => q end) = Player.inventory q) as E3
      by (intros q; by destruct (Stage.stage_bonus new !! "all_stats")).
    rewrite E3. cbn [Player.inventory Player.set_clients_completed
                     Player.set_current_stage_index].
    case_bool_decide as Hi.
    + by apply grant_special_items_granted.
    + by apply grant_special_items_other.
  - rewrite <- Hros, lookup_fresh_block. unfold roster.
    by rewrite <- list_fmap_compose.
  - done.
  - done.
  - by eexists.
  - done.
Qed.

Lemma advance_client_stage_transition_witness :
  let s := set_player (Player.set_clients_completed 1 (player (sample_day Empath)))
                      (sample_day Empath) in
  ∃ s', advance_client s = Some s' ∧
        Player.current_stage_index (player s') = 1%nat ∧
        Player.clients_completed (player s') = 0.
Proof.
  intros s.
  destruct (advance_client_stage_transition s
              (Stage.mk "Community Center"
                 "A run-down community center where therapy happens between bingo nights"
                 ["toaster"; "mime"] 2
                 (dict [("reputation", 1)])
                 (Stage.mkLocationEffects
                    (dict [("empathy_bonus", 1); ("difficulty_modifier", 0)])
                    ["Coffee"]
                    "The community setting makes clients more receptive to empathy"))
              (Stage.mk "Corporate Wellness Program"
                 "Sterile office building where companies dump their broken employees"
                 ["business"; "choir"] 2
                 (dict [("xp", 2); ("reputation", 1)])
                 (Stage.mkLocationEffects
                    (dict [("insight_bonus", 1); ("difficulty_modifier", 1)])
                    ["Energy Drink"; "Notepad"]
                    "Corporate environment rewards analytical thinking but clients are more guarded")))
    as (s' & H1 & H2 & H3 & _).
  - vm_compute. reflexivity.
  - vm_compute. reflexivity.
  - vm_compute. discriminate.
  - exists s'. split; [exact H1|]. split; [|exact H3].
    rewrite H2. vm_compute. reflexivity.
Defined.

(** ** Combat defeat *)

Ltac app_simpl :=
  cbn [player heap clients current_client current_client_index
       choice_in_progress debate timers day_end
       set_player set_stats set_heap set_clients set_current_client
       set_current_client_index set_choice_in_progress set_debate set_timers
       set_day_end] in *.




(** ** Session rewards *)

(** The experience [complete_session] awards: 3, plus 3 when the client's
    stored effects hold a truthy [breakthrough], else plus 2 when the final
    absurdity is at most 2, else plus 1 when it is at most 4. *)
Lemma complete_session_player_xp roll found c p :
  Player.xp (complete_session_player roll found c p) =
    Player.xp p + 3 +
    (if truthy (Client.effects c) "breakthrough" then 3
     else if Client.absurdity c <=? 2 then 2
     else if Client.absurdity c <=? 4 then 1
     else 0).
Proof.
  unfold complete_session_player.
  set (r := if truthy (Client.effects c) "breakthrough" then _ else _).
  set (b := if truthy (Client.effects c) "breakthrough" then 3 else _).
  assert (r.1 = b ∧ Player.xp r.2 = Player.xp p) as [Hb Hx]
    by (subst r b; by repeat case_match).
  destruct r as [bonus_xp p1]. simpl in Hb, Hx. subst bonus_xp.
  set (p2 := if truthy (Client.effects c) "heated_argument" then _ else p1).
  assert (Player.xp p2 = Player.xp p) as Hx2 by (subst p2; by case_match).
  set (p3 := if truthy (Client.effects c) "joined_delusion" then _ else p2).
  assert (Player.xp p3 = Player.xp p) as Hx3 by (subst p3; by case_match).
  set (p4 := if Client.absurdity c <=? 3 then _ else p3).
  assert (Player.xp p4 = Player.xp p) as Hx4 by (subst p4; by case_match).
  set (p5 := Player.set_xp _ p4).
  assert (Player.xp p5 = Player.xp p + (3 + b)) as Hx5
    by (subst p5; player_simpl; lia).
  set (p6 := if negb _ then _ else p5).
  assert (Player.xp p6 = Player.xp p + (3 + b)) as Hx6
    by (subst p6; by case_match).
  unfold level_up. case_match; player_simpl; lia.
Qed.

(** What a choice with effects (and no debate) leaves in the client's
    stored effects is that choice's own flags: [hasattr] on a dict never
    sees the ["effects"] key, so the store is emptied first. *)
Lemma continue_after_choice_overwrites choice eff next_node roll found s s' c' :
  effects choice = Some eff → eff ≠ ∅ →
  truthy eff "start_debate" = false →
  next choice = Some next_node →
  continue_after_choice choice roll found s = Some s' →
  cur s' = Some c' →
  Client.effects c' = store_effects eff ∅.
Proof.
  intros He Hne Hd Hn H Hc'. unfold continue_after_choice in H.
  rewrite He, Hn, Hd in H. rewrite bool_decide_eq_false_2 in H by done.
  destruct (if has_key eff "absurdity" then _ else _) as [s1|] eqn:E1;
    cbn [mbind option_bind] in H; [|done].
  destruct (upd_cur _ s1) as [s2|] eqn:E2; cbn [mbind option_bind] in H; [|done].
  destruct (upd_cur _ s2) as [s3|] eqn:E3; cbn [mbind option_bind] in H; [|done].
  destruct (upd_cur _ s3) as [s4|] eqn:E4; cbn [mbind option_bind] in H; [|done].
  apply upd_cur_frame in E2 as (_ & _ & _ & _ & Hc2 & _ & _ & _ & a & c & Ha & Hh & Hh2).
  apply upd_cur_frame in E3 as (_ & _ & _ & _ & Hc3 & _ & _ & _ & a3 & c3 & Ha3 & Hh3 & Hh3').
  apply upd_cur_frame in E4 as (_ & _ & _ & _ & Hc4 & _ & _ & _ & a4 & c4 & Ha4 & Hh4 & Hh4').
  assert (a3 = a) as -> by congruence. assert (a4 = a) as -> by congruence.
  pose proof (lookup_lt_Some _ _ _ Hh) as Hlt.
  rewrite Hh2, list_lookup_insert_eq in Hh3 by done. simplify_eq.
  rewrite Hh3', list_lookup_insert_eq in Hh4
    by (by rewrite Hh2, length_insert). simplify_eq.
  unfold display_client_node_safe, display_client_node in H.
  assert (cur (set_choice_in_progress false s4) = cur s4) as Hcur by done.
  rewrite Hcur in H.
  assert (cur s4 = Some (Client.set_node next_node
            (Client.set_effects (store_effects eff ∅) (Client.set_effects ∅ c))))
    as Hcur4.
  { unfold cur. rewrite Hc4, Hc3, Ha3. cbn [mbind option_bind].
    rewrite Hh4', list_lookup_insert_eq; [done|].
    by rewrite Hh3', Hh2, !length_insert. }
  rewrite Hcur4 in H. cbn [mbind option_bind] in H.
  case_match; simplify_eq.
  - done.
  - assert (cur (end_day (set_choice_in_progress false s4)) = cur s4) as Hce
      by done.
    rewrite Hce, Hcur4 in Hc'. by simplify_eq.
Qed.

(** C2: the breakthrough bonus is due whenever some choice of the session
    carried the [breakthrough] effect.  Here a session in which the first
    choice carries it and the last one carries only an absurdity change
    ends without it: the stored flag is gone when the session completes
    (absurdity 5, so 3 xp, reputation still 10, no breakthrough counted). *)
Theorem earlier_breakthrough_is_forgotten :
  let first := mkChoice "Interesting" (Some "paranoid")
                        (Some (dict [("breakthrough", 1)])) true in
  let last := mkChoice "That sounds hard" None
                       (Some (dict [("absurdity", -1)])) true in
  (s1 ← continue_after_choice first 1%Q "Coffee" (sample_day Empath);
   c1 ← cur s1;
   Some (truthy (Client.effects c1) "breakthrough")) = Some true ∧
  (s1 ← continue_after_choice first 1%Q "Coffee" (sample_day Empath);
   s2 ← continue_after_choice last 1%Q "Coffee" s1;
   c2 ← cur s2;
   Some (truthy (Client.effects c2) "breakthrough", Client.absurdity c2,
         Player.xp (player s2), Player.reputation (player s2),
         Player.flags (player s2) !! "life_changing_breakthroughs"))
  = Some (false, 5, 3, 10, None).
Proof. split; vm_compute; reflexivity. Qed.

(** * Further properties *)

(** ** The second invariant *)

(** *** The catalog *)

Lemma catalog_graphs_ok : Forall (λ d, graph_ok (def_nodes d)) build_clients_data.
Proof. apply (bool_decide_unpack _). by vm_compute. Qed.

Lemma stages_rosters_ok :
  Forall (λ st,
            Z.of_nat (length (roster st)) = Stage.clients_needed st ∧
            Forall (λ c, 1 ≤ Client.resistance c ≤ 10) (roster st) ∧
            0 ≤ get0 (Stage.stage_bonus st) "xp")
         THERAPY_STAGES.
Proof. apply (bool_decide_unpack _). by vm_compute. Qed.

Lemma roster_sound stage :
  stage ∈ THERAPY_STAGES → Forall client_sound (roster stage).
Proof.
  intros Hin.
  destruct (proj1 (Forall_forall _ _) stages_rosters_ok stage Hin) as (_ & Hres & _).
  apply Forall_forall. intros c Hc.
  pose proof (proj1 (Forall_forall _ _) Hres c Hc) as Hr.
  unfold roster in Hc. apply list_elem_of_fmap in Hc as (d & -> & Hd).
  apply list_elem_of_filter in Hd as [_ Hd].
  pose proof (proj1 (Forall_forall _ _) catalog_graphs_ok d Hd) as Hg.
  split; [exact Hr|]. split; [reflexivity | exact Hg].
Qed.

(** *** Stock *)

Lemma inventory_ok_insert k v (inventory : gmap string Z) :
  is_Some (inventory !! k) → 0 ≤ v →
  inventory_ok inventory → inventory_ok (<[k := v]> inventory).
Proof.
  intros Hk Hv [Hd Hall]. split.
  - rewrite dom_insert_L, <- Hd. apply subseteq_union_1_L.
    by apply singleton_subseteq_l, elem_of_dom.
  - by apply map_Forall_insert_2.
Qed.

Lemma inventory_ok_bump k (inventory : gmap string Z) :
  is_Some (ITEMS !! k) →
  inventory_ok inventory → inventory_ok (bump k inventory).
Proof.
  intros Hk Hok. pose proof Hok as [Hd Hall].
  assert (is_Some (inventory !! k)) as [v Hv].
  { apply elem_of_dom. rewrite Hd. by apply elem_of_dom. }
  unfold bump, get0. rewrite Hv. cbn [default from_option id].
  apply inventory_ok_insert; [by eexists | | done].
  pose proof (Hall k v Hv) as H0. simpl in H0. lia.
Qed.

Lemma items_keys_in_ITEMS k : k ∈ items_keys → is_Some (ITEMS !! k).
Proof.
  intros Hk. apply (bool_decide_unpack _).
  revert k Hk. apply Forall_forall. apply (bool_decide_unpack _). by vm_compute.
Qed.

Lemma inventory_ok_grant items (inventory : gmap string Z) :
  inventory_ok inventory → inventory_ok (grant_special_items items inventory).
Proof.
  unfold grant_special_items. revert inventory.
  induction items as [|i items IH]; intros inventory Hok; [done|].
  simpl. apply IH. case_bool_decide; [by apply inventory_ok_bump | done].
Qed.

Lemma available_items_stock (inventory : gmap string Z) k :
  k ∈ available_items inventory → ∃ v, inventory !! k = Some v ∧ 0 < v.
Proof.
  unfold available_items. intros Hin.
  apply list_elem_of_fmap in Hin as ([k' v] & -> & Hkv).
  apply elem_of_map_to_list, map_lookup_filter_Some in Hkv as [Hkv Hv].
  by exists v.
Qed.

Lemma new_player_sound name cls : player_sound (new_player name cls).
Proof.
  split_and!; [done | | done].
  unfold new_player. cbn [Player.inventory].
  apply (bool_decide_unpack _). by vm_compute.
Qed.

(** *** Pure parts of the handlers *)

Lemma resolve_sound le txt st c :
  client_sound c → client_sound (resolve le txt st c).2.
Proof.
  intros H. unfold resolve, category_rule, complications, location_bonus,
    reduce_absurdity, client_sound in *.
  repeat (client_simpl; case_match; simplify_eq); client_simpl;
    destruct_and?; split_and?; try done; lia.
Qed.

Lemma complete_session_player_sound roll found c p :
  found ∈ items_keys → client_sound c → player_sound p →
  player_sound (complete_session_player roll found c p).
Proof.
  intros Hf (_ & Hj & _) Hp. apply items_keys_in_ITEMS in Hf.
  pose proof (complete_session_player_xp roll found c p) as Hxp.
  assert (0 ≤ Player.xp (complete_session_player roll found c p)) as Hx.
  { rewrite Hxp. destruct Hp as (? & _). repeat case_match; lia. }
  split; [exact Hx|]. clear Hxp Hx.
  unfold complete_session_player. rewrite (truthy_None _ _ Hj).
  set (kept := λ q : Player.t,
         inventory_ok (Player.inventory q) ∧
         Player.flags q !! "joined_delusions" = None).
  assert (kept p) as Hk by (by destruct Hp as (_ & ? & ?)).
  set (r := if truthy (Client.effects c) "breakthrough" then _ else _).
  assert (kept r.2) as Hr.
  { subst r kept. destruct Hk. unfold bump.
    repeat case_match; player_simpl; (split; [done | by simplify_map_eq]). }
  destruct r as [bonus_xp p1]. simpl in Hr.
  set (p2 := if truthy (Client.effects c) "heated_argument" then _ else p1).
  assert (kept p2) as Hp2.
  { subst p2 kept. destruct Hr. unfold bump.
    case_match; player_simpl; (split; [done | by simplify_map_eq]). }
  set (p3 := if Client.absurdity c <=? 3 then _ else p2).
  assert (kept p3) as Hp3 by (subst p3; by case_match).
  set (p4 := Player.set_xp _ p3).
  assert (kept p4) as Hp4 by done.
  set (p5 := if negb _ then _ else p4).
  assert (kept p5) as Hp5.
  { subst p5 kept. destruct Hp4. case_match; player_simpl; [|done].
    split; [by apply inventory_ok_bump | done]. }
  unfold level_up. by case_match.
Qed.

Lemma complete_session_player_reputation roll found c p :
  truthy (Client.effects c) "heated_argument" = false →
  Player.reputation p ≤ Player.reputation (complete_session_player roll found c p).
Proof.
  intros Hh. unfold complete_session_player. rewrite Hh.
  set (kept := λ q : Player.t, Player.reputation p ≤ Player.reputation q).
  set (r := if truthy (Client.effects c) "breakthrough" then _ else _).
  assert (kept r.2) as Hr
    by (subst r kept; repeat case_match; player_simpl; lia).
  destruct r as [bonus_xp p1]. simpl in Hr.
  set (p2 := if truthy (Client.effects c) "joined_delusion" then _ else p1).
  assert (kept p2) as Hp2 by (subst p2; by case_match).
  set (p3 := if Client.absurdity c <=? 3 then _ else p2).
  assert (kept p3) as Hp3 by (subst p3; by case_match).
  set (p4 := Player.set_xp _ p3).
  assert (kept p4) as Hp4 by done.
  set (p5 := if negb _ then _ else p4).
  assert (kept p5) as Hp5 by (subst p5; by case_match).
  unfold level_up. by case_match.
Qed.

Lemma complete_session_player_completed roll found c p :
  Player.clients_completed (complete_session_player roll found c p) =
  Player.clients_completed p.
Proof.
  unfold complete_session_player.
  set (kept := λ q : Player.t,
         Player.clients_completed q = Player.clients_completed p).
  set (r := if truthy (Client.effects c) "breakthrough" then _ else _).
  assert (kept r.2) as Hr by (subst r kept; by repeat case_match).
  destruct r as [bonus_xp p1]. simpl in Hr.
  set (p2 := if truthy (Client.effects c) "heated_argument" then _ else p1).
  assert (kept p2) as Hp2 by (subst p2; by case_match).
  set (p3 := if truthy (Client.effects c) "joined_delusion" then _ else p2).
  assert (kept p3) as Hp3 by (subst p3; by case_match).
  set (p4 := if Client.absurdity c <=? 3 then _ else p3).
  assert (kept p4) as Hp4 by (subst p4; by case_match).
  set (p5 := Player.set_xp _ p4).
  assert (kept p5) as Hp5 by done.
  set (p6 := if negb _ then _ else p5).
  assert (kept p6) as Hp6 by (subst p6; by case_match).
  unfold level_up. by case_match.
Qed.

Lemma complete_session_player_grows roll found c p :
  truthy (Client.effects c) "heated_argument" = false →
  Player.xp p ≤ Player.xp (complete_session_player roll found c p) ∧
  Player.reputation p ≤ Player.reputation (complete_session_player roll found c p) ∧
  (Player.current_stage_index p ≤
     Player.current_stage_index (complete_session_player roll found c p))%nat.
Proof.
  intros Hh. split_and!.
  - rewrite complete_session_player_xp. repeat case_match; lia.
  - by apply complete_session_player_reputation.
  - by rewrite complete_session_player_stage.
Qed.

Lemma grows_refl s : grows s s.
Proof. split_and!; lia. Qed.

Lemma grows_trans s1 s2 s3 : grows s1 s2 → grows s2 s3 → grows s1 s3.
Proof. intros (? & ? & ?) (? & ? & ?). split_and!; lia. Qed.

Lemma grows_same_player s s' : player s' = player s → grows s s'.
Proof. intros H. unfold grows. rewrite H. split_and!; lia. Qed.

(** *** What loading a client leaves alone *)

Lemma same_session_display_client_node k s s' :
  display_client_node k s = Some s' → same_session s s'.
Proof.
  intros H. unfold display_client_node in H.
  destruct (cur s); simplify_eq/=. case_match; by simplify_eq.
Qed.

Lemma same_session_load_current_client s s' :
  load_current_client s = Some s' → same_session s s'.
Proof.
  intros H. unfold load_current_client in H.
  case_match; simplify_eq; [done|].
  destruct (clients s !! current_client_index s) as [a|]; simplify_eq/=.
  destruct (cur (set_current_client (Some a) s)); simplify_eq/=.
  by apply same_session_display_client_node in H.
Qed.

Lemma Sound_same_session s s' : same_session s s' → Sound s → Sound s'.
Proof.
  intros (Hp & Hh & Hc & Hi & _ & Hd & _) (? & ? & [? ?] & Hb).
  unfold Sound, roster_sync, pool_ok. rewrite Hp, Hh, Hc, Hi, Hd. done.
Qed.

Lemma Sound_cur s c : Sound s → cur s = Some c → client_sound c.
Proof.
  intros (_ & Hh & _) Hc. unfold cur in Hc.
  destruct (current_client s) as [a|]; simplify_eq/=.
  eapply Forall_lookup_1; eauto.
Qed.

Lemma Sound_upd_cur f s s' :
  (∀ c, client_sound c → client_sound (f c)) →
  Sound s → upd_cur f s = Some s' → Sound s'.
Proof.
  intros Hf (Hp & Hh & Hr & Hb) Hu. unfold upd_cur in Hu.
  destruct (current_client s) as [a|]; simplify_eq/=.
  destruct (heap s !! a) as [c|] eqn:Ha; simplify_eq/=.
  split_and!; [done | | done | done]. simpl.
  apply Forall_insert; [done|]. apply Hf. eapply Forall_lookup_1; eauto.
Qed.

Lemma upd_cur_player f s s' : upd_cur f s = Some s' → player s' = player s.
Proof.
  intros Hu. unfold upd_cur in Hu.
  destruct (current_client s) as [a|]; simplify_eq/=.
  by destruct (heap s !! a) as [c|]; simplify_eq/=.
Qed.

Lemma Sound_set_player p s :
  player_sound p →
  Player.clients_completed p = Player.clients_completed (player s) →
  Player.current_stage_index p = Player.current_stage_index (player s) →
  Sound s → Sound (set_player p s).
Proof.
  intros Hp Hc Hi (_ & Hh & [Hr1 Hr2] & Hb).
  split_and!; [done | done | | done].
  split; simpl; [by rewrite Hc | by rewrite Hi].
Qed.

(** *** Handlers *)

Lemma Sound_load_roster_fresh stage s :
  THERAPY_STAGES !! Player.current_stage_index (player s) = Some stage →
  Player.clients_completed (player s) = 0 →
  player_sound (player s) → Forall client_sound (heap s) → pool_ok s →
  Sound (set_current_client_index 0%nat (load_roster stage s)).
Proof.
  intros Hst Hc Hp Hh Hb.
  assert (stage ∈ THERAPY_STAGES) as Hin by (by eapply list_elem_of_lookup_2).
  split_and!; [done | | | done].
  - simpl. apply Forall_app. split; [done | by apply roster_sound].
  - split; [done|]. simpl. intros stage' Hst'. rewrite Hst in Hst'.
    simplify_eq. rewrite length_seq.
    by destruct (proj1 (Forall_forall _ _) stages_rosters_ok stage' Hin) as (? & _).
Qed.

Lemma Sound_start_game name cls s s' :
  Forall client_sound (heap s) → pool_ok s →
  start_game name cls s = Some s' → Sound s'.
Proof.
  intros Hh Hb H. unfold start_game in H.
  destruct (THERAPY_STAGES !! _) as [st|] eqn:Hst;
    cbn [mbind option_bind] in H; [|done].
  eapply Sound_same_session; [by eapply same_session_load_current_client|].
  apply (Sound_load_roster_fresh st (set_player (new_player name cls) s));
    [exact Hst | reflexivity | apply new_player_sound | exact Hh | exact Hb].
Qed.

Lemma first_day_Sound name cls s : first_day name cls = Some s → Sound s.
Proof.
  intros H. apply (Sound_start_game name cls (boot name cls)); [| |exact H].
  - constructor.
  - intros cb Hcb. discriminate Hcb.
Qed.

Lemma Sound_set_debate cb s :
  0 ≤ player_hp cb ≤ 20 → Sound s → Sound (set_debate (Some cb) s).
Proof. intros Hcb (? & ? & ? & _). split_and!; [done..|]. by intros ? [= <-]. Qed.

Lemma Sound_close_debate s : Sound s → Sound (set_debate None s).
Proof. intros (? & ? & ? & _). split_and!; [done..|]. by intros ? [=]. Qed.

Lemma Sound_set_stats st s : Sound s → Sound (set_stats st s).
Proof. intros Hs. apply Sound_set_player; [|done..]. by destruct Hs as [? _]. Qed.

Lemma Sound_set_choice_in_progress v s : Sound s → Sound (set_choice_in_progress v s).
Proof. done. Qed.

Lemma Sound_set_timers v s : Sound s → Sound (set_timers v s).
Proof. done. Qed.

Lemma Sound_after cb s : Sound s → Sound (after cb s).
Proof. done. Qed.

Lemma offered_wired s choice :
  Sound s → offered s choice →
  match effects choice with
  | Some eff => eff !! "joined_delusion" = None
  | None => True
  end.
Proof.
  intros (_ & Hh & _) (c & k & n & Hc & Hk & Hn).
  destruct (proj1 (Forall_forall _ _) Hh c Hc) as (_ & _ & Hall).
  pose proof (Hall k n Hk) as Hch. simpl in Hch.
  by destruct (proj1 (Forall_forall _ _) Hch choice Hn) as [? _].
Qed.

Lemma store_effects_joined (eff : gmap string Z) :
  eff !! "joined_delusion" = None →
  store_effects eff ∅ !! "joined_delusion" = None.
Proof.
  intros H. unfold store_effects. rewrite lookup_union_None. split; [|done].
  apply map_lookup_filter_None. by left.
Qed.

(** *** Handlers: the invariant is kept and the progress is not lost *)

Lemma complete_session_keeps roll found s s' :
  found ∈ items_keys → Inv s → Sound s →
  complete_session roll found s = Some s' → Sound s' ∧ grows s s'.
Proof.
  intros Hf Hi Hs H. unfold complete_session in H.
  destruct (cur s) as [c|] eqn:Hc; simplify_eq/=. split.
  - apply Sound_set_player; [| | |done].
    + apply complete_session_player_sound;
        [done | by eapply Sound_cur | by destruct Hs].
    + apply complete_session_player_completed.
    + apply complete_session_player_stage.
  - apply complete_session_player_grows.
    destruct (Inv_cur _ _ Hi Hc) as (Hh & _). by apply truthy_None.
Qed.

Lemma open_debate_modal_keeps s s' :
  Inv s → Sound s → open_debate_modal s = Some s' → Sound s' ∧ grows s s'.
Proof.
  intros (((_ & _ & _ & Hc) & _) & _) Hs H.
  unfold open_debate_modal in H.
  destruct (cur s); simplify_eq/=. split; [|by apply grows_same_player].
  apply Sound_set_debate; [|done]. simpl.
  unfold in_range, stats_of in *. lia.
Qed.

Lemma continue_after_choice_keeps choice roll found s s' :
  Inv s → Sound s → found ∈ items_keys → choice_safe choice →
  match effects choice with
  | Some eff => eff !! "joined_delusion" = None
  | None => True
  end →
  continue_after_choice choice roll found s = Some s' →
  Sound s' ∧ grows s s'.
Proof.
  intros Hi Hs Hf Hsafe Hw H. unfold continue_after_choice in H.
  assert (∀ s0 s1, Inv s0 → Sound s0 →
    match next choice with
    | Some next_node =>
        upd_cur (Client.set_node next_node) s0 ≫= display_client_node_safe next_node
    | None =>
        complete_session roll found s0 ≫= λ s2, Some (after AdvanceClientSafe s2)
    end = Some s1 → Sound s1 ∧ grows s0 s1) as Hproceed.
  { intros s0 s1 Hi0 H0 H1. destruct (next choice) as [n|].
    - destruct (upd_cur _ s0) as [s2|] eqn:E; simplify_eq/=.
      assert (Sound s2) as Hs2
        by (eapply Sound_upd_cur; [|done..]; by intros c Hc).
      pose proof (same_session_display_client_node _ _ _ H1) as Hsame.
      split; [by eapply Sound_same_session|].
      apply grows_same_player. destruct Hsame as (-> & _).
      exact (upd_cur_player _ _ _ E).
    - destruct (complete_session roll found s0) as [s2|] eqn:E; simplify_eq/=.
      destruct (complete_session_keeps _ _ _ _ Hf Hi0 H0 E) as [Hs2 Hg2].
      split; [exact Hs2 | exact Hg2]. }
  unfold choice_safe in Hsafe.
  destruct (effects choice) as [eff|]; [|by eapply Hproceed].
  case_bool_decide; [by eapply Hproceed|].
  destruct (if has_key eff "absurdity" then _ else _) as [s1|] eqn:E1;
    simplify_eq/=.
  assert (Sound s1 ∧ Inv s1 ∧ player s1 = player s) as (Hs1 & Hi1 & Hp1).
  { destruct (has_key eff "absurdity"); simplify_eq; [|done]. split_and!.
    - eapply Sound_upd_cur; [|done..]. by intros c Hc.
    - eapply Inv_upd_cur; [|done..].
      intros c (? & ? & ?). split_and!; [done | simpl; lia | done].
    - by eapply upd_cur_player. }
  destruct (truthy eff "start_debate") eqn:Hd.
  { destruct (open_debate_modal_keeps _ _ Hi1 Hs1 H) as [Hs' Hg].
    split; [done|]. eapply grows_trans; [by apply grows_same_player|done]. }
  destruct (upd_cur _ s1) as [s2|] eqn:E2; simplify_eq/=.
  destruct (upd_cur _ s2) as [s3|] eqn:E3; simplify_eq/=.
  assert (player s3 = player s) as Hp3.
  { rewrite (upd_cur_player _ _ _ E3), (upd_cur_player _ _ _ E2). exact Hp1. }
  assert (eff !! "heated_argument" = None) as Hnone.
  { destruct (eff !! "heated_argument") eqn:Hh; [|done].
    discriminate Hsafe. by eexists. }
  assert (Sound s3 ∧ Inv s3) as [Hs3 Hi3].
  { unfold upd_cur in E2, E3.
    destruct (current_client s1) as [a|] eqn:Ea; simplify_eq/=.
    destruct (heap s1 !! a) as [c|] eqn:Hc; simplify_eq/=.
    rewrite Ea in E3. simpl in E3.
    rewrite list_lookup_insert_eq in E3 by (by eapply lookup_lt_Some).
    simplify_eq/=.
    destruct Hs1 as (Hp & Hh & Hr & Hb). destruct Hi1 as (Hip & Hih & Hid).
    pose proof (Forall_lookup_1 _ _ _ _ Hh Hc) as (? & ? & ?).
    pose proof (Forall_lookup_1 _ _ _ _ Hih Hc) as (? & ? & ?).
    split.
    - split_and!; [done | | done | done]. simpl.
      apply Forall_insert; [apply Forall_insert; [done|] |].
      + split; [done|]. split; [apply lookup_empty | done].
      + split; [done|]. split; [|done]. simpl. by apply store_effects_joined.
    - split_and!; [done | | done]. simpl.
      apply Forall_insert; [apply Forall_insert; [done|] |].
      + by split_and!.
      + split_and!; [| done..]. simpl. by apply store_effects_heated. }
  destruct (Hproceed _ _ Hi3 Hs3 H) as [Hs' Hg]. split; [done|].
  eapply grows_trans; [by apply grows_same_player|done].
Qed.

Lemma on_choose_keeps choice roll found s s' :
  Inv s → Sound s → found ∈ items_keys → choice_safe choice →
  match effects choice with
  | Some eff => eff !! "joined_delusion" = None
  | None => True
  end →
  on_choose choice roll found s = Some s' → Sound s' ∧ grows s s'.
Proof.
  intros Hi Hs Hf Hsafe Hw H. unfold on_choose in H.
  destruct (THERAPY_STAGES !! _) as [stage|]; simplify_eq/=.
  destruct (current_client s) as [a|] eqn:Ea; simplify_eq/=.
  destruct (heap s !! a) as [c|] eqn:Hc; simplify_eq/=.
  pose proof (resolve_stats (Stage.bonuses (Stage.location_effects stage))
                (lower (text choice)) (stats_of s) c) as Hst.
  pose proof (resolve_client (Stage.bonuses (Stage.location_effects stage))
                (lower (text choice)) (stats_of s) c) as Hcl.
  pose proof (resolve_sound (Stage.bonuses (Stage.location_effects stage))
                (lower (text choice)) (stats_of s) c) as Hsd.
  destruct (resolve _ _ _ _) as [st1 c1]. simpl in Hst, Hcl, Hsd.
  set (s1 := set_stats st1 (set_heap (<[a:=c1]> (heap s)) s)) in *.
  assert (Inv s1) as Hi1.
  { destruct Hi as (Hp & Hh & Hd). apply Inv_set_stats; [apply Hst, Hp|].
    split_and!; [done | | done]. simpl.
    apply Forall_insert; [done|]. apply Hcl. by eapply Forall_lookup_1. }
  assert (Sound s1) as Hs1.
  { destruct Hs as (Hp & Hh & Hr & Hb). apply Sound_set_stats.
    split_and!; [done | | done | done]. simpl.
    apply Forall_insert; [done|]. apply Hsd. by eapply Forall_lookup_1. }
  assert (grows s s1) as Hg1 by (by split_and!).
  destruct (reply choice); simplify_eq; [done|].
  destruct (continue_after_choice_keeps _ _ _ _ _ Hi1 Hs1 Hf Hsafe Hw H)
    as [Hs' Hg].
  split; [done|]. by eapply grows_trans.
Qed.

Lemma on_choose_safe_keeps choice roll found s s' :
  Inv s → Sound s → found ∈ items_keys → choice_safe choice →
  match effects choice with
  | Some eff => eff !! "joined_delusion" = None
  | None => True
  end →
  on_choose_safe choice roll found s = Some s' → Sound s' ∧ grows s s'.
Proof.
  intros Hi Hs Hf Hsafe Hw H. unfold on_choose_safe in H.
  destruct (choice_in_progress s); simplify_eq; [split; [done|apply grows_refl]|].
  exact (on_choose_keeps _ _ _ _ _ (Inv_set_choice_in_progress _ _ Hi)
           (Sound_set_choice_in_progress _ _ Hs) Hf Hsafe Hw H).
Qed.

Lemma apply_item_keeps item_name s s' :
  Sound s → apply_item item_name s = Some s' → Sound s' ∧ grows s s'.
Proof.
  intros Hs H. unfold apply_item in H.
  destruct (cur s); simplify_eq; [|split; [done|apply grows_refl]].
  destruct (get0 _ _ <=? 0) eqn:Hg; simplify_eq; [split; [done|apply grows_refl]|].
  destruct (Player.inventory (player s) !! item_name) as [count|] eqn:Hcount;
    simplify_eq/=.
  destruct (ITEMS !! item_name) as [info|]; simplify_eq/=.
  split; [|by split_and!].
  apply Sound_set_player; [| done | done | done].
  destruct Hs as ((Hx & Hinv & Hj) & _). split_and!; [done | | done]. simpl.
  apply inventory_ok_insert; [by eexists | | done].
  unfold get0 in Hg. rewrite Hcount in Hg. simpl in Hg. lia.
Qed.

Lemma player_action_keeps action_type dice_roll client_dice chosen s s' :
  Inv s → Sound s → 1 ≤ dice_roll → 1 ≤ client_dice →
  (available_items (Player.inventory (player s)) = [] ∨
   chosen ∈ available_items (Player.inventory (player s))) →
  player_action action_type dice_roll client_dice chosen s = Some s' →
  Sound s' ∧ grows s s'.
Proof.
  intros Hi Hs Hd1 Hd2 Hav H. unfold player_action in H.
  destruct (debate s) as [cb|] eqn:Hcb; cbn [mbind option_bind] in H; [|done].
  destruct (cur s) as [c|] eqn:Hc; cbn [mbind option_bind] in H; [|done].
  pose proof (Inv_cur _ _ Hi Hc) as (_ & Habs & _).
  assert (0 ≤ Client.absurdity c / 3) as Hdiv by (apply Z.div_pos; lia).
  assert (0 ≤ Patience (stats_of s) / 3) as Hpdiv.
  { destruct Hi as (((Hp & _) & _) & _). unfold in_range, stats_of in *.
    apply Z.div_pos; lia. }
  assert (0 ≤ player_hp cb ≤ 20) as Hhp
    by (destruct Hs as (_ & _ & _ & Hb); by apply Hb).
  destruct (match action_type with empathy => _ | _ => _ end)
    as [[[hp chp] s1]|] eqn:Hr; cbn [mbind option_bind] in H; [|done].
  assert (Sound s1 ∧ 0 ≤ hp ≤ 20 ∧ grows s s1) as (Hs1 & Hhp1 & Hg1).
  { destruct action_type; simplify_eq; try (split_and!; [done | lia | lia | apply grows_refl]).
    - split_and!; [| | | by split_and!].
      + apply Sound_set_player; [|done..].
        destruct Hs as ((? & ? & ?) & _). split_and!; [done | done |].
        simpl. by rewrite lookup_insert_ne.
      + lia.
      + lia.
    - case_bool_decide as Hnil; simplify_eq;
        [split_and!; [done | lia | lia | apply grows_refl]|].
      destruct Hav as [Hav|Hav]; [done|].
      destruct (Player.inventory (player s) !! chosen) as [count|] eqn:Hcount;
        cbn [mbind option_bind] in Hr; simplify_eq.
      apply available_items_stock in Hav as (v & Hv & Hpos).
      split_and!; [| | | by split_and!].
      + apply Sound_set_player; [|done..].
        destruct Hs as ((? & ? & ?) & _). split_and!; [done | | done]. simpl.
        apply inventory_ok_insert; [by eexists | | done].
        rewrite Hcount in Hv. simplify_eq. lia.
      + repeat case_match; lia.
      + repeat case_match; lia. }
  clear Hr. destruct (chp <=? 0).
  - destruct (upd_cur _ _) as [s2|] eqn:Hu; cbn [mbind option_bind] in H;
      simplify_eq.
    split.
    + apply Sound_after, Sound_set_debate; [done|].
      eapply Sound_upd_cur; [| |done].
      * intros c0 Hc0. exact Hc0.
      * by apply Sound_set_stats.
    + eapply grows_trans; [exact Hg1|]. unfold grows.
      cbn [after set_timers set_debate player].
      rewrite (upd_cur_player _ _ _ Hu). by split_and!.
  - destruct (truthy _ "defended").
    + assert (Sound (set_player (Player.set_flags
                 (<["defended" := 0]> (Player.flags (player s1))) (player s1)) s1))
        as Hs2.
      { apply Sound_set_player; [|done..].
        destruct Hs1 as ((? & ? & ?) & _). split_and!; [done | done |].
        simpl. by rewrite lookup_insert_ne. }
      case_match; simplify_eq.
      * split.
        { apply Sound_after, Sound_set_stats, Sound_set_debate; [simpl; lia|done]. }
        eapply grows_trans; [exact Hg1|]. by split_and!.
      * split.
        { apply Sound_set_debate; [simpl; lia|done]. }
        eapply grows_trans; [exact Hg1|]. by split_and!.
    + case_match; simplify_eq.
      * split.
        { apply Sound_after, Sound_set_stats, Sound_set_debate; [simpl; lia|done]. }
        eapply grows_trans; [exact Hg1|]. by split_and!.
      * split.
        { apply Sound_set_debate; [simpl; lia|done]. }
        eapply grows_trans; [exact Hg1|]. by split_and!.
Qed.

Lemma apply_stage_bonus_keeps stage p :
  stage ∈ THERAPY_STAGES → player_sound p →
  player_sound (apply_stage_bonus (Stage.stage_bonus stage) p) ∧
  Player.xp p ≤ Player.xp (apply_stage_bonus (Stage.stage_bonus stage) p) ∧
  Player.reputation p ≤
    Player.reputation (apply_stage_bonus (Stage.stage_bonus stage) p) ∧
  Player.clients_completed (apply_stage_bonus (Stage.stage_bonus stage) p) =
    Player.clients_completed p.
Proof.
  intros Hin Hp.
  pose proof (proj1 (Forall_forall _ _) stage_bonus_nonneg stage Hin) as [_ Hr].
  pose proof (proj1 (Forall_forall _ _) stages_rosters_ok stage Hin)
    as (_ & _ & Hx).
  unfold apply_stage_bonus, get0, player_sound in *.
  destruct (Stage.stage_bonus stage !! "all_stats") as [d|];
    destruct (Stage.stage_bonus stage !! "reputation") as [r|];
    destruct (Stage.stage_bonus stage !! "xp") as [x|];
    simpl in Hr, Hx; player_simpl; destruct_and?; split_and?; try done; lia.
Qed.

Lemma advance_client_keeps s s' :
  Sound s → advance_client s = Some s' → Sound s' ∧ grows s s'.
Proof.
  intros Hs H. unfold advance_client in H.
  set (s0 := set_player _ (set_current_client_index _ s)) in H.
  assert (Sound s0 ∧ grows s s0) as [Hs0 Hg0].
  { destruct Hs as (Hp & Hh & [Hr1 Hr2] & Hb). split; [|by split_and!].
    split_and!; [done | done | | done].
    split; [|done]. subst s0.
    cbn [player set_player Player.clients_completed Player.set_clients_completed
         current_client_index set_current_client_index]. lia. }
  clearbody s0.
  assert (∀ s1, (if (length (clients s0) <=? current_client_index s0)%nat
                 then Some (end_day s0) else load_current_client s0) = Some s1 →
                Sound s1 ∧ grows s s1) as Hfin.
  { intros s1 H1. case_match; simplify_eq; [done|].
    pose proof (same_session_load_current_client _ _ H1) as Hsame.
    split; [by eapply Sound_same_session|].
    eapply grows_trans; [done|]. apply grows_same_player. by destruct Hsame. }
  destruct (THERAPY_STAGES !! Player.current_stage_index (player s0))
    as [stage|]; cbn [mbind option_bind] in H; [|done].
  destruct (Stage.clients_needed stage <=? _); [|by apply Hfin].
  destruct (_ <? _)%nat; [|by apply Hfin].
  cbn [Player.current_stage_index Player.set_clients_completed
       Player.set_current_stage_index] in H.
  destruct (THERAPY_STAGES !! S _) as [new|] eqn:Hnew;
    cbn [mbind option_bind] in H; [|done].
  pose proof (same_session_load_current_client _ _ H) as Hsame.
  assert (new ∈ THERAPY_STAGES) as Hin by (by eapply list_elem_of_lookup_2).
  destruct (apply_stage_bonus_keeps new
              (Player.set_clients_completed 0
                 (Player.set_current_stage_index
                    (S (Player.current_stage_index (player s0))) (player s0))) Hin)
    as (Hb1 & Hb2 & Hb3 & Hb4).
  { by destruct Hs0 as (? & _). }
  split.
  - eapply Sound_same_session; [exact Hsame|].
    apply Sound_load_roster_fresh.
    + cbn [player set_player Player.current_stage_index Player.set_inventory].
      rewrite apply_stage_bonus_stage. exact Hnew.
    + cbn [player set_player Player.clients_completed Player.set_inventory].
      rewrite Hb4. reflexivity.
    + cbn [player set_player]. destruct Hb1 as (? & ? & ?).
      split_and!; [done | by apply inventory_ok_grant | done].
    + by destruct Hs0 as (_ & ? & _).
    + by destruct Hs0 as (_ & _ & _ & ?).
  - eapply grows_trans; [exact Hg0|]. destruct Hsame as (Hp' & _).
    unfold grows. rewrite Hp'.
    cbn [player set_player load_roster set_clients set_heap
         set_current_client_index Player.xp Player.reputation
         Player.current_stage_index Player.set_inventory].
    rewrite apply_stage_bonus_stage.
    cbn [Player.xp Player.reputation Player.current_stage_index
         Player.set_clients_completed Player.set_current_stage_index] in *.
    split_and!; [lia | lia | lia].
Qed.

Lemma after_victory_keeps roll found s s' :
  found ∈ items_keys → Inv s → Sound s →
  after_victory roll found s = Some s' → Sound s' ∧ grows s s'.
Proof.
  intros Hf Hi Hs H. unfold after_victory in H.
  destruct (complete_session _ _ _) as [s1|] eqn:Hc;
    cbn [mbind option_bind] in H; [|done].
  destruct (complete_session_keeps _ _ _ _ Hf (Inv_set_debate None _ Hi)
              (Sound_close_debate _ Hs) Hc) as [Hs1 Hg1].
  destruct (advance_client_keeps _ _ Hs1 H) as [Hs' Hg].
  split; [done|]. eapply grows_trans; [|exact Hg]. exact Hg1.
Qed.

Lemma after_defeat_keeps s s' :
  Sound s → after_defeat s = Some s' → Sound s' ∧ grows s s'.
Proof.
  intros Hs H. unfold after_defeat in H.
  destruct (upd_cur _ _) as [s1|] eqn:H1; cbn [mbind option_bind] in H; [|done].
  destruct (upd_cur _ s1) as [s2|] eqn:H2; cbn [mbind option_bind] in H; [|done].
  pose proof (same_session_load_current_client _ _ H) as Hsame.
  split.
  - eapply Sound_same_session; [exact Hsame|].
    eapply Sound_upd_cur; [| |exact H2]; [by intros c Hc|].
    eapply Sound_upd_cur; [| |exact H1]; [by intros c Hc|].
    by apply Sound_close_debate.
  - apply grows_same_player. destruct Hsame as (-> & _).
    by rewrite (upd_cur_player _ _ _ H2), (upd_cur_player _ _ _ H1).
Qed.

Lemma run_keeps cb roll found s s' :
  found ∈ items_keys → Inv s → Sound s →
  run cb roll found s = Some s' → Sound s' ∧ grows s s'.
Proof.
  intros Hf Hi Hs H. destruct cb; simpl in H.
  - exact (advance_client_keeps _ _ (Sound_set_choice_in_progress false _ Hs) H).
  - by eapply after_victory_keeps.
  - by eapply after_defeat_keeps.
Qed.

Lemma start_game_player name cls s s' :
  start_game name cls s = Some s' → player s' = new_player name cls.
Proof.
  intros H. unfold start_game in H.
  destruct (THERAPY_STAGES !! _) as [st|];
    cbn [mbind option_bind] in H; [|done].
  by destruct (same_session_load_current_client _ _ H) as (-> & _).
Qed.

Lemma step_keeps s s' :
  Inv s → Sound s → step s s' →
  Sound s' ∧ ((∃ name cls, player s' = new_player name cls) ∨ grows s s').
Proof.
  intros Hi Hs [name cls s1 H | choice roll found s1 Ho Hf H
             | choice roll found s1 Ho Hf H | item_name s1 H | s1 H
             | action_type dice_roll client_dice chosen s1 Hd1 Hd2 Hav H
             | i cb roll found s1 _ Hf H | ].
  - split.
    + destruct Hs as (_ & Hh & _ & Hb). exact (Sound_start_game _ _ _ _ Hh Hb H).
    + left. exists name, cls. exact (start_game_player _ _ _ _ H).
  - destruct (on_choose_safe_keeps _ _ _ _ _ Hi Hs Hf (offered_safe _ _ Hi Ho)
                (offered_wired _ _ Hs Ho) H) as [? ?]. by split; [|right].
  - destruct (continue_after_choice_keeps _ _ _ _ _ Hi Hs Hf
                (offered_safe _ _ Hi Ho) (offered_wired _ _ Hs Ho) H) as [? ?].
    by split; [|right].
  - destruct (apply_item_keeps _ _ _ Hs H) as [? ?]. by split; [|right].
  - destruct (open_debate_modal_keeps _ _ Hi Hs H) as [? ?]. by split; [|right].
  - destruct (player_action_keeps _ _ _ _ _ _ Hi Hs (proj1 Hd1) (proj1 Hd2) Hav H)
      as [? ?]. by split; [|right].
  - destruct (run_keeps _ _ _ _ _ Hf (Inv_set_timers _ _ Hi)
                (Sound_set_timers _ _ Hs) H) as [? ?]. by split; [|right].
  - split; [done|]. right. by apply grows_same_player.
Qed.

Lemma reachable_Sound s : reachable s → Sound s.
Proof.
  induction 1 as [name cls s H | s s' Hr IH Hstep].
  - by eapply first_day_Sound.
  - by destruct (step_keeps _ _ (reachable_Inv _ Hr) IH Hstep).
Qed.

(** ** The ending on show, and the choice lock *)

Lemma display_client_node_day k s s' :
  display_client_node k s = Some s' → day_kept s s'.
Proof.
  intros H. unfold display_client_node in H.
  destruct (cur s); simplify_eq/=. case_match; simplify_eq; [by left | by right].
Qed.

Lemma load_current_client_day s s' :
  load_current_client s = Some s' → day_kept s s'.
Proof.
  intros H. unfold load_current_client in H.
  case_match; simplify_eq; [by right|].
  destruct (clients s !! current_client_index s) as [a|]; simplify_eq/=.
  destruct (cur (set_current_client (Some a) s)); simplify_eq/=.
  apply display_client_node_day in H. exact H.
Qed.

Lemma start_game_frame name cls s s' :
  start_game name cls s = Some s' →
  day_kept s s' ∧ choice_in_progress s' = choice_in_progress s ∧
  debate s' = debate s ∧ timers s' = timers s.
Proof.
  intros H. unfold start_game in H.
  destruct (THERAPY_STAGES !! _) as [st|];
    cbn [mbind option_bind] in H; [|done].
  pose proof (load_current_client_day _ _ H) as Hd.
  destruct (same_session_load_current_client _ _ H)
    as (_ & _ & _ & _ & Hc & Hdb & Ht).
  split_and!; [exact Hd | exact Hc | exact Hdb | exact Ht].
Qed.

Lemma complete_session_frame roll found s s' :
  complete_session roll found s = Some s' →
  day_end s' = day_end s ∧ choice_in_progress s' = choice_in_progress s.
Proof.
  intros H. unfold complete_session in H.
  by destruct (cur s); simplify_eq/=.
Qed.

Lemma open_debate_modal_frame s s' :
  open_debate_modal s = Some s' →
  day_end s' = day_end s ∧ choice_in_progress s' = choice_in_progress s ∧
  is_Some (debate s') ∧ player s' = player s ∧ heap s' = heap s ∧
  timers s' = timers s.
Proof.
  intros H. unfold open_debate_modal in H.
  destruct (cur s); simplify_eq/=. split_and!; [done | done | by eexists | done..].
Qed.

Lemma apply_item_frame item_name s s' :
  apply_item item_name s = Some s' →
  day_end s' = day_end s ∧ choice_in_progress s' = choice_in_progress s.
Proof.
  intros H. unfold apply_item in H.
  destruct (cur s); simplify_eq; [|done].
  case_match; simplify_eq; [done|].
  destruct (Player.inventory (player s) !! item_name); simplify_eq/=.
  by destruct (ITEMS !! item_name) as [info|]; simplify_eq/=.
Qed.

Lemma player_action_frame action_type dice_roll client_dice chosen s s' :
  player_action action_type dice_roll client_dice chosen s = Some s' →
  day_end s' = day_end s ∧ choice_in_progress s' = choice_in_progress s ∧
  is_Some (debate s').
Proof.
  intros H. unfold player_action in H.
  destruct (debate s) as [cb|]; cbn [mbind option_bind] in H; [|done].
  destruct (cur s) as [c|]; cbn [mbind option_bind] in H; [|done].
  destruct (match action_type with empathy => _ | _ => _ end)
    as [[[hp chp] s0]|] eqn:Hr; cbn [mbind option_bind] in H; [|done].
  assert (day_end s0 = day_end s ∧
          choice_in_progress s0 = choice_in_progress s) as [Hd Hc].
  { destruct action_type; simplify_eq; try done.
    case_bool_decide; simplify_eq; [done|].
    destruct (Player.inventory (player s) !! chosen);
      cbn [mbind option_bind] in Hr; by simplify_eq. }
  clear Hr. destruct (chp <=? 0).
  - destruct (upd_cur _ _) as [s2|] eqn:Hu; cbn [mbind option_bind] in H;
      simplify_eq.
    apply upd_cur_frame in Hu as (_ & _ & _ & _ & _ & _ & Hd2 & Hc2 & _).
    cbn [day_end choice_in_progress debate after set_timers set_debate].
    split_and!; [by rewrite Hd2 | by rewrite Hc2 | by eexists].
  - destruct (truthy _ "defended"); case_match; simplify_eq;
      (split_and!; [exact Hd | exact Hc | by eexists]).
Qed.

Lemma advance_client_frame s s' :
  advance_client s = Some s' →
  day_kept s s' ∧ choice_in_progress s' = choice_in_progress s ∧
  debate s' = debate s.
Proof.
  intros H. unfold advance_client in H.
  set (s0 := set_player _ (set_current_client_index _ s)) in H.
  assert (day_end s0 = day_end s ∧
          choice_in_progress s0 = choice_in_progress s ∧
          debate s0 = debate s) as (Hd0 & Hc0 & Hb0) by done.
  clearbody s0.
  assert (∀ s1, (if (length (clients s0) <=? current_client_index s0)%nat
                 then Some (end_day s0) else load_current_client s0) = Some s1 →
                day_kept s s1 ∧ choice_in_progress s1 = choice_in_progress s ∧
                debate s1 = debate s) as Hfin.
  { intros s1 H1. case_match; simplify_eq; [split_and!; [by right | done..]|].
    destruct (same_session_load_current_client _ _ H1)
      as (_ & _ & _ & _ & Hc & Hb & _).
    split_and!; [| congruence | congruence].
    destruct (load_current_client_day _ _ H1) as [Hk|Hk]; [left|by right].
    congruence. }
  destruct (THERAPY_STAGES !! Player.current_stage_index (player s0))
    as [stage|]; cbn [mbind option_bind] in H; [|done].
  destruct (Stage.clients_needed stage <=? _); [|by apply Hfin].
  destruct (_ <? _)%nat; [|by apply Hfin].
  cbn [Player.current_stage_index Player.set_clients_completed
       Player.set_current_stage_index] in H.
  destruct (THERAPY_STAGES !! S _) as [new|] eqn:Hnew;
    cbn [mbind option_bind] in H; [|done].
  destruct (same_session_load_current_client _ _ H)
    as (_ & _ & _ & _ & Hc & Hb & _).
  split_and!; [| by rewrite Hc | by rewrite Hb].
  destruct (load_current_client_day _ _ H) as [Hk|Hk]; [left|by right].
  by rewrite Hk.
Qed.

Lemma after_victory_frame roll found s s' :
  after_victory roll found s = Some s' →
  day_kept s s' ∧ choice_in_progress s' = choice_in_progress s ∧
  debate s' = None.
Proof.
  intros H. unfold after_victory in H.
  destruct (complete_session _ _ _) as [s1|] eqn:Hc;
    cbn [mbind option_bind] in H; [|done].
  assert (debate s1 = None) as Hb1.
  { unfold complete_session in Hc.
    by destruct (cur (set_debate None s)); simplify_eq/=. }
  apply complete_session_frame in Hc as [Hd1 Hc1].
  destruct (advance_client_frame _ _ H) as (Hk & Hc2 & Hb2).
  split_and!; [| by rewrite Hc2, Hc1 | by rewrite Hb2].
  destruct Hk as [Hk|Hk]; [left|by right]. by rewrite Hk, Hd1.
Qed.

Lemma after_defeat_frame s s' :
  after_defeat s = Some s' →
  day_kept s s' ∧ choice_in_progress s' = choice_in_progress s ∧
  debate s' = None.
Proof.
  intros H. unfold after_defeat in H.
  destruct (upd_cur _ _) as [s1|] eqn:H1; cbn [mbind option_bind] in H; [|done].
  destruct (upd_cur _ s1) as [s2|] eqn:H2; cbn [mbind option_bind] in H; [|done].
  apply upd_cur_frame in H1 as (_ & _ & Hb1 & _ & _ & _ & Hd1 & Hc1 & _).
  apply upd_cur_frame in H2 as (_ & _ & Hb2 & _ & _ & _ & Hd2 & Hc2 & _).
  destruct (same_session_load_current_client _ _ H)
    as (_ & _ & _ & _ & Hc & Hb & _).
  split_and!; [| by rewrite Hc, Hc2, Hc1 | by rewrite Hb, Hb2, Hb1].
  destruct (load_current_client_day _ _ H) as [Hk|Hk]; [left|by right].
  by rewrite Hk, Hd2, Hd1.
Qed.

Lemma continue_after_choice_day choice roll found s s' :
  continue_after_choice choice roll found s = Some s' → day_kept s s'.
Proof.
  intros H. unfold continue_after_choice in H.
  assert (∀ s0 s1, day_end s0 = day_end s →
    match next choice with
    | Some next_node =>
        upd_cur (Client.set_node next_node) s0 ≫= display_client_node_safe next_node
    | None =>
        complete_session roll found s0 ≫= λ s2, Some (after AdvanceClientSafe s2)
    end = Some s1 → day_kept s s1) as Hproceed.
  { intros s0 s1 H0 H1. destruct (next choice) as [n|].
    - destruct (upd_cur _ s0) as [s2|] eqn:E; cbn [mbind option_bind] in H1;
        [|done].
      apply upd_cur_frame in E as (_ & _ & _ & _ & _ & _ & Hd2 & _).
      destruct (display_client_node_day _ _ _ H1) as [Hk|Hk]; [left|by right].
      rewrite Hk. cbn [day_end set_choice_in_progress]. congruence.
    - destruct (complete_session roll found s0) as [s2|] eqn:E;
        cbn [mbind option_bind] in H1; [|done].
      apply complete_session_frame in E as [Hd2 _]. simplify_eq.
      left. cbn [day_end after set_timers]. congruence. }
  destruct (effects choice) as [eff|]; [|by eapply Hproceed].
  case_bool_decide; [by eapply Hproceed|].
  destruct (if has_key eff "absurdity" then _ else _) as [s1|] eqn:E1;
    cbn [mbind option_bind] in H; [|done].
  assert (day_end s1 = day_end s) as Hd1.
  { destruct (has_key eff "absurdity"); simplify_eq; [|done].
    by apply upd_cur_frame in E1 as (_ & _ & _ & _ & _ & _ & ? & _). }
  destruct (truthy eff "start_debate").
  { apply open_debate_modal_frame in H as (Hd & _). left. congruence. }
  destruct (upd_cur _ s1) as [s2|] eqn:E2; cbn [mbind option_bind] in H; [|done].
  destruct (upd_cur _ s2) as [s3|] eqn:E3; cbn [mbind option_bind] in H; [|done].
  apply upd_cur_frame in E2 as (_ & _ & _ & _ & _ & _ & Hd2 & _).
  apply upd_cur_frame in E3 as (_ & _ & _ & _ & _ & _ & Hd3 & _).
  eapply Hproceed; [|exact H]. congruence.
Qed.

Lemma on_choose_safe_day choice roll found s s' :
  on_choose_safe choice roll found s = Some s' → day_kept s s'.
Proof.
  intros H. unfold on_choose_safe in H.
  destruct (choice_in_progress s); simplify_eq; [by left|].
  unfold on_choose in H.
  destruct (THERAPY_STAGES !! _) as [stage|]; cbn [mbind option_bind] in H; [|done].
  destruct (current_client _) as [a|]; cbn [mbind option_bind] in H; [|done].
  destruct (heap _ !! a) as [c|]; cbn [mbind option_bind] in H; [|done].
  destruct (resolve _ _ _ _) as [st1 c1].
  destruct (reply choice); simplify_eq; [by left|].
  apply continue_after_choice_day in H. exact H.
Qed.

Lemma run_day cb roll found s s' :
  run cb roll found s = Some s' → day_kept s s'.
Proof.
  intros H. destruct cb; simpl in H.
  - apply advance_client_frame in H as (Hk & _). exact Hk.
  - by apply after_victory_frame in H as (Hk & _).
  - by apply after_defeat_frame in H as (Hk & _).
Qed.

Lemma step_day s s' : step s s' → day_kept s s'.
Proof.
  intros [name cls s1 H | choice roll found s1 _ _ H
         | choice roll found s1 _ _ H | item_name s1 H | s1 H
         | action_type dice_roll client_dice chosen s1 _ _ _ H
         | i cb roll found s1 _ _ H | ].
  - by apply start_game_frame in H as (Hk & _).
  - by eapply on_choose_safe_day.
  - by eapply continue_after_choice_day.
  - apply apply_item_frame in H as [Hd _]. by left.
  - apply open_debate_modal_frame in H as (Hd & _). by left.
  - apply player_action_frame in H as (Hd & _). by left.
  - apply run_day in H. exact H.
  - by right.
Qed.

(** *** Endings of a sound player *)

Lemma sound_player_ending p :
  player_ok p → player_sound p →
  ending_name (determine_ending p) ∉ dead_endings.
Proof.
  intros ((_ & _ & _ & Hc) & Hm & Hh & Hr) (_ & _ & Hj).
  unfold in_range in Hc.
  unfold determine_ending, truthy, get0. rewrite Hm, Hh, Hj.
  replace (Composure (Player.stats p) <=? 0) with false by lia.
  cbn [negb Z.eqb orb default from_option id Z.leb Z.compare].
  repeat case_match; try lia;
    unfold ending_name; cbn [fst];
    apply (bool_decide_unpack _); vm_compute; exact I.
Qed.

Lemma reachable_day s e :
  reachable s → day_end s = Some e → ending_name e ∉ dead_endings.
Proof.
  intros Hr. revert e.
  assert (∀ s0 s1, day_kept s0 s1 → Inv s1 → Sound s1 →
            (∀ e, day_end s0 = Some e → ending_name e ∉ dead_endings) →
            ∀ e, day_end s1 = Some e → ending_name e ∉ dead_endings) as Hk.
  { intros s0 s1 [Hk|Hk] Hi Hs IH e He.
    - apply IH. by rewrite <- Hk.
    - rewrite Hk in He. injection He as <-.
      apply sound_player_ending; [by destruct Hi | by destruct Hs]. }
  induction Hr as [name cls s H | s s' Hr IH Hstep].
  - apply (Hk (boot name cls) s).
    + exact (proj1 (start_game_frame name cls (boot name cls) s H)).
    + exact (first_day_Inv name cls s H).
    + exact (first_day_Sound name cls s H).
    + intros e He. discriminate He.
  - apply (Hk s s'); [by apply step_day | | | exact IH].
    + eapply reachable_Inv. by eapply reachable_step.
    + eapply reachable_Sound. by eapply reachable_step.
Qed.

(** ** Bounds kept during a day *)

(** X1: every client instance of a state the application can reach has a
    non-negative absurdity and a resistance between 1 and 10, whatever the
    choices, effects, combats and defeats it went through. *)
Theorem clients_within_bounds s c :
  reachable s → c ∈ heap s →
  0 ≤ Client.absurdity c ∧ 1 ≤ Client.resistance c ≤ 10.
Proof.
  intros Hr Hc.
  destruct (reachable_Inv s Hr) as (_ & Hh & _).
  destruct (reachable_Sound s Hr) as (_ & Hh' & _).
  destruct (proj1 (Forall_forall _ _) Hh c Hc) as (_ & ? & _).
  destruct (proj1 (Forall_forall _ _) Hh' c Hc) as (? & _). done.
Qed.

Lemma clients_within_bounds_witness :
  heap (sample_day Empath) !! 0%nat =
    Some (Client.mk "toaster" "Toaster Guy" toaster_nodes 6 4 "start" ∅) ∧
  0 ≤ 6 ∧ 1 ≤ 4 ≤ 10.
Proof.
  split; [vm_compute; reflexivity|].
  apply (clients_within_bounds (sample_day Empath)
           (Client.mk "toaster" "Toaster Guy" toaster_nodes 6 4 "start" ∅)).
  - apply (reachable_first "Dr. Finch" Empath). vm_compute. reflexivity.
  - apply (list_elem_of_lookup_2 _ 0%nat). vm_compute. reflexivity.
Defined.

(** X2: the inventory of a reachable state has exactly the keys of [ITEMS],
    and no count is negative: items are only spent while their count is
    positive. *)
Theorem inventory_counts_never_negative s :
  reachable s →
  dom (Player.inventory (player s)) = dom ITEMS ∧
  ∀ k v, Player.inventory (player s) !! k = Some v → 0 ≤ v.
Proof.
  intros Hr. destruct (reachable_Sound s Hr) as ((_ & [Hd Hall] & _) & _).
  split; [exact Hd|]. intros k v Hk. exact (Hall k v Hk).
Qed.

Lemma inventory_counts_never_negative_witness :
  Player.inventory (player (sample_day Counselor)) !! "Coffee" = Some 2 ∧
  dom (Player.inventory (player (sample_day Counselor))) = dom ITEMS ∧
  ∀ k v, Player.inventory (player (sample_day Counselor)) !! k = Some v → 0 ≤ v.
Proof.
  split; [vm_compute; reflexivity|].
  apply (inventory_counts_never_negative (sample_day Counselor)).
  apply (reachable_first "Dr. Finch" Counselor). vm_compute. reflexivity.
Defined.

(** X3: the sanity pool of an open combat stays between 0 and 20: it starts
    at Composure + 5, heals are capped at 20 and a client attack never
    takes it below 0. *)
Theorem sanity_pool_within_bounds s cb :
  reachable s → debate s = Some cb → 0 ≤ player_hp cb ≤ 20.
Proof.
  intros Hr Hcb. destruct (reachable_Sound s Hr) as (_ & _ & _ & Hb).
  exact (Hb cb Hcb).
Qed.

Lemma sanity_pool_within_bounds_witness :
  debate sample_debate = Some (mkCombat 10 10 0) ∧ 0 ≤ 10 ≤ 20.
Proof.
  split; [vm_compute; reflexivity|].
  apply (sanity_pool_within_bounds sample_debate (mkCombat 10 10 0)).
  - eapply reachable_step;
      [apply (reachable_first "Dr. Finch" Empath); vm_compute; reflexivity|].
    apply step_debate with (s' := sample_debate). vm_compute. reflexivity.
  - vm_compute. reflexivity.
Defined.

(** ** Endings *)

(** X4: none of the endings The Provocateur, The Convert, The Questionable
    Professional and The Quiet Exit is ever shown: neither the ending
    computed from the player of a reachable state nor the one a reachable
    state has on show is one of them (no heated argument or joined delusion
    is ever counted, and the reputation stays at 10 or more). *)
Theorem dead_endings_never_shown s :
  reachable s →
  (ending_name (determine_ending (player s)) ∉ dead_endings) ∧
  (∀ e, day_end s = Some e → ending_name e ∉ dead_endings).
Proof.
  intros Hr. split.
  - apply sound_player_ending.
    + by destruct (reachable_Inv s Hr).
    + by destruct (reachable_Sound s Hr).
  - intros e He. by eapply reachable_day.
Qed.

Lemma dead_endings_never_shown_witness :
  day_end (end_day (sample_day Burnout)) =
    Some (determine_ending (player (sample_day Burnout))) ∧
  (ending_name (determine_ending (player (sample_day Burnout))) ∉ dead_endings).
Proof.
  split; [reflexivity|].
  refine (proj2 (dead_endings_never_shown (end_day (sample_day Burnout)) _) _ _);
    [|reflexivity].
  eapply reachable_step; [|apply step_end_day].
  apply (reachable_first "Dr. Finch" Burnout). vm_compute. reflexivity.
Defined.

(** ** Progress *)

(** X5: one handler never loses progress.  After any step from a reachable
    state the experience is non-negative, and either the step was a new
    game (the player is the fresh one of [start_game]) or experience and
    reputation are at least what they were and the stage is not an earlier
    one. *)
Theorem progress_is_never_lost s s' :
  reachable s → step s s' →
  0 ≤ Player.xp (player s') ∧
  ((∃ name cls, player s' = new_player name cls) ∨
   (Player.xp (player s) ≤ Player.xp (player s') ∧
    Player.reputation (player s) ≤ Player.reputation (player s') ∧
    (Player.current_stage_index (player s) ≤
       Player.current_stage_index (player s'))%nat)).
Proof.
  intros Hr Hstep.
  destruct (step_keeps s s' (reachable_Inv s Hr) (reachable_Sound s Hr) Hstep)
    as [((Hx & _) & _) Hg].
  split; [exact Hx | exact Hg].
Qed.

Lemma progress_is_never_lost_witness :
  Player.xp (player sample_debate) = 0 ∧
  0 ≤ Player.xp (player sample_debate) ∧
  ((∃ name cls, player sample_debate = new_player name cls) ∨
   (Player.xp (player (sample_day Empath)) ≤ Player.xp (player sample_debate) ∧
    Player.reputation (player (sample_day Empath)) ≤
      Player.reputation (player sample_debate) ∧
    (Player.current_stage_index (player (sample_day Empath)) ≤
       Player.current_stage_index (player sample_debate))%nat)).
Proof.
  split; [vm_compute; reflexivity|].
  apply (progress_is_never_lost (sample_day Empath) sample_debate).
  - apply (reachable_first "Dr. Finch" Empath). vm_compute. reflexivity.
  - apply step_debate with (s' := sample_debate). vm_compute. reflexivity.
Defined.

(** ** The roster of a stage *)

Lemma stages_need_clients :
  Forall (λ st, 0 < Stage.clients_needed st) THERAPY_STAGES.
Proof. apply (bool_decide_unpack _). by vm_compute. Qed.

(** X6: the count of completed clients is the index into the roster, and a
    roster has as many clients as its stage needs.  So before the last
    stage [advance_client] never runs out of clients: it leaves the index
    on a client of the roster, the next one of the stage or the first one
    of the next stage. *)
Theorem advance_client_finds_a_client s s' :
  reachable s → advance_client s = Some s' →
  (Player.current_stage_index (player s) < length THERAPY_STAGES - 1)%nat →
  Player.clients_completed (player s) = Z.of_nat (current_client_index s) ∧
  Player.clients_completed (player s') = Z.of_nat (current_client_index s') ∧
  (current_client_index s' < length (clients s'))%nat.
Proof.
  intros Hr H Hlast.
  pose proof (reachable_Sound s Hr) as Hs.
  destruct (advance_client_keeps _ _ Hs H) as [(_ & _ & [Hr1' _] & _) _].
  destruct Hs as (_ & _ & [Hr1 Hr2] & _).
  split; [exact Hr1|]. split; [exact Hr1'|].
  unfold advance_client in H.
  set (s0 := set_player _ (set_current_client_index _ s)) in H.
  assert (Player.current_stage_index (player s0) =
          Player.current_stage_index (player s)) as Hidx by done.
  assert (Player.clients_completed (player s0) =
          Player.clients_completed (player s) + 1) as Hcc by done.
  assert (current_client_index s0 = S (current_client_index s)) as Hci by done.
  assert (clients s0 = clients s) as Hcl by done.
  clearbody s0.
  destruct (THERAPY_STAGES !! Player.current_stage_index (player s0))
    as [stage|] eqn:Hst; cbn [mbind option_bind] in H; [|done].
  rewrite Hidx in Hst. specialize (Hr2 stage Hst).
  destruct (Stage.clients_needed stage <=? _) eqn:Hn.
  - rewrite Hidx in H.
    replace (Player.current_stage_index (player s) <? length THERAPY_STAGES - 1)%nat
      with true in H by (symmetry; by apply Nat.ltb_lt).
    cbn [Player.current_stage_index Player.set_clients_completed
         Player.set_current_stage_index] in H.
    destruct (THERAPY_STAGES !! S _) as [new|] eqn:Hnew;
      cbn [mbind option_bind] in H; [|done].
    destruct (same_session_load_current_client _ _ H)
      as (_ & _ & -> & -> & _).
    cbn [clients current_client_index set_current_client_index load_roster
         set_clients set_heap]. rewrite length_seq.
    assert (new ∈ THERAPY_STAGES) as Hin by (by eapply list_elem_of_lookup_2).
    destruct (proj1 (Forall_forall _ _) stages_rosters_ok new Hin) as (Hlen & _).
    pose proof (proj1 (Forall_forall _ _) stages_need_clients new Hin) as Hpos.
    simpl in Hpos. lia.
  - apply Z.leb_gt in Hn.
    replace (length (clients s0) <=? current_client_index s0)%nat
      with false in H by (symmetry; apply Nat.leb_gt; rewrite Hcl, Hci; lia).
    destruct (same_session_load_current_client _ _ H)
      as (_ & _ & -> & -> & _). rewrite Hcl, Hci. lia.
Qed.

Lemma advance_client_finds_a_client_witness :
  advance_client (sample_day Empath) = Some sample_next ∧
  Player.clients_completed (player (sample_day Empath)) =
    Z.of_nat (current_client_index (sample_day Empath)) ∧
  Player.clients_completed (player sample_next) =
    Z.of_nat (current_client_index sample_next) ∧
  (current_client_index sample_next < length (clients sample_next))%nat.
Proof.
  split; [vm_compute; reflexivity|].
  apply (advance_client_finds_a_client (sample_day Empath) sample_next).
  - apply (reachable_first "Dr. Finch" Empath). vm_compute. reflexivity.
  - vm_compute. reflexivity.
  - vm_compute. lia.
Defined.

(** ** Labels and their branch *)

Lemma prefix_append w1 w2 t :
  String.prefix (w1 +:+ w2) t = true → String.prefix w1 t = true.
Proof.
  revert t. induction w1 as [|a w1 IH]; intros t H; [by destruct t|].
  destruct t as [|b t]; [done|].
  change (String a w1 +:+ w2) with (String a (w1 +:+ w2)) in H.
  cbn [String.prefix] in *.
  destruct (ascii_dec a b); [by apply IH | done].
Qed.

Lemma contains_append w1 w2 t :
  contains (w1 +:+ w2) t = true → contains w1 t = true.
Proof.
  induction t as [|a t IH]; cbn [contains]; intros H;
    apply orb_true_iff in H as [H|H]; try done.
  - by rewrite (prefix_append _ _ _ H).
  - by rewrite (prefix_append _ _ _ H).
  - rewrite (IH H). by rewrite orb_true_r.
Qed.

Lemma contains_whatever_what t :
  contains "whatever" t = true → contains "what" t = true.
Proof. exact (contains_append "what" "ever" t). Qed.

(** X7: the keyword "whatever" of the dismissive branch never selects it: a
    label that contains it contains "what", a keyword of the analytical
    branch, which the chain tests earlier; the label is resolved as an
    Empathetic or an Analytical one. *)
Theorem whatever_is_never_dismissive choice_text :
  contains "whatever" choice_text = true →
  classify choice_text = Empathetic ∨ classify choice_text = Analytical.
Proof.
  intros H. apply contains_whatever_what in H.
  assert (any_in analytical_words choice_text = true) as Ha.
  { unfold any_in, analytical_words. cbn [existsb]. rewrite H.
    by rewrite !orb_true_r. }
  unfold classify. destruct (any_in empathetic_words choice_text); [by left|].
  right. by rewrite Ha.
Qed.

Lemma whatever_is_never_dismissive_witness :
  classify (lower "Whatever") = Analytical.
Proof.
  destruct (whatever_is_never_dismissive (lower "Whatever")) as [H|H].
  - vm_compute. reflexivity.
  - vm_compute in H. discriminate H.
  - exact H.
Defined.

Lemma unclassified_not_impatient choice_text :
  classify choice_text = Unclassified →
  any_in impatient_words choice_text = false.
Proof.
  unfold classify. intros H.
  destruct (any_in empathetic_words choice_text); [done|].
  destruct (any_in analytical_words choice_text) eqn:Ha; [done|].
  destruct (any_in confrontational_words choice_text) eqn:Hc; [done|].
  unfold any_in, analytical_words, confrontational_words, impatient_words in *.
  cbn [existsb] in *.
  destruct (contains "ask" choice_text); [done|].
  destruct (contains "explore" choice_text); [done|].
  destruct (contains "why" choice_text); [done|].
  destruct (contains "what" choice_text); [done|].
  by destruct (contains "challenge" choice_text).
Qed.

(** X8: a label that no branch of the chain takes changes nothing when
    Composure is above 2: the stats and the client are left as they were
    (the impatience rule cannot fire either, its five words being keywords
    of the analytical and confrontational branches). *)
Theorem unclassified_label_changes_nothing location_effects choice_text st c :
  classify choice_text = Unclassified → 2 < Composure st →
  resolve location_effects choice_text st c = (st, c).
Proof.
  intros Hu Hc. pose proof (unclassified_not_impatient _ Hu) as Hi.
  unfold classify in Hu. unfold resolve, category_rule.
  destruct (any_in empathetic_words choice_text); [done|].
  destruct (any_in analytical_words choice_text); [done|].
  destruct (any_in confrontational_words choice_text); [done|].
  destruct (any_in patient_words choice_text); [done|].
  destruct (any_in dismissive_words choice_text); [done|].
  unfold complications. rewrite Hi.
  replace (Composure st <=? 2) with false by lia.
  by destruct (Patience st <=? 2).
Qed.

Lemma unclassified_label_changes_nothing_witness :
  resolve ∅ (lower "That's concerning") (mkStats 4 4 8 5)
    (Client.mk "toaster" "Toaster Guy" toaster_nodes 6 4 "start" ∅) =
  (mkStats 4 4 8 5,
   Client.mk "toaster" "Toaster Guy" toaster_nodes 6 4 "start" ∅).
Proof.
  apply unclassified_label_changes_nothing.
  - vm_compute. reflexivity.
  - vm_compute. reflexivity.
Defined.

(** X9: one resolution moves the stats and the client by bounded amounts.
    For stats in range and a client within its bounds, Patience changes by
    -2 to +1, Empathy by -1 to +1, Insight by 0 to +1 and Composure by -2
    to +1; the absurdity rises by at most 1 and the resistance by 0 or 1. *)
Theorem resolve_moves_are_bounded location_effects choice_text st c :
  stats_ok st → 0 ≤ Client.absurdity c → Client.resistance c ≤ 10 →
  Patience st - 2 ≤ Patience (resolve location_effects choice_text st c).1
    ≤ Patience st + 1 ∧
  Empathy st - 1 ≤ Empathy (resolve location_effects choice_text st c).1
    ≤ Empathy st + 1 ∧
  Insight st ≤ Insight (resolve location_effects choice_text st c).1
    ≤ Insight st + 1 ∧
  Composure st - 2 ≤ Composure (resolve location_effects choice_text st c).1
    ≤ Composure st + 1 ∧
  Client.absurdity (resolve location_effects choice_text st c).2
    ≤ Client.absurdity c + 1 ∧
  Client.resistance c
    ≤ Client.resistance (resolve location_effects choice_text st c).2
    ≤ Client.resistance c + 1.
Proof.
  intros (Hp & He & Hi & Hc) Ha Hr. unfold in_range in *.
  by_category choice_text; resolve_simpl;
    split_and!; Z.to_euclidean_division_equations; lia.
Qed.

Lemma resolve_moves_are_bounded_witness :
  Composure (resolve ∅ (lower "You are wrong, stop") (mkStats 4 4 8 3)
               (Client.mk "toaster" "Toaster Guy" toaster_nodes 6 4 "start" ∅)).1
    = 1 ∧
  3 - 2 ≤ Composure (resolve ∅ (lower "You are wrong, stop") (mkStats 4 4 8 3)
               (Client.mk "toaster" "Toaster Guy" toaster_nodes 6 4 "start" ∅)).1
    ≤ 3 + 1.
Proof.
  split; [vm_compute; reflexivity|].
  refine (proj1 (proj2 (proj2 (proj2
            (resolve_moves_are_bounded ∅ (lower "You are wrong, stop")
               (mkStats 4 4 8 3)
               (Client.mk "toaster" "Toaster Guy" toaster_nodes 6 4 "start" ∅)
               _ _ _))))).
  - vm_compute. repeat split; discriminate.
  - vm_compute. discriminate.
  - vm_compute. discriminate.
Defined.

(** ** Items *)

Lemma get_set_stat k v st : get_stat k (set_stat k v st) = v.
Proof. by destruct k. Qed.

(** X10: every button that the item dialog enables does its job.  For an
    item listed by [on_use_item] during a session, [apply_item] spends
    exactly one unit of it (the count stays non-negative, the other counts
    are untouched) and raises the stat the item names by 2, capped at 15. *)
Theorem enabled_item_is_spent_once s it_name c :
  cur s = Some c → it_name ∈ on_use_item s →
  ∃ info count s',
    ITEMS !! it_name = Some info ∧
    Player.inventory (player s) !! it_name = Some count ∧
    apply_item it_name s = Some s' ∧
    Player.inventory (player s') !! it_name = Some (count - 1) ∧
    0 ≤ count - 1 ∧
    (∀ k, k ≠ it_name →
          Player.inventory (player s') !! k = Player.inventory (player s) !! k) ∧
    get_stat (stat info) (stats_of s') =
      Z.min 15 (get_stat (stat info) (stats_of s) + 2).
Proof.
  intros Hc Hin. unfold on_use_item in Hin.
  case_bool_decide; [by apply elem_of_nil in Hin|].
  apply list_elem_of_filter in Hin as [Hpos Hkey].
  destruct (items_keys_in_ITEMS _ Hkey) as [info Hinfo].
  unfold get0 in Hpos.
  destruct (Player.inventory (player s) !! it_name) as [count|] eqn:Hcount;
    cbn [default from_option id] in Hpos; [|lia].
  exists info, count. eexists. split; [done|]. split; [done|].
  unfold apply_item. rewrite Hc. unfold get0. rewrite Hcount.
  cbn [default from_option id mbind option_bind].
  replace (count <=? 0) with false by lia. rewrite Hinfo.
  cbn [mbind option_bind]. split; [reflexivity|].
  unfold stats_of. cbn [player set_player].
  player_simpl. split_and!.
  - apply lookup_insert_eq.
  - lia.
  - intros k Hk. by apply lookup_insert_ne.
  - apply get_set_stat.
Qed.

Lemma enabled_item_is_spent_once_witness :
  ∃ info count s',
    ITEMS !! "Coffee" = Some info ∧
    Player.inventory (player (sample_day Empath)) !! "Coffee" = Some count ∧
    apply_item "Coffee" (sample_day Empath) = Some s' ∧
    Player.inventory (player s') !! "Coffee" = Some (count - 1) ∧
    0 ≤ count - 1 ∧
    (∀ k, k ≠ "Coffee" →
          Player.inventory (player s') !! k =
          Player.inventory (player (sample_day Empath)) !! k) ∧
    get_stat (stat info) (stats_of s') =
      Z.min 15 (get_stat (stat info) (stats_of (sample_day Empath)) + 2).
Proof.
  apply (enabled_item_is_spent_once (sample_day Empath) "Coffee"
           (Client.mk "toaster" "Toaster Guy" toaster_nodes 6 4 "start" ∅)).
  - vm_compute. reflexivity.
  - apply (bool_decide_unpack _). vm_compute. exact I.
Defined.

(** ** The choice lock *)

(** X11: the handlers of a combat and of a restart do not clear
    [choice_in_progress].  While it is set, a new game, an item, the opening
    of a combat, a combat turn, the callbacks that close a combat and the
    end of the day all leave it set; [render_choices] then creates no button
    and a click that still reaches [on_choose_safe] does nothing. *)
Theorem choice_lock_outlives_combat s s' :
  choice_in_progress s = true →
  (∃ name cls, start_game name cls s = Some s') ∨
  (∃ item_name, apply_item item_name s = Some s') ∨
  open_debate_modal s = Some s' ∨
  (∃ action_type dice_roll client_dice chosen,
     player_action action_type dice_roll client_dice chosen s = Some s') ∨
  (∃ roll found, after_victory roll found s = Some s') ∨
  after_defeat s = Some s' ∨
  s' = end_day s →
  choice_in_progress s' = true ∧
  (∀ node, render_choices node s' = []) ∧
  (∀ choice roll found, on_choose_safe choice roll found s' = Some s').
Proof.
  intros Hlock H.
  assert (choice_in_progress s' = true) as Hlock'.
  { rewrite <- Hlock.
    destruct H as [(name & cls & H) | [(item_name & H) | [H | [(a & d1 & d2 & ch & H)
                   | [(roll & found & H) | [H | ->]]]]]].
    - by apply start_game_frame in H as (_ & ? & _).
    - by apply apply_item_frame in H as (_ & ?).
    - by apply open_debate_modal_frame in H as (_ & ? & _).
    - by apply player_action_frame in H as (_ & ? & _).
    - by apply after_victory_frame in H as (_ & ? & _).
    - by apply after_defeat_frame in H as (_ & ? & _).
    - reflexivity. }
  split; [exact Hlock'|]. split.
  - intros node. unfold render_choices. by rewrite Hlock'.
  - intros choice roll found. unfold on_choose_safe. by rewrite Hlock'.
Qed.

Lemma choice_lock_outlives_combat_witness :
  choice_in_progress sample_restart = true ∧
  (∀ node, render_choices node sample_restart = []) ∧
  (∀ choice roll found,
     on_choose_safe choice roll found sample_restart = Some sample_restart).
Proof.
  apply (choice_lock_outlives_combat sample_locked sample_restart).
  - vm_compute. reflexivity.
  - left. exists "Dr. Finch", Burnout. vm_compute. reflexivity.
Defined.

(** X12: a choice whose effects start a debate leaves the lock set on the
    open combat.  Clicked while no choice is in progress, it sets
    [choice_in_progress]; when [continue_after_choice] runs (at once, or at
    the Continue button of a choice with a reply) the combat is opened and
    the handler returns with the lock still set, no callback scheduled and
    the ending on show untouched. *)
Theorem debate_choice_keeps_lock choice eff roll found s s1 :
  choice_in_progress s = false →
  effects choice = Some eff → truthy eff "start_debate" = true →
  on_choose_safe choice roll found s = Some s1 →
  choice_in_progress s1 = true ∧ timers s1 = timers s ∧
  day_end s1 = day_end s ∧
  (reply choice = false → is_Some (debate s1)) ∧
  (reply choice = true →
   ∀ roll' found' s2,
     continue_after_choice choice roll' found' s1 = Some s2 →
     choice_in_progress s2 = true ∧ is_Some (debate s2) ∧
     timers s2 = timers s ∧ day_end s2 = day_end s).
Proof.
  intros Hlock He Hd H.
  assert (∀ r f s0 s2, continue_after_choice choice r f s0 = Some s2 →
            choice_in_progress s2 = choice_in_progress s0 ∧
            is_Some (debate s2) ∧ timers s2 = timers s0 ∧
            day_end s2 = day_end s0) as Hcont.
  { intros r f s0 s2 H2. unfold continue_after_choice in H2. rewrite He in H2.
    case_bool_decide as Hempty; [by subst eff|]. rewrite Hd in H2.
    destruct (has_key eff "absurdity").
    - destruct (upd_cur _ s0) as [s3|] eqn:Hu; cbn [mbind option_bind] in H2;
        [|done].
      apply upd_cur_frame in Hu as (_ & Ht & _ & _ & _ & _ & Hday & Hc & _).
      apply open_debate_modal_frame in H2 as (Hday2 & Hc2 & Hb2 & _ & _ & Ht2).
      split_and!; [congruence | done | congruence | congruence].
    - cbn [mbind option_bind] in H2.
      apply open_debate_modal_frame in H2 as (Hday2 & Hc2 & Hb2 & _ & _ & Ht2).
      by split_and!. }
  unfold on_choose_safe in H. rewrite Hlock in H. unfold on_choose in H.
  destruct (THERAPY_STAGES !! _) as [stage|]; cbn [mbind option_bind] in H; [|done].
  destruct (current_client _) as [a|]; cbn [mbind option_bind] in H; [|done].
  destruct (heap _ !! a) as [c|]; cbn [mbind option_bind] in H; [|done].
  destruct (resolve _ _ _ _) as [st1 c1].
  destruct (reply choice) eqn:Hreply.
  - simplify_eq. split_and!; [done | done | done | done |].
    intros _ roll' found' s2 H2. exact (Hcont _ _ _ _ H2).
  - destruct (Hcont _ _ _ _ H) as (Hc & Hb & Ht & Hday).
    split_and!; [exact Hc | exact Ht | exact Hday | done | done].
Qed.

Lemma debate_choice_keeps_lock_witness :
  choice_in_progress sample_heated = true ∧ is_Some (debate sample_heated).
Proof.
  destruct (debate_choice_keeps_lock
              (mkChoice "That's concerning" None
                 (Some (dict [("start_debate", 1); ("heated_argument", 1)])) false)
              (dict [("start_debate", 1); ("heated_argument", 1)])
              0 "Coffee" (sample_day Empath) sample_heated)
    as (H1 & _ & _ & H2 & _).
  - vm_compute. reflexivity.
  - reflexivity.
  - vm_compute. reflexivity.
  - vm_compute. reflexivity.
  - split; [exact H1 | apply H2; reflexivity].
Defined.

(** ** Walking a dialogue graph *)

Lemma upd_cur_cur f s c :
  cur s = Some c →
  ∃ s', upd_cur f s = Some s' ∧ cur s' = Some (f c) ∧
        player s' = player s ∧ day_end s' = day_end s ∧
        timers s' = timers s ∧ debate s' = debate s.
Proof.
  unfold cur, upd_cur. intros H.
  destruct (current_client s) as [a|] eqn:Ea; cbn [mbind option_bind] in *;
    [|done].
  rewrite H. cbn [mbind option_bind]. eexists. split; [reflexivity|].
  cbn [current_client heap set_heap player day_end timers debate].
  rewrite Ea. cbn [mbind option_bind].
  split; [|done]. apply list_lookup_insert_eq. by eapply lookup_lt_Some.
Qed.

(** X13: the dialogue graphs are closed, and the walk follows them.  For a
    reachable state, a choice of a node of the current client's own graph
    that names a next node and starts no debate makes
    [continue_after_choice] move the client to that node, which exists in
    the graph: the invalid-node branch of [display_client_node] is not
    taken, the day does not end, the lock is cleared and the player is
    untouched. *)
Theorem own_choice_leads_to_its_node s c k n choice k' roll found :
  reachable s → cur s = Some c →
  Client.nodes c !! k = Some n → choice ∈ choices n →
  next choice = Some k' →
  (∀ eff, effects choice = Some eff → truthy eff "start_debate" = false) →
  ∃ s' c',
    continue_after_choice choice roll found s = Some s' ∧
    cur s' = Some c' ∧ Client.node c' = k' ∧
    is_Some (Client.nodes c' !! k') ∧
    choice_in_progress s' = false ∧ day_end s' = day_end s ∧
    player s' = player s ∧ timers s' = timers s.
Proof.
  intros Hr Hc Hk Hin Hn Hnd.
  pose proof (Sound_cur _ _ (reachable_Sound s Hr) Hc) as (_ & _ & Hg).
  pose proof (Hg k n Hk) as Hall. simpl in Hall.
  destruct (proj1 (Forall_forall _ _) Hall choice Hin) as [_ Hw].
  rewrite Hn in Hw.
  assert (∀ s0 c0, cur s0 = Some c0 → Client.nodes c0 = Client.nodes c →
     ∃ s' c',
       upd_cur (Client.set_node k') s0 ≫= display_client_node_safe k' = Some s' ∧
       cur s' = Some c' ∧ Client.node c' = k' ∧
       is_Some (Client.nodes c' !! k') ∧
       choice_in_progress s' = false ∧ day_end s' = day_end s0 ∧
       player s' = player s0 ∧ timers s' = timers s0) as Hproceed.
  { intros s0 c0 Hc0 Hn0.
    destruct (upd_cur_cur (Client.set_node k') s0 c0 Hc0)
      as (s1 & Hu & Hc1 & Hp1 & Hd1 & Ht1 & _).
    rewrite Hu. cbn [mbind option_bind].
    unfold display_client_node_safe, display_client_node.
    assert (cur (set_choice_in_progress false s1) =
            Some (Client.set_node k' c0)) as Hc1' by exact Hc1.
    rewrite Hc1'. cbn [mbind option_bind Client.nodes Client.set_node].
    rewrite Hn0. rewrite bool_decide_eq_true_2 by exact Hw.
    eexists _, _. split; [reflexivity|]. split; [exact Hc1'|].
    cbn [Client.node Client.nodes Client.set_node].
    rewrite Hn0. by split_and!. }
  unfold continue_after_choice. rewrite Hn.
  destruct (effects choice) as [eff|] eqn:He; [|by apply (Hproceed s c)].
  case_bool_decide; [by apply (Hproceed s c)|].
  rewrite (Hnd eff eq_refl).
  assert (∃ s1 c1, (if has_key eff "absurdity"
                    then upd_cur (λ c, Client.set_absurdity
                           (Z.max 0 (Client.absurdity c + get0 eff "absurdity")) c) s
                    else Some s) = Some s1 ∧
                   cur s1 = Some c1 ∧ Client.nodes c1 = Client.nodes c ∧
                   player s1 = player s ∧ day_end s1 = day_end s ∧
                   timers s1 = timers s) as (s1 & c1 & -> & Hc1 & Hn1 & Hp1 & Hd1 & Ht1).
  { destruct (has_key eff "absurdity").
    - match goal with |- context [upd_cur ?f s] =>
        destruct (upd_cur_cur f s c Hc) as (s1 & Hu & Hc1 & Hp1 & Hd1 & Ht1 & _)
      end.
      exists s1. eexists. split; [exact Hu|]. split; [exact Hc1|]. by split_and!.
    - exists s, c. by split_and!. }
  cbn [mbind option_bind].
  match goal with |- context [upd_cur ?f s1] =>
    destruct (upd_cur_cur f s1 c1 Hc1) as (s2 & Hu2 & Hc2 & Hp2 & Hd2 & Ht2 & _)
  end.
  rewrite Hu2. cbn [mbind option_bind].
  match goal with |- context [upd_cur ?f s2] =>
    destruct (upd_cur_cur f s2 _ Hc2) as (s3 & Hu3 & Hc3 & Hp3 & Hd3 & Ht3 & _)
  end.
  rewrite Hu3. cbn [mbind option_bind].
  destruct (Hproceed s3 _ Hc3) as (s' & c' & H' & Hc' & Hk' & Hn' & Hl' & Hd' & Hp' & Ht').
  { unfold hasattr_effects. exact Hn1. }
  exists s', c'. split; [exact H'|]. split; [exact Hc'|].
  split_and!; [done | done | done | congruence | congruence | congruence].
Qed.

Lemma own_choice_leads_to_its_node_witness :
  ∃ s' c',
    continue_after_choice
      (mkChoice "Maybe buy a new toaster" (Some "defensive")
         (Some (dict [("absurdity", 1)])) true)
      0 "Coffee" (sample_day Empath) = Some s' ∧
    cur s' = Some c' ∧ Client.node c' = "defensive" ∧
    is_Some (Client.nodes c' !! "defensive") ∧
    choice_in_progress s' = false ∧ day_end s' = day_end (sample_day Empath) ∧
    player s' = player (sample_day Empath) ∧
    timers s' = timers (sample_day Empath).
Proof.
  apply (own_choice_leads_to_its_node (sample_day Empath)
           (Client.mk "toaster" "Toaster Guy" toaster_nodes 6 4 "start" ∅)
           "start"
           (mkNode [
              mkChoice "Cool story" (Some "explain") (None) true;
              mkChoice "What does it burn exactly" (Some "paranoid") (None) true;
              mkChoice "Maybe buy a new toaster" (Some "defensive")
                (Some (dict [("absurdity", 1)])) true;
              mkChoice "How does that make you feel" (Some "hopeful")
                (Some (dict [("absurdity", (-1))])) true])).
  - apply (reachable_first "Dr. Finch" Empath). vm_compute. reflexivity.
  - vm_compute. reflexivity.
  - vm_compute. reflexivity.
  - cbn [choices]. do 2 apply list_elem_of_further. apply list_elem_of_here.
  - reflexivity.
  - intros eff [= <-]. vm_compute. reflexivity.
Defined.

(** ** Winning a combat *)

Lemma complete_session_player_reputation_low roll found c p :
  truthy (Client.effects c) "heated_argument" = false →
  Client.absurdity c ≤ 2 →
  Player.reputation p + 1 ≤
    Player.reputation (complete_session_player roll found c p).
Proof.
  intros Hh Hlow. unfold complete_session_player. rewrite Hh.
  set (kept := λ q : Player.t, Player.reputation p + 1 ≤ Player.reputation q).
  set (r := if truthy (Client.effects c) "breakthrough" then _ else _).
  assert (kept r.2) as Hr
    by (subst r kept; repeat case_match; player_simpl; lia).
  destruct r as [bonus_xp p1]. simpl in Hr.
  set (p2 := if truthy (Client.effects c) "joined_delusion" then _ else p1).
  assert (kept p2) as Hp2 by (subst p2; by case_match).
  set (p3 := if Client.absurdity c <=? 3 then _ else p2).
  assert (kept p3) as Hp3 by (subst p3; by case_match).
  set (p4 := Player.set_xp _ p3).
  assert (kept p4) as Hp4 by done.
  set (p5 := if negb _ then _ else p4).
  assert (kept p5) as Hp5 by (subst p5; by case_match).
  unfold level_up. by case_match.
Qed.

Lemma player_action_victory s cb action_type dice_roll client_dice chosen s1 cb1 :
  debate s = Some cb →
  player_action action_type dice_roll client_dice chosen s = Some s1 →
  debate s1 = Some cb1 → client_hp cb1 ≤ 0 →
  timers s1 = (timers s ++ [AfterVictory])%list ∧
  Player.xp (player s1) = Player.xp (player s) ∧
  Player.reputation (player s1) = Player.reputation (player s) ∧
  Empathy (stats_of s1) = Z.min 15 (Empathy (stats_of s) + 1) ∧
  ∃ c, cur s = Some c ∧ cur s1 = Some (Client.set_absurdity 0 c).
Proof.
  intros Hd H Hd1 Hc. unfold player_action in H. rewrite Hd in H.
  cbn [mbind option_bind] in H.
  destruct (cur s) as [c|] eqn:Hcur; cbn [mbind option_bind] in H; [|done].
  destruct (match action_type with empathy => _ | _ => _ end)
    as [[[hp chp] s0]|] eqn:Hr; cbn [mbind option_bind] in H; [|done].
  assert (cur s0 = Some c ∧ timers s0 = timers s ∧
          Player.xp (player s0) = Player.xp (player s) ∧
          Player.reputation (player s0) = Player.reputation (player s) ∧
          Empathy (stats_of s0) = Empathy (stats_of s)) as Hs0.
  { destruct action_type; simplify_eq; try done.
    case_bool_decide; simplify_eq; [done|].
    destruct (Player.inventory (player s) !! chosen);
      cbn [mbind option_bind] in Hr; by simplify_eq. }
  clear Hr. destruct Hs0 as (Hc0 & Ht0 & Hx0 & Hr0 & He0).
  destruct (chp <=? 0) eqn:Hchp.
  - match type of H with context [upd_cur ?f ?s2] =>
      destruct (upd_cur_cur f s2 c Hc0) as (s3 & Hu & Hc3 & Hp3 & _ & Ht3 & _)
    end.
    rewrite Hu in H. cbn [mbind option_bind] in H. simplify_eq.
    unfold stats_of, after in *. app_simpl. rewrite Hp3, Ht3.
    app_simpl. player_simpl. stats_simpl.
    split_and!; [congruence | done | done | congruence |].
    exists c. split; [done|]. exact Hc3.
  - apply Z.leb_gt in Hchp.
    destruct (truthy _ "defended"); case_match; simplify_eq;
      cbn [debate after set_timers set_debate set_stats set_player] in Hd1;
      simplify_eq; cbn [client_hp] in Hc; lia.
Qed.

(** X14: a combat turn that takes the client's hit points to 0 or below
    wins the session.  The turn raises Empathy by 1 (capped at 15), sets the
    client's absurdity to 0 and schedules the victory callback; that
    callback closes the combat and completes the session at the rate of a
    calm client: at least 5 experience and 1 reputation more than before
    the turn.  It advances without clearing [choice_in_progress]. *)
Theorem combat_victory_completes_session
    s cb action_type dice_roll client_dice chosen s1 cb1 roll found :
  reachable s → debate s = Some cb →
  1 ≤ dice_roll ≤ dice_sides action_type → 1 ≤ client_dice ≤ 6 →
  (available_items (Player.inventory (player s)) = [] ∨
   chosen ∈ available_items (Player.inventory (player s))) →
  player_action action_type dice_roll client_dice chosen s = Some s1 →
  debate s1 = Some cb1 → client_hp cb1 ≤ 0 → found ∈ items_keys →
  Empathy (stats_of s1) = Z.min 15 (Empathy (stats_of s) + 1) ∧
  timers s1 = (timers s ++ [AfterVictory])%list ∧
  (∃ c1, cur s1 = Some c1 ∧ Client.absurdity c1 = 0) ∧
  ∃ s2, after_victory roll found s1 = Some s2 ∧ debate s2 = None ∧
        Player.xp (player s) + 5 ≤ Player.xp (player s2) ∧
        Player.reputation (player s) + 1 ≤ Player.reputation (player s2) ∧
        choice_in_progress s2 = choice_in_progress s.
Proof.
  intros Hr Hd Hd1 Hd2 Hav H Hcb1 Hhp Hf.
  destruct (player_action_victory _ _ _ _ _ _ _ _ Hd H Hcb1 Hhp)
    as (Ht & Hx & Hrep & He & c & Hc & Hc1).
  assert (reachable s1) as Hr1.
  { eapply reachable_step; [exact Hr|]. by eapply step_action. }
  split; [exact He|]. split; [exact Ht|].
  split; [by eexists|].
  destruct (wf_after_victory roll found s1 (reachable_wf s1 Hr1)) as (s2 & H2 & _).
  exists s2. split; [exact H2|].
  destruct (after_victory_frame _ _ _ _ H2) as (_ & Hlock & Hdeb).
  destruct (player_action_frame _ _ _ _ _ _ H) as (_ & Hlock1 & _).
  split; [exact Hdeb|].
  unfold after_victory in H2.
  destruct (complete_session _ _ _) as [s1'|] eqn:Hcs;
    cbn [mbind option_bind] in H2; [|done].
  destruct (complete_session_keeps _ _ _ _ Hf
              (Inv_set_debate None _ (reachable_Inv s1 Hr1))
              (Sound_close_debate _ (reachable_Sound s1 Hr1)) Hcs) as [Hs1' _].
  destruct (advance_client_keeps _ _ Hs1' H2) as [_ (Hgx & Hgr & _)].
  unfold complete_session in Hcs.
  assert (cur (set_debate None s1) = Some (Client.set_absurdity 0 c)) as Hc1'
    by exact Hc1.
  rewrite Hc1' in Hcs. cbn [mbind option_bind] in Hcs. simplify_eq.
  cbn [player set_player set_debate] in Hgx, Hgr.
  assert (truthy (Client.effects (Client.set_absurdity 0 c)) "heated_argument"
          = false) as Hheat.
  { apply truthy_None.
    destruct (Inv_cur _ _ (reachable_Inv s Hr) Hc) as (Hh & _). exact Hh. }
  pose proof (complete_session_player_reputation_low roll found
                (Client.set_absurdity 0 c) (player s1) Hheat) as Hlow.
  pose proof (complete_session_player_xp roll found
                (Client.set_absurdity 0 c) (player s1)) as Hxp.
  cbn [Client.absurdity Client.set_absurdity] in Hlow, Hxp.
  split_and!.
  - rewrite Hxp in Hgx.
    destruct (truthy (Client.effects (Client.set_absurdity 0 c)) "breakthrough");
      cbn in Hgx; lia.
  - specialize (Hlow ltac:(lia)). lia.
  - congruence.
Qed.

Lemma combat_victory_completes_session_witness :
  player_action insight 6 1 "Coffee" sample_debate = Some sample_victory ∧
  Empathy (stats_of sample_victory) = Z.min 15 (Empathy (stats_of sample_debate) + 1) ∧
  timers sample_victory = (timers sample_debate ++ [AfterVictory])%list ∧
  (∃ c1, cur sample_victory = Some c1 ∧ Client.absurdity c1 = 0) ∧
  ∃ s2, after_victory 1 "Coffee" sample_victory = Some s2 ∧ debate s2 = None ∧
        Player.xp (player sample_debate) + 5 ≤ Player.xp (player s2) ∧
        Player.reputation (player sample_debate) + 1 ≤
          Player.reputation (player s2) ∧
        choice_in_progress s2 = choice_in_progress sample_debate.
Proof.
  split; [vm_compute; reflexivity|].
  apply (combat_victory_completes_session sample_debate (mkCombat 10 10 0)
           insight 6 1 "Coffee" sample_victory (mkCombat 10 0 1)).
  - eapply reachable_step;
      [apply (reachable_first "Dr. Finch" Empath); vm_compute; reflexivity|].
    apply step_debate with (s' := sample_debate). vm_compute. reflexivity.
  - vm_compute. reflexivity.
  - vm_compute. split; discriminate.
  - vm_compute. split; discriminate.
  - right. apply (bool_decide_unpack _). vm_compute. exact I.
  - vm_compute. reflexivity.
  - vm_compute. reflexivity.
  - vm_compute. discriminate.
  - apply (bool_decide_unpack _). vm_compute. exact I.
Defined.

(** ** No handler fails *)

(** X15: on a reachable state no handler fails on a missing key, a missing
    client or an index out of range: a new game, a choice and its
    continuation, any item name, the opening of a combat, a pending
    callback and, with a combat open, a turn all return a state. *)
Theorem no_handler_fails s :
  reachable s →
  (∀ name cls, is_Some (start_game name cls s)) ∧
  (∀ choice roll found, is_Some (on_choose_safe choice roll found s)) ∧
  (∀ choice roll found, is_Some (continue_after_choice choice roll found s)) ∧
  (∀ item_name, is_Some (apply_item item_name s)) ∧
  is_Some (open_debate_modal s) ∧
  (∀ cb roll found, is_Some (run cb roll found s)) ∧
  (∀ action_type dice_roll client_dice chosen,
     is_Some (debate s) →
     available_items (Player.inventory (player s)) = [] ∨
       chosen ∈ available_items (Player.inventory (player s)) →
     is_Some (player_action action_type dice_roll client_dice chosen s)).
Proof.
  intros Hr. pose proof (reachable_wf s Hr) as Hw. split_and!.
  - intros name cls. destruct (wf_start_game name cls s) as (s' & -> & _). by eexists.
  - intros choice roll found.
    destruct (wf_on_choose_safe choice roll found s Hw) as (s' & -> & _). by eexists.
  - intros choice roll found.
    destruct (wf_continue_after_choice choice roll found s Hw) as (s' & -> & _).
    by eexists.
  - intros item_name.
    destruct (Player.inventory (player s) !! item_name) as [count|] eqn:Hcount.
    + destruct (reachable_Sound s Hr) as ((_ & [Hd _] & _) & _).
      assert (is_Some (ITEMS !! item_name)) as Hi.
      { apply elem_of_dom. rewrite <- Hd. apply elem_of_dom. by eexists. }
      destruct (wf_apply_item item_name s Hw Hi) as (s' & -> & _). by eexists.
    + unfold apply_item, get0. rewrite Hcount.
      destruct (cur s); by eexists.
  - destruct (wf_open_debate_modal s Hw) as (s' & -> & _). by eexists.
  - intros cb roll found.
    destruct (wf_run cb roll found s Hw) as (s' & -> & _). by eexists.
  - intros action_type dice_roll client_dice chosen Hd Hav.
    destruct (wf_player_action action_type dice_roll client_dice chosen s Hw Hd Hav)
      as (s' & -> & _). by eexists.
Qed.

Lemma no_handler_fails_witness :
  is_Some (apply_item "Stress Ball" (sample_day Burnout)) ∧
  is_Some (run AfterDefeat 0 "Coffee" (sample_day Burnout)).
Proof.
  refine ((λ H, conj (proj1 (proj2 (proj2 (proj2 H))) "Stress Ball")
                     (proj1 (proj2 (proj2 (proj2 (proj2 (proj2 H)))))
                        AfterDefeat 0%Q "Coffee"))
            (no_handler_fails (sample_day Burnout) _)).
  apply (reachable_first "Dr. Finch" Burnout). vm_compute. reflexivity.
Defined.

(** ** The panels *)

(** X16: [render_stats], which the handlers call to refresh the panel,
    never fails on a reachable state: the stage index is within
    [THERAPY_STAGES] and every item in stock is a key of [ITEMS].  Each
    inventory button carries an item with a positive count. *)
Theorem render_stats_never_fails s :
  reachable s →
  ∃ current_stage buttons,
    render_stats s = Some (current_stage, Client.absurdity <$> cur s, buttons) ∧
    THERAPY_STAGES !! Player.current_stage_index (player s) = Some current_stage ∧
    Forall (λ b, Player.inventory (player s) !! b.1.1 = Some b.1.2 ∧
                 0 < b.1.2 ∧ ITEMS !! b.1.1 = Some b.2) buttons.
Proof.
  intros Hr. destruct (reachable_wf s Hr) as (_ & _ & Hidx).
  destruct (reachable_Sound s Hr) as ((_ & [Hd _] & _) & _).
  apply lookup_lt_is_Some_2 in Hidx as [stage Hstage].
  unfold render_stats. rewrite Hstage. cbn [mbind option_bind].
  set (f := λ kv : string * Z, ITEMS !! kv.1 ≫= λ it_info, Some (kv.1, kv.2, it_info)).
  set (l := map_to_list _).
  assert (Forall (λ kv, Player.inventory (player s) !! kv.1 = Some kv.2 ∧
                        0 < kv.2) l) as Hl.
  { apply Forall_forall. intros [k v] Hkv. subst l.
    apply elem_of_map_to_list, map_lookup_filter_Some in Hkv. exact Hkv. }
  assert (is_Some (mapM f l)) as [buttons Hb].
  { apply mapM_is_Some. eapply Forall_impl; [exact Hl|].
    intros [k v] [Hk _]. simpl in *. unfold f. simpl.
    assert (is_Some (ITEMS !! k)) as [it Hit].
    { apply elem_of_dom. rewrite <- Hd. apply elem_of_dom. by eexists. }
    rewrite Hit. by eexists. }
  rewrite Hb. cbn [mbind option_bind]. exists stage, buttons.
  split; [reflexivity|]. split; [reflexivity|].
  apply mapM_Some in Hb. clear -Hb Hl.
  induction Hb as [|[k v] b l buttons Hf Hb IH]; [constructor|].
  apply Forall_cons in Hl as [[Hk Hv] Hl]. simpl in Hk, Hv.
  constructor; [|by apply IH].
  unfold f in Hf. simpl in Hf.
  destruct (ITEMS !! k) as [it|] eqn:Hit; simpl in Hf; [|done].
  by simplify_eq.
Qed.

Lemma render_stats_never_fails_witness :
  is_Some (render_stats (sample_day Burnout)).
Proof.
  destruct (render_stats_never_fails (sample_day Burnout)) as (st & bs & H & _).
  - apply (reachable_first "Dr. Finch" Burnout). vm_compute. reflexivity.
  - rewrite H. by eexists.
Defined.

Lemma elem_of_append_if x cond line progress :
  x ∈ append_if cond line progress ↔
  x ∈ progress ∨ (cond = true ∧ x = line).
Proof.
  unfold append_if. destruct cond.
  - rewrite elem_of_app, list_elem_of_singleton. intuition.
  - intuition discriminate.
Qed.

Lemma length_append_if cond line progress :
  (length progress ≤ length (append_if cond line progress))%nat.
Proof. unfold append_if. destruct cond; [rewrite length_app|]; simpl; lia. Qed.

(** X17: the progress report of a reachable state always has its
    reputation line, never a line for heated arguments or joined delusions,
    and never the closing "Keep playing" line: with the reputation line the
    report is longer than the four lines that would bring it up. *)
Theorem progress_report_lines s :
  reachable s →
  ReputationLine (Player.reputation (player s)) ∈ on_check_progress (player s) ∧
  (∀ n, HeatedArgumentsLine n ∉ on_check_progress (player s)) ∧
  (∀ n, JoinedDelusionsLine n ∉ on_check_progress (player s)) ∧
  KeepPlaying ∉ on_check_progress (player s).
Proof.
  intros Hr.
  destruct (reachable_Inv s Hr) as ((_ & _ & Hh & Hrep) & _).
  destruct (reachable_Sound s Hr) as ((_ & _ & Hj) & _).
  unfold on_check_progress, get0. rewrite Hh, Hj.
  cbn [default from_option id].
  replace (10 <=? Player.reputation (player s)) with true by lia.
  change (1 <=? 0) with false.
  set (p1 := append_if _ (LifeChangingLine _) _).
  set (p2 := append_if _ (BigBreakthroughsLine _) p1).
  set (p3 := append_if true _ p2).
  set (p4 := append_if _ (ExperienceLine _) p3).
  set (p5 := append_if false _ p4).
  set (p6 := append_if false _ p5).
  set (p7 := (p6 ++ [Blank])%list).
  set (p8 := (p7 ++ [HighStatTitle])%list).
  set (p9 := append_if _ (PatienceLine _) p8).
  set (p10 := append_if _ (EmpathyLine _) p9).
  set (p11 := append_if _ (InsightLine _) p10).
  assert (5 ≤ length p11)%nat as Hlen.
  { pose proof (length_append_if (1 <=? default 0
        (Player.flags (player s) !! "life_changing_breakthroughs"))
        (LifeChangingLine (default 0
           (Player.flags (player s) !! "life_changing_breakthroughs")))
        [Title; Blank]) as H1.
    pose proof (length_append_if (2 <=? default 0
        (Player.flags (player s) !! "big_breakthroughs"))
        (BigBreakthroughsLine (default 0
           (Player.flags (player s) !! "big_breakthroughs"))) p1) as H2.
    assert (length p3 = S (length p2)) as H3
      by (subst p3; unfold append_if; rewrite length_app; simpl; lia).
    pose proof (length_append_if (15 <=? Player.xp (player s))
                  (ExperienceLine (Player.xp (player s))) p3) as H4.
    assert (length p8 = S (S (length p4))) as H8.
    { subst p8 p7 p6 p5. unfold append_if. rewrite !length_app. simpl. lia. }
    pose proof (length_append_if (10 <=? Patience (Player.stats (player s)))
                  (PatienceLine (Patience (Player.stats (player s)))) p8) as H9.
    pose proof (length_append_if (10 <=? Empathy (Player.stats (player s)))
                  (EmpathyLine (Empathy (Player.stats (player s)))) p9) as H10.
    pose proof (length_append_if (10 <=? Insight (Player.stats (player s)))
                  (InsightLine (Insight (Player.stats (player s)))) p10) as H11.
    fold p1 in H1. fold p2 in H2. fold p4 in H4. fold p9 in H9.
    fold p10 in H10. fold p11 in H11. simpl in H1. lia. }
  replace (length p11 <=? 4)%nat with false
    by (symmetry; apply Nat.leb_gt; lia).
  subst p11 p10 p9 p8 p7 p6 p5 p4 p3 p2 p1.
  split_and!; [| intros n | intros n |];
    rewrite ?elem_of_append_if, ?elem_of_app, ?elem_of_append_if,
            ?elem_of_cons, ?list_elem_of_singleton, ?elem_of_nil;
    intuition discriminate.
Qed.

Lemma progress_report_lines_witness :
  on_check_progress (player (sample_day Empath)) =
    [Title; Blank; ReputationLine 10; Blank; HighStatTitle] ∧
  KeepPlaying ∉ on_check_progress (player (sample_day Empath)).
Proof.
  split; [vm_compute; reflexivity|].
  refine (proj2 (proj2 (proj2 (progress_report_lines (sample_day Empath) _)))).
  apply (reachable_first "Dr. Finch" Empath). vm_compute. reflexivity.
Defined.

(** ** Location effects *)

Lemma resolve_location_keys le le' txt st c :
  get0 le "empathy_bonus" = get0 le' "empathy_bonus" →
  get0 le "insight_bonus" = get0 le' "insight_bonus" →
  get0 le "patience_bonus" = get0 le' "patience_bonus" →
  get0 le "composure_bonus" = get0 le' "composure_bonus" →
  resolve le txt st c = resolve le' txt st c.
Proof.
  intros He Hi Hp Hc. unfold resolve, category_rule, location_bonus.
  by rewrite He, Hi, Hp, Hc.
Qed.

(** X18: the location effect of Private Practice is never applied.  Its
    dict has the key all_bonus, which [on_choose] does not read (it reads
    empathy_bonus, insight_bonus, patience_bonus and composure_bonus); at
    that stage every choice is resolved exactly as without any location
    effect. *)
Theorem private_practice_bonus_is_never_applied stage choice_text st c :
  stage ∈ THERAPY_STAGES → Stage.name stage = "Private Practice" →
  is_Some (Stage.bonuses (Stage.location_effects stage) !! "all_bonus") ∧
  resolve (Stage.bonuses (Stage.location_effects stage)) choice_text st c =
    resolve ∅ choice_text st c.
Proof.
  intros Hin Hname. unfold THERAPY_STAGES in Hin.
  repeat (apply elem_of_cons in Hin as [->|Hin];
          [try discriminate Hname|]); [|by apply elem_of_nil in Hin].
  split; [by eexists|].
  by apply resolve_location_keys.
Qed.

Lemma private_practice_bonus_is_never_applied_witness :
  ∃ stage, THERAPY_STAGES !! 3%nat = Some stage ∧
    resolve (Stage.bonuses (Stage.location_effects stage))
      (lower "How does that make you feel") (mkStats 4 4 8 5)
      (Client.mk "toaster" "Toaster Guy" toaster_nodes 6 4 "start" ∅) =
    resolve ∅ (lower "How does that make you feel") (mkStats 4 4 8 5)
      (Client.mk "toaster" "Toaster Guy" toaster_nodes 6 4 "start" ∅).
Proof.
  eexists. split; [reflexivity|].
  refine (proj2 (private_practice_bonus_is_never_applied _ _ _ _ _ _)).
  - apply (list_elem_of_lookup_2 _ 3%nat). reflexivity.
  - reflexivity.
Defined.
